(** * Internal coordinates and Wilson B-matrix of pysisyphus

    A shallow embedding of [pysisyphus/InternalCoordinates.py]: bond
    detection, the fragment diagnostic, the angle and dihedral index
    generators, the three B-matrix row builders and the assembler.

    Conventions of the embedding.
    - Python exceptions are values of [exn]; a function that can raise
      returns [result A].
    - Atom indices are [nat] (the generators only produce indices taken from
      [range(N)]); an index that is out of range raises [IndexError].
    - A Python [set]/[frozenset] of indices is a [gset nat].  Python leaves
      the iteration order of a set unspecified; [elements] stands for it, and
      no theorem below uses more of [elements] than that it enumerates the
      set without repetition.
    - numpy float64 arithmetic is abstracted by the class [Scalar]: every
      definition is written once, over any carrier with the operations the
      source uses.  Statements about data flow, ordering and errors are
      proved for every carrier.  There are two instances.  [R_scalar] is
      exact real arithmetic: the formulas with rounding, overflow and nan
      left out; the algebraic identities (distances, unit vectors, blocks
      summing to zero) are proved for it, and say so.  [float_scalar] is
      IEEE binary64, the arithmetic of numpy's float64: the kernel's
      primitive floats for [+ - * /], [sqrt], [abs] and the comparisons;
      arccos, sin and cos come from the C library and are arguments of the
      instance.  It is used to evaluate the code where rounding or overflow
      makes it depart from the exact formulas.
    - The covalent-radius table [COVALENT_RADII] lives in
      [pysisyphus.elem_data], which is outside the files embedded here; it is
      an argument [CR] of the functions that read it.
    - [print] and [logging] calls have no effect on any returned value and are
      left out; [get_B_mat] is embedded for [save=None]. *)

From Stdlib Require Import Floats ZArith Reals Lra String Ascii.
From stdpp Require Import gmap strings list sorting.

(** ** Exceptions *)

Inductive exn : Set :=
  | KeyError        (* [CR[atom]] on a symbol without entry *)
  | IndexError      (* sequence index out of range, [pop] from an empty list *)
  | AssertionError  (* a failed [assert] *)
  | ValueError.     (* unpacking a wrong number of values, bad [reshape] *)

Inductive result (A : Type) : Type :=
  | Ok (a : A)
  | Raise (e : exn).
Arguments Ok {A} a.
Arguments Raise {A} e.

#[export] Instance result_ret : MRet result := fun _ a => Ok a.
#[export] Instance result_bind : MBind result := fun _ _ f r =>
  match r with
  | Ok a => f a
  | Raise e => Raise e
  end.
#[export] Instance result_fmap : FMap result := fun _ _ f r =>
  match r with
  | Ok a => Ok (f a)
  | Raise e => Raise e
  end.

(** [l[i]] for a Python sequence and a non-negative index. *)
Definition getitem {A} (l : list A) (i : nat) : result A :=
  match l !! i with
  | Some a => Ok a
  | None => Raise IndexError
  end.

(** [for x in l: y = f(x); ys.append(y)], stopping at the first exception. *)
Fixpoint for_each {A B} (f : A -> result B) (l : list A) : result (list B) :=
  match l with
  | [] => Ok []
  | x :: l' => y ← f x; ys ← for_each f l'; Ok (y :: ys)
  end.

(** [itertools.combinations(l, 2)]: pairs of positions [p < q], in
    lexicographic order of the positions. *)
Fixpoint combinations2 {A} (l : list A) : list (A * A) :=
  match l with
  | [] => []
  | x :: l' => (pair x <$> l') ++ combinations2 l'
  end.

(** [itertools.product(l1, l2)]. *)
Definition product {A B} (l1 : list A) (l2 : list B) : list (A * B) :=
  flat_map (fun a => pair a <$> l2) l1.

(** ** Scalars and 3-vectors *)

Class Scalar (F : Type) := {
  f0 : F;                       (* 0.0 *)
  f1 : F;                       (* 1, 1.0 *)
  f_1_3 : F;                    (* the literal 1.3 *)
  f_1em6 : F;                   (* the literal 1e-6 *)
  f_pi : F;                     (* np.pi *)
  fadd : F -> F -> F;
  fsub : F -> F -> F;
  fmul : F -> F -> F;
  fdiv : F -> F -> F;
  fneg : F -> F;
  fabs : F -> F;
  fsqrt : F -> F;
  farccos : F -> F;
  fsin : F -> F;
  fcos : F -> F;
  fle : F -> F -> bool;         (* a <= b *)
  flt : F -> F -> bool;         (* a < b *)
}.

Section Numeric.
Context {F : Type} {SF : Scalar F}.

Definition vec3 : Type := F * F * F.

Definition vzero : vec3 := (f0, f0, f0).
Definition vadd (a b : vec3) : vec3 :=
  let '(a1, a2, a3) := a in let '(b1, b2, b3) := b in
  (fadd a1 b1, fadd a2 b2, fadd a3 b3).
Definition vsub (a b : vec3) : vec3 :=
  let '(a1, a2, a3) := a in let '(b1, b2, b3) := b in
  (fsub a1 b1, fsub a2 b2, fsub a3 b3).
Definition vneg (a : vec3) : vec3 :=
  let '(a1, a2, a3) := a in (fneg a1, fneg a2, fneg a3).
(** [k * a], [a * k] and [a / k] for a scalar [k]. *)
Definition smulv (k : F) (a : vec3) : vec3 :=
  let '(a1, a2, a3) := a in (fmul k a1, fmul k a2, fmul k a3).
Definition vmuls (a : vec3) (k : F) : vec3 :=
  let '(a1, a2, a3) := a in (fmul a1 k, fmul a2 k, fmul a3 k).
Definition vdivs (a : vec3) (k : F) : vec3 :=
  let '(a1, a2, a3) := a in (fdiv a1 k, fdiv a2 k, fdiv a3 k).
(** [a.dot(b)], [np.cross(a, b)], [np.linalg.norm(a)]. *)
Definition vdot (a b : vec3) : F :=
  let '(a1, a2, a3) := a in let '(b1, b2, b3) := b in
  fadd (fadd (fmul a1 b1) (fmul a2 b2)) (fmul a3 b3).
Definition vcross (a b : vec3) : vec3 :=
  let '(a1, a2, a3) := a in let '(b1, b2, b3) := b in
  (fsub (fmul a2 b3) (fmul a3 b2),
   fsub (fmul a3 b1) (fmul a1 b3),
   fsub (fmul a1 b2) (fmul a2 b1)).
Definition vnorm (a : vec3) : F := fsqrt (vdot a a).

(** Python's built-in [min(a, b)] and [max(a, b)]: the first argument is
    kept unless the second compares strictly smaller (larger). *)
Definition py_min (a b : F) : F := if flt b a then b else a.
Definition py_max (a b : F) : F := if flt a b then b else a.

(** [a.reshape(-1, 3)] of a flat array and [a.flatten()] of an (N,3) array. *)
Fixpoint reshape3 (l : list F) : result (list vec3) :=
  match l with
  | [] => Ok []
  | x :: y :: z :: l' => vs ← reshape3 l'; Ok ((x, y, z) :: vs)
  | _ => Raise ValueError
  end.
Definition flatten (vs : list vec3) : list F :=
  flat_map (fun v : vec3 => let '(x, y, z) := v in [x; y; z]) vs.

(** The three entries of a flat row that belong to atom [a]. *)
Definition block (row : list F) (a : nat) : option vec3 :=
  x ← row !! (3 * a); y ← row !! (3 * a + 1); z ← row !! (3 * a + 2);
  Some (x, y, z).

(** The geometry container: [geom.atoms] and the flat [geom.coords]. *)
Record Geometry : Type := {
  atoms : list string;
  coords : list F;
}.

End Numeric.
Arguments vec3 F : clear implicits.
Arguments Geometry F : clear implicits.

(** ** Element symbols *)

(** [str.lower()], for ASCII symbols. *)
Definition lower_ascii (c : ascii) : ascii :=
  let n := nat_of_ascii c in
  if (65 <=? n)%nat && (n <=? 90)%nat then ascii_of_nat (n + 32) else c.
Fixpoint lower (s : string) : string :=
  match s with
  | EmptyString => EmptyString
  | String c s' => String (lower_ascii c) (lower s')
  end.

(** ** Fragments *)

(** [set(bi)] for a bond row [bi = (i, j)]. *)
Definition pair_set (bi : nat * nat) : gset nat := {[bi.1; bi.2]}.

(** The inner loop [for fragment in fragments] of [make_fragments] for one
    bond [bi].  A Python list iterator is a position [idx] into the live
    list: elements appended during the loop are visited too, and
    [fragment |= bi_set] updates the element in place.  [fuel] bounds the
    number of iterations; [frag_loop_fuel_enough] shows that the bound used
    by [make_fragments] is never reached. *)
Fixpoint frag_loop (fuel idx : nat) (bi : nat * nat)
    (fragments : list (gset nat)) : list (gset nat) :=
  match fuel with
  | O => fragments
  | S fuel' =>
      match fragments !! idx with
      | None => fragments
      | Some fragment =>
          let bi_set := pair_set bi in
          if decide (bi_set ∩ fragment ≠ ∅)
          then frag_loop fuel' (S idx) bi (<[idx := fragment ∪ bi_set]> fragments)
          else frag_loop fuel' (S idx) bi (fragments ++ [bi_set])
      end
  end.

(** [make_fragments(geom, bond_indices)].  The source prints the fragment
    list and returns nothing; the embedding returns the list it prints.
    [geom] is not used by the source. *)
Definition make_fragments (bond_indices : list (nat * nat))
    : result (list (gset nat)) :=
  match bond_indices with
  | [] => Raise IndexError      (* bond_indices_list.pop(0) *)
  | first :: bond_indices_list =>
      Ok (foldl (fun fragments bi =>
                   frag_loop (2 * length fragments) 0 bi fragments)
                [pair_set first] bond_indices_list)
  end.

(** ** Bond detection *)

Section Detection.
Context {F : Type} {SF : Scalar F}.
Variable CR : gmap string F.

(** [scipy.spatial.distance.pdist(coords)]: Euclidean distances of all
    pairs, in the order of [itertools.combinations]. *)
Definition pdist (cs : list (vec3 F)) : list F :=
  (fun ab : vec3 F * vec3 F => vnorm (vsub ab.1 ab.2)) <$> combinations2 cs.

(** [CR[atom]]. *)
Definition CR_lookup (atom : string) : result F :=
  match CR !! atom with
  | Some r => Ok r
  | None => Raise KeyError
  end.

(** The body of the loop [for i, j in atom_indices]. *)
Definition cov_rad_sum (geom : Geometry F) (factor : F) (ij : nat * nat)
    : result F :=
  atom1 ← lower <$> getitem (atoms geom) ij.1;
  atom2 ← lower <$> getitem (atoms geom) ij.2;
  cov_rad1 ← CR_lookup atom1;
  cov_rad2 ← CR_lookup atom2;
  Ok (fmul factor (fadd cov_rad1 cov_rad2)).

(** [atom_indices[cdm <= cov_rad_sums]]. *)
Fixpoint select_bonds (atom_indices : list (nat * nat)) (cdm sums : list F)
    : list (nat * nat) :=
  match atom_indices, cdm, sums with
  | ij :: ai, d :: cdm', s :: sums' =>
      if fle d s then ij :: select_bonds ai cdm' sums'
      else select_bonds ai cdm' sums'
  | _, _, _ => []
  end.

Definition get_bond_indices (geom : Geometry F) (factor : F)
    : result (list (nat * nat)) :=
  cs ← reshape3 (coords geom);
  let cdm := pdist cs in
  let atom_indices := combinations2 (seq 0 (length cs)) in
  cov_rad_sums ← for_each (cov_rad_sum geom factor) atom_indices;
  let bond_indices := select_bonds atom_indices cdm cov_rad_sums in
  _ ← make_fragments bond_indices;
  Ok bond_indices.

End Detection.

(** ** Angle indices *)

(** [sort_by_central(set1, set2)]. *)
Definition sort_by_central (set1 set2 : gset nat)
    : result ((nat * nat * nat) * nat) :=
  let central_set := set1 ∩ set2 in
  let union := set1 ∪ set2 in
  if decide (size central_set = 1) then
    match elements (union ∖ central_set) with
    | [terminal1; terminal2] =>
        match elements central_set with
        | [central] => Ok ((terminal1, central, terminal2), central)
        | _ => Raise ValueError
        end
    | _ => Raise ValueError
    end
  else Raise AssertionError.

(** The loop of [get_bending_indices] over the pairs of bond sets. *)
Fixpoint bending_loop (pairs : list (gset nat * gset nat))
    (bending_indices : list (nat * nat * nat)) : result (list (nat * nat * nat)) :=
  match pairs with
  | [] => Ok bending_indices
  | (bond_set1, bond_set2) :: pairs' =>
      let union := bond_set1 ∪ bond_set2 in
      if decide (size union = 3) then
        r ← sort_by_central bond_set1 bond_set2;
        bending_loop pairs' (bending_indices ++ [r.1])
      else bending_loop pairs' bending_indices
  end.

Definition bond_sets_of (bond_indices : list (nat * nat)) : gset (gset nat) :=
  list_to_set (pair_set <$> bond_indices).

Definition get_bending_indices (bond_indices : list (nat * nat))
    : result (list (nat * nat * nat)) :=
  let bond_sets := bond_sets_of bond_indices in
  bending_loop (combinations2 (elements bond_sets)) [].

(** ** Dihedral indices *)

Definition quad : Type := nat * nat * nat * nat.

(** [set(dihedral_ind)]. *)
Definition quad_set (d : quad) : gset nat :=
  let '(a, b, c, e) := d in {[a; b; c; e]}.

(** [set(bend)]. *)
Definition triple_set (t : nat * nat * nat) : gset nat :=
  let '(a, b, c) := t in {[a; b; c]}.

(** [list(bond).index(x)]. *)
Definition pair_index (bond : nat * nat) (x : nat) : result nat :=
  if decide (bond.1 = x) then Ok 0
  else if decide (bond.2 = x) then Ok 1
  else Raise ValueError.

(** The candidate built from one (bond, bend) pair, [None] when the pair
    does not pass the test of the [if]. *)
Definition dihedral_candidate (bond : nat * nat) (bend : nat * nat * nat)
    : result (option quad) :=
  let '(bend0, central, bend2) := bend in
  let bes : gset nat := {[bend0; bend2]} in
  let bois : gset nat := pair_set bond in
  if decide (size (bes ∩ bois) = 1 ∧ central ∉ bois) then
    match elements (pair_set bond ∩ triple_set bend) with
    | [intersect] =>
        intersect_ind ← pair_index bond intersect;
        let term_ind := 1 - intersect_ind in
        let terminal := if decide (term_ind = 0) then bond.1 else bond.2 in
        if decide (intersect = bend0)
        then Ok (Some (terminal, bend0, central, bend2))
        else Ok (Some (bend0, central, bend2, terminal))
    | _ => Raise ValueError
    end
  else Ok None.

(** One turn of the loop of [get_dihedral_indices]: the candidate is
    appended unless its atom set is already in [dihedral_sets]. *)
Definition dihedral_accept (dihedral_ind : quad)
    (st : list quad * list (gset nat)) : list quad * list (gset nat) :=
  let '(dihedral_inds, dihedral_sets) := st in
  let dihedral_set := quad_set dihedral_ind in
  if decide (dihedral_set ∉ dihedral_sets)
  then (dihedral_inds ++ [dihedral_ind], dihedral_sets ++ [dihedral_set])
  else st.

Fixpoint dihedral_loop (pairs : list ((nat * nat) * (nat * nat * nat)))
    (st : list quad * list (gset nat)) : result (list quad) :=
  match pairs with
  | [] => Ok st.1
  | (bond, bend) :: pairs' =>
      c ← dihedral_candidate bond bend;
      match c with
      | Some dihedral_ind => dihedral_loop pairs' (dihedral_accept dihedral_ind st)
      | None => dihedral_loop pairs' st
      end
  end.

Definition get_dihedral_indices (bond_inds : list (nat * nat))
    (bend_inds : list (nat * nat * nat)) : result (list quad) :=
  dihedral_loop (product bond_inds bend_inds) ([], []).

(** ** B-matrix rows *)

Section Rows.
Context {F : Type} {SF : Scalar F}.

(** [np.zeros_like(coords)]. *)
Definition zeros_like (cs : list (vec3 F)) : list (vec3 F) :=
  replicate (length cs) vzero.

(** [get_bond_B(geom, bond_ind)].  The writes [row[m,:] = ...] use the
    indices that [coords[m]] has already accepted, so they are in range. *)
Definition get_bond_B (geom : Geometry F) (bond_ind : nat * nat)
    : result (list F) :=
  cs ← reshape3 (coords geom);
  let '(n, m) := bond_ind in
  cm ← getitem cs m;
  cn ← getitem cs n;
  let bond := vsub cm cn in
  let bond_length := vnorm bond in
  let bond_normed := vdivs bond bond_length in
  let row := zeros_like cs in
  let row := <[m := smulv f1 bond_normed]> row in
  let row := <[n := smulv (fneg f1) bond_normed]> row in
  Ok (flatten row).

(** The nested helper [are_parallel] of [get_angle_B], with its default
    [thresh=1e-6]. *)
Definition are_parallel (vec1 vec2 : vec3 F) : bool :=
  let rad := farccos (vdot vec1 vec2) in
  flt (fsub f_pi f_1em6) (fabs rad).

(** The vector [w_dash] of [get_angle_B], Eq. (24) of the reference. *)
Definition angle_w_dash (u v : vec3 F) : vec3 F :=
  if are_parallel u v then
    let tmp_vec : vec3 F := (f1, fneg f1, f1) in
    let par := are_parallel u tmp_vec && are_parallel v tmp_vec in
    let tmp_vec : vec3 F := if par then (fneg f1, f1, f1) else tmp_vec in
    vcross u tmp_vec
  else vcross u v.

(** The two terms [(first_term, second_term)] of [get_angle_B], from the
    positions of the atoms [m], [o], [n]. *)
Definition angle_terms (cm co cn : vec3 F) : vec3 F * vec3 F :=
  let u_dash := vsub cm co in
  let v_dash := vsub cn co in
  let u_norm := vnorm u_dash in
  let v_norm := vnorm v_dash in
  let u := vdivs u_dash u_norm in
  let v := vdivs v_dash v_norm in
  let rad := farccos (vdot u v) in
  let w_dash := angle_w_dash u v in
  let w_norm := vnorm w_dash in
  let w := vdivs w_dash w_norm in
  let uxw := vcross u w in
  let wxv := vcross w v in
  let first_term := vdivs uxw u_norm in
  let second_term := vdivs wxv v_norm in
  (first_term, second_term).

Definition get_angle_B (geom : Geometry F) (angle_ind : nat * nat * nat)
    : result (list F) :=
  cs ← reshape3 (coords geom);
  let '(m, o, n) := angle_ind in
  cm ← getitem cs m;
  co ← getitem cs o;
  cn ← getitem cs n;
  let '(first_term, second_term) := angle_terms cm co cn in
  let row := zeros_like cs in
  let row := <[m := first_term]> row in
  let row := <[o := vsub (vneg first_term) second_term]> row in
  let row := <[n := second_term]> row in
  Ok (flatten row).

(** The four blocks written by [get_dihedral_B], from the positions of the
    four atoms: [(first_term, -second_term, -first_term + third_term,
    second_term - third_term)].  [x**2] is [x * x]. *)
Definition dihedral_terms (cm co cp cn : vec3 F)
    : vec3 F * vec3 F * vec3 F * vec3 F :=
  let u_dash := vsub cm co in
  let v_dash := vsub cn cp in
  let w_dash := vsub cp co in
  let u_norm := vnorm u_dash in
  let v_norm := vnorm v_dash in
  let w_norm := vnorm w_dash in
  let u := vdivs u_dash u_norm in
  let v := vdivs v_dash v_norm in
  let w := vdivs w_dash w_norm in
  let phi_u := farccos (vdot u w) in
  let phi_v := farccos (vdot w v) in
  let uxw := vcross u w in
  let vxw := vcross v w in
  let cos_dihed := fdiv (vdot uxw vxw) (fmul (fsin phi_u) (fsin phi_v)) in
  let cos_dihed := py_min cos_dihed f1 in
  let cos_dihed := py_max cos_dihed (fneg f1) in
  let dihedral := farccos cos_dihed in
  let sin2_u := fmul (fsin phi_u) (fsin phi_u) in
  let sin2_v := fmul (fsin phi_v) (fsin phi_v) in
  let first_term := vdivs uxw (fmul u_norm sin2_u) in
  let second_term := vdivs vxw (fmul v_norm sin2_v) in
  let third_term :=
    vsub (vdivs (vmuls uxw (fcos phi_u)) (fmul w_norm sin2_u))
         (vdivs (vmuls vxw (fcos phi_v)) (fmul w_norm sin2_v)) in
  (first_term, vneg second_term,
   vadd (vneg first_term) third_term, vsub second_term third_term).

Definition get_dihedral_B (geom : Geometry F) (dihedral_ind : quad)
    : result (list F) :=
  cs ← reshape3 (coords geom);
  let '(m, o, p, n) := dihedral_ind in
  cm ← getitem cs m;
  co ← getitem cs o;
  cn ← getitem cs n;
  cp ← getitem cs p;
  let '(at_m, at_n, at_o, at_p) := dihedral_terms cm co cp cn in
  let row := zeros_like cs in
  let row := <[m := at_m]> row in
  let row := <[n := at_n]> row in
  let row := <[o := at_o]> row in
  let row := <[p := at_p]> row in
  Ok (flatten row).

(** [get_B_mat(geom)], with [save=None]. *)
Definition get_B_mat (CR : gmap string F) (geom : Geometry F)
    : result (list (list F)) :=
  bond_inds ← get_bond_indices CR geom f_1_3;
  bend_inds ← get_bending_indices bond_inds;
  dihedral_inds ← get_dihedral_indices bond_inds bend_inds;
  bond_rows ← for_each (get_bond_B geom) bond_inds;
  bend_rows ← for_each (get_angle_B geom) bend_inds;
  dihed_rows ← for_each (get_dihedral_B geom) dihedral_inds;
  Ok (bond_rows ++ bend_rows ++ dihed_rows).

End Rows.

(** ** The dihedral row without the dihedral angle

    [get_dihedral_B] with the statements that compute [cos_dihed], clamp it
    to [-1, 1] and take its arccos removed; everything else is as above. *)

Section RowsNoClamp.
Context {F : Type} {SF : Scalar F}.

Definition dihedral_terms_noclamp (cm co cp cn : vec3 F)
    : vec3 F * vec3 F * vec3 F * vec3 F :=
  let u_dash := vsub cm co in
  let v_dash := vsub cn cp in
  let w_dash := vsub cp co in
  let u_norm := vnorm u_dash in
  let v_norm := vnorm v_dash in
  let w_norm := vnorm w_dash in
  let u := vdivs u_dash u_norm in
  let v := vdivs v_dash v_norm in
  let w := vdivs w_dash w_norm in
  let phi_u := farccos (vdot u w) in
  let phi_v := farccos (vdot w v) in
  let uxw := vcross u w in
  let vxw := vcross v w in
  let sin2_u := fmul (fsin phi_u) (fsin phi_u) in
  let sin2_v := fmul (fsin phi_v) (fsin phi_v) in
  let first_term := vdivs uxw (fmul u_norm sin2_u) in
  let second_term := vdivs vxw (fmul v_norm sin2_v) in
  let third_term :=
    vsub (vdivs (vmuls uxw (fcos phi_u)) (fmul w_norm sin2_u))
         (vdivs (vmuls vxw (fcos phi_v)) (fmul w_norm sin2_v)) in
  (first_term, vneg second_term,
   vadd (vneg first_term) third_term, vsub second_term third_term).

Definition get_dihedral_B_noclamp (geom : Geometry F) (dihedral_ind : quad)
    : result (list F) :=
  cs ← reshape3 (coords geom);
  let '(m, o, p, n) := dihedral_ind in
  cm ← getitem cs m;
  co ← getitem cs o;
  cn ← getitem cs n;
  cp ← getitem cs p;
  let '(at_m, at_n, at_o, at_p) := dihedral_terms_noclamp cm co cp cn in
  let row := zeros_like cs in
  let row := <[m := at_m]> row in
  let row := <[n := at_n]> row in
  let row := <[o := at_o]> row in
  let row := <[p := at_p]> row in
  Ok (flatten row).

End RowsNoClamp.

(** ** The real numbers as scalars *)

#[export] Instance Rle_decision (a b : R) : Decision (a <= b)%R := Rle_dec a b.
#[export] Instance Rlt_decision (a b : R) : Decision (a < b)%R := Rlt_dec a b.

#[export] Instance R_scalar : Scalar R := {|
  f0 := 0%R;
  f1 := 1%R;
  f_1_3 := (13 / 10)%R;
  f_1em6 := (1 / 1000000)%R;
  f_pi := PI;
  fadd := Rplus;
  fsub := Rminus;
  fmul := Rmult;
  fdiv := Rdiv;
  fneg := Ropp;
  fabs := Rabs;
  fsqrt := sqrt;
  farccos := acos;
  fsin := sin;
  fcos := cos;
  fle := fun a b => bool_decide (a <= b)%R;
  flt := fun a b => bool_decide (a < b)%R;
|}.

(** The Euclidean distance of two points. *)
Definition euclid (a b : vec3 R) : R :=
  let '(a1, a2, a3) := a in let '(b1, b2, b3) := b in
  sqrt ((a1 - b1) * (a1 - b1) + (a2 - b2) * (a2 - b2) + (a3 - b3) * (a3 - b3))%R.

(** The unit vector that points from [a] to [b]: the difference divided by
    the Euclidean distance. *)
Definition unit_from (a b : vec3 R) : vec3 R :=
  let '(a1, a2, a3) := a in let '(b1, b2, b3) := b in
  let d := euclid b a in
  ((b1 - a1) / d, (b2 - a2) / d, (b3 - a3) / d)%R.

(** The sum of a list of blocks, component by component. *)
Definition sum_of_blocks (bs : list (vec3 R)) : vec3 R :=
  foldr (fun b acc : vec3 R =>
           (b.1.1 + acc.1.1, b.1.2 + acc.1.2, b.2 + acc.2)%R)
        (0, 0, 0)%R bs.

(** ** float64

    The arithmetic numpy computes with.  [acos_f], [sin_f] and [cos_f]
    stand for the C library's arccos, sin and cos, whose results IEEE 754
    does not fix bit by bit; the literals are those of the source, rounded
    to binary64. *)

Section Float64.
Variables acos_f sin_f cos_f : float -> float.

Definition float_scalar : Scalar float := {|
  f0 := 0%float;
  f1 := 1%float;
  f_1_3 := 0x1.4cccccccccccdp+0%float;
  f_1em6 := 0x1.0c6f7a0b5ed8dp-20%float;
  f_pi := 0x1.921fb54442d18p+1%float;
  fadd := PrimFloat.add;
  fsub := PrimFloat.sub;
  fmul := PrimFloat.mul;
  fdiv := PrimFloat.div;
  fneg := PrimFloat.opp;
  fabs := PrimFloat.abs;
  fsqrt := PrimFloat.sqrt;
  farccos := acos_f;
  fsin := sin_f;
  fcos := cos_f;
  fle := PrimFloat.leb;
  flt := PrimFloat.ltb;
|}.

End Float64.

(** The exact value of a finite float64, in units of [2^-1074] (the
    smallest positive float64, so the value is an integer); [None] for an
    infinity or a nan. *)
Definition float_units (x : float) : option Z :=
  match Prim2SF x with
  | S754_zero _ => Some 0%Z
  | S754_finite s m e =>
      Some ((if s then Z.neg m else Z.pos m) * 2 ^ (e + 1074))%Z
  | _ => None
  end.

(** ** Predicates used in the statements *)

(** No two fragments of the list share an atom. *)
Definition pairwise_disjoint (frs : list (gset nat)) : Prop :=
  forall a b fa fb, a <> b -> frs !! a = Some fa -> frs !! b = Some fb -> fa ## fb.

(** The angle triple [t] is built from the pair [p] of bond sets: the middle
    atom is the one the two bonds share, the outer atoms are the other two. *)
Definition angle_of (p : gset nat * gset nat) (t : nat * nat * nat) : Prop :=
  let '(terminal1, central, terminal2) := t in
  p.1 ∩ p.2 = {[central]} /\
  (p.1 ∪ p.2) ∖ {[central]} = {[terminal1; terminal2]} /\
  terminal1 <> terminal2.

(** The invariant of the loop of [get_dihedral_indices]: the recorded sets
    are the sets of the accepted quadruples, and no set is recorded twice. *)
Definition dihedral_inv (st : list quad * list (gset nat)) : Prop :=
  st.2 = quad_set <$> st.1 /\ NoDup st.2.

(** Every atom of the set satisfies [P]. *)
Definition atoms_sat (P : nat -> Prop) (s : gset nat) : Prop :=
  forall x, x ∈ s -> P x.

(** The number of fragments that the bond [bi] does not touch; it bounds the
    number of appends of [frag_loop]. *)
Definition count_disjoint (bi : nat * nat) (l : list (gset nat)) : nat :=
  length (filter (fun f => pair_set bi ∩ f = ∅) l).

(** ** Example inputs

    A small radius table (the table of [pysisyphus.elem_data] is not part of
    the embedded files; lengths are in arbitrary units) and a few
    geometries over the real numbers. *)

Definition CR_example : gmap string R :=
  {[ "h" := (1 / 2)%R; "o" := 1%R ]}.

(** Two hydrogen atoms at distance 1: one bond. *)
Definition h2 : Geometry R :=
  {| atoms := ["H"; "H"]; coords := [0; 0; 0; 1; 0; 0]%R |}.

(** Two hydrogen atoms at distance 3: no bond. *)
Definition far_pair : Geometry R :=
  {| atoms := ["H"; "H"]; coords := [0; 0; 0; 3; 0; 0]%R |}.

(** A bent three-atom molecule with a right angle at atom 0. *)
Definition bent3 : Geometry R :=
  {| atoms := ["O"; "H"; "H"];
     coords := [0; 0; 0;  1; 0; 0;  0; 1; 0]%R |}.

(** A four-atom chain 0-1-2-3 twisted by a right angle. *)
Definition twisted4 : Geometry R :=
  {| atoms := ["H"; "O"; "O"; "H"];
     coords := [0; 1; 0;  0; 0; 0;  1; 0; 0;  1; 0; 1]%R |}.

(** Two atoms at distance 5. *)
Definition pair345 : Geometry R :=
  {| atoms := ["H"; "H"]; coords := [0; 0; 0; 3; 4; 0]%R |}.

(** float64 geometries: two atoms on the diagonal of the unit cube, two
    atoms [2^600] apart, and three atoms with an angle of 45 degrees at
    atom 1. *)
Definition diag2_f : Geometry float :=
  {| atoms := ["H"; "H"]; coords := [0; 0; 0; 1; 1; 1]%float |}.

Definition far2_f : Geometry float :=
  {| atoms := ["H"; "H"]; coords := [0; 0; 0; 0x1p+600; 0; 0]%float |}.

Definition skew3_f : Geometry float :=
  {| atoms := ["H"; "O"; "H"];
     coords := [1; 0; 0;  0; 0; 0;  1; 1; 0]%float |}.

(** Geometries with an element that [CR_example] does not know. *)
Definition lone_unknown : Geometry R :=
  {| atoms := ["Xx"]; coords := [0; 0; 0]%R |}.

Definition pair_unknown : Geometry R :=
  {| atoms := ["H"; "Xx"]; coords := [0; 0; 0; 1; 0; 0]%R |}.

(** ** Further notions used in the statements *)

(** What one pass of the loop of [make_fragments] does to a fragment that
    the bond [bi] meets, and to one it does not meet. *)
Definition merge_fragment (bi : nat * nat) (f : gset nat) : gset nat :=
  if decide (pair_set bi ∩ f ≠ ∅) then f ∪ pair_set bi else f.

(** The lexicographic order of index pairs. *)
Definition pair_lt (a b : nat * nat) : Prop :=
  a.1 < b.1 \/ (a.1 = b.1 /\ a.2 < b.2).

(** The atoms [i] and [j] are listed as a bond, in one of the two
    orientations. *)
Definition bonded (bonds : list (nat * nat)) (i j : nat) : Prop :=
  (i, j) ∈ bonds \/ (j, i) ∈ bonds.

(** The angle triple read from the other end. *)
Definition triple_rev (t : nat * nat * nat) : nat * nat * nat :=
  let '(a, b, c) := t in (c, b, a).

(** The geometry moved rigidly by the vector [t]: every position [c]
    becomes [c + t]. *)
Fixpoint shift_flat (t : vec3 R) (l : list R) : list R :=
  match l with
  | x :: y :: z :: l' =>
      let '(t1, t2, t3) := t in
      (x + t1)%R :: (y + t2)%R :: (z + t3)%R :: shift_flat t l'
  | _ => l
  end.

Definition translate (t : vec3 R) (geom : Geometry R) : Geometry R :=
  {| atoms := atoms geom; coords := shift_flat t (coords geom) |}.

(** A coordinate array that is not a sequence of triples. *)
Definition short_coords : Geometry R :=
  {| atoms := ["H"%string]; coords := [0; 0]%R |}.

(** * Properties *)

(** ** The error monad *)

Lemma bind_Ok {A B} (f : A -> result B) (r : result A) (b : B) :
  r ≫= f = Ok b <-> exists a, r = Ok a /\ f a = Ok b.
Proof.
  destruct r as [a|e]; simpl; split.
  - intros Hf. by exists a.
  - by intros (a' & [= <-] & Hf).
  - intros [=].
  - by intros (a' & [=] & _).
Qed.

Lemma fmap_Ok {A B} (f : A -> B) (r : result A) (b : B) :
  f <$> r = Ok b <-> exists a, r = Ok a /\ b = f a.
Proof.
  destruct r as [a|e]; simpl; split.
  - intros [= <-]. by exists a.
  - by intros (a' & [= <-] & ->).
  - intros [=].
  - by intros (a' & [=] & _).
Qed.

Lemma getitem_Ok {A} (l : list A) (i : nat) (a : A) :
  getitem l i = Ok a <-> l !! i = Some a.
Proof. unfold getitem. destruct (l !! i); split; congruence. Qed.

Lemma getitem_lt {A} (l : list A) (i : nat) :
  i < length l -> exists a, getitem l i = Ok a /\ l !! i = Some a.
Proof.
  intros Hi. destruct (lookup_lt_is_Some_2 l i Hi) as [a Ha].
  exists a. split; [by apply getitem_Ok | done].
Qed.

Lemma for_each_Ok {A B} (f : A -> result B) (l : list A) (ys : list B) :
  for_each f l = Ok ys <-> Forall2 (fun x y => f x = Ok y) l ys.
Proof.
  revert ys. induction l as [|x l IH]; intros ys; simpl.
  - split; [intros [= <-]; constructor | by inversion 1].
  - rewrite bind_Ok. split.
    + intros (y & Hy & Hr). apply bind_Ok in Hr as (ys' & Hys & [= <-]).
      constructor; [done | by apply IH].
    + inversion 1 as [|? y ? ys' Hy Hys]; subst. exists y. split; [done |].
      apply bind_Ok. exists ys'. split; [by apply IH | done].
Qed.

Lemma for_each_total {A B} (f : A -> result B) (l : list A) :
  Forall (fun x => exists y, f x = Ok y) l -> exists ys, for_each f l = Ok ys.
Proof.
  induction 1 as [|x l [y Hy] _ [ys Hys]]; simpl.
  - by exists [].
  - exists (y :: ys). by rewrite Hy, Hys.
Qed.

Lemma for_each_Raise_all {A B} (f : A -> result B) (l : list A) (e : exn) :
  (forall x, x ∈ l -> (exists y, f x = Ok y) \/ f x = Raise e) ->
  (exists x, x ∈ l /\ f x = Raise e) ->
  for_each f l = Raise e.
Proof.
  induction l as [|x0 l IH]; intros Hall (x & Hin & Hx).
  - by apply elem_of_nil in Hin.
  - simpl. destruct (Hall x0 ltac:(apply list_elem_of_here)) as [[y Hy] | Hy];
      rewrite Hy; simpl; [| done].
    rewrite IH; [done | |].
    + intros x' Hx'. apply Hall. by apply list_elem_of_further.
    + apply elem_of_cons in Hin as [-> | Hin]; [congruence |]. by exists x.
Qed.

(** ** Reshaping *)

Section NumericFacts.
Context {F : Type} {SF : Scalar F}.

Lemma reshape3_flatten (l : list F) (cs : list (vec3 F)) :
  reshape3 l = Ok cs -> flatten cs = l.
Proof.
  revert l. induction cs as [|c cs IH]; intros l Hl.
  - destruct l as [|x [|y [|z l]]]; simpl in Hl; try done.
    destruct (reshape3 l); simpl in Hl; done.
  - destruct l as [|x [|y [|z l]]]; simpl in Hl; try done.
    destruct (reshape3 l) as [vs|] eqn:Hvs; simpl in Hl; [| done].
    injection Hl as <- <-. simpl. by rewrite (IH l).
Qed.

Lemma flatten_length (vs : list (vec3 F)) : length (flatten vs) = 3 * length vs.
Proof.
  induction vs as [|[[x y] z] vs IH]; [done |].
  change (flatten (((x, y), z) :: vs)) with (x :: y :: z :: flatten vs).
  simpl length. lia.
Qed.

Lemma reshape3_length (l : list F) (cs : list (vec3 F)) :
  reshape3 l = Ok cs -> length l = 3 * length cs.
Proof. intros Hl. rewrite <- (reshape3_flatten l cs Hl). apply flatten_length. Qed.

Lemma block_flatten (vs : list (vec3 F)) (a : nat) :
  block (flatten vs) a = vs !! a.
Proof.
  revert a. induction vs as [|[[x y] z] vs IH]; intros a; [done |].
  change (flatten (((x, y), z) :: vs)) with (x :: y :: z :: flatten vs).
  destruct a as [|a]; [done |].
  unfold block in *. specialize (IH a).
  replace (3 * S a) with (S (S (S (3 * a)))) by lia.
  replace (S (S (S (3 * a))) + 1) with (S (S (S (3 * a + 1)))) by lia.
  replace (S (S (S (3 * a))) + 2) with (S (S (S (3 * a + 2)))) by lia.
  exact IH.
Qed.

Lemma lookup_flatten_zero (vs : list (vec3 F)) (k : nat) :
  vs !! (k `div` 3) = Some vzero -> flatten vs !! k = Some f0.
Proof.
  intros Hv. rewrite <- block_flatten in Hv. unfold block in Hv.
  destruct (flatten vs !! (3 * (k `div` 3))) as [x|] eqn:Hx; [| done].
  destruct (flatten vs !! (3 * (k `div` 3) + 1)) as [y|] eqn:Hy; [| done].
  destruct (flatten vs !! (3 * (k `div` 3) + 2)) as [z|] eqn:Hz; [| done].
  simpl in Hv. injection Hv as -> -> ->.
  pose proof (Nat.div_mod_eq k 3) as Hk.
  pose proof (Nat.mod_upper_bound k 3 ltac:(lia)) as Hm.
  destruct (k `mod` 3) as [|[|[|r]]] eqn:Hr; [| | | lia].
  - replace k with (3 * (k `div` 3)) at 1 by lia. done.
  - replace k with (3 * (k `div` 3) + 1) at 1 by lia. done.
  - replace k with (3 * (k `div` 3) + 2) at 1 by lia. done.
Qed.

Lemma zeros_like_length (cs : list (vec3 F)) : length (zeros_like cs) = length cs.
Proof. apply length_replicate. Qed.

Lemma zeros_like_lookup (cs : list (vec3 F)) (a : nat) :
  a < length cs -> zeros_like cs !! a = Some vzero.
Proof. intros Ha. by apply lookup_replicate_2. Qed.

End NumericFacts.

(** [row_length] closes the goal on the length of a row whose blocks have
    been written; [lookup_written] reads the block of an atom back when the
    later writes go to other atoms. *)
Ltac row_length :=
  by rewrite flatten_length, !length_insert, zeros_like_length.
Ltac lookup_written :=
  rewrite ?list_lookup_insert_ne by done;
  apply list_lookup_insert_eq;
  by rewrite ?length_insert, zeros_like_length.

(** ** Pairs of positions *)

Lemma elem_of_combinations2 {A} (l : list A) (a b : A) :
  (a, b) ∈ combinations2 l <->
  exists p q, p < q /\ l !! p = Some a /\ l !! q = Some b.
Proof.
  induction l as [|x l IH]; cbn [combinations2].
  - split; [by intros ?%elem_of_nil | by intros (p & q & _ & ? & _)].
  - rewrite elem_of_app, list_elem_of_fmap, IH. split.
    + intros [(y & [= -> ->] & Hy) | (p & q & Hpq & Hp & Hq)].
      * apply list_elem_of_lookup in Hy as [q Hq]. exists 0, (S q). split; [lia | by split].
      * exists (S p), (S q). split; [lia | by split].
    + intros (p & q & Hpq & Hp & Hq). destruct q as [|q]; [lia |].
      destruct p as [|p]; simpl in *.
      * left. injection Hp as ->. exists b. split; [done |]. by eapply list_elem_of_lookup_2.
      * right. exists p, q. split; [lia | by split].
Qed.

Lemma combinations2_fmap {A B} (f : A -> B) (l : list A) :
  combinations2 (f <$> l) = prod_map f f <$> combinations2 l.
Proof.
  induction l as [|x l IH]; [done |]. rewrite fmap_cons. cbn [combinations2].
  rewrite fmap_app, IH. f_equal.
  rewrite <- !list_fmap_compose. by apply list_fmap_ext.
Qed.

Lemma elem_of_product {A B} (l1 : list A) (l2 : list B) (a : A) (b : B) :
  (a, b) ∈ product l1 l2 -> a ∈ l1 /\ b ∈ l2.
Proof.
  unfold product. rewrite list_elem_of_In, in_flat_map.
  intros (a' & Ha & Hb). apply list_elem_of_In in Ha, Hb.
  apply list_elem_of_fmap in Hb as (b' & [= -> ->] & Hb). done.
Qed.

(** ** Bond detection *)

Section DetectionFacts.
Context {F : Type} {SF : Scalar F}.
Variable CR : gmap string F.

Lemma elem_of_select_bonds {X} (g1 : X -> nat * nat) (g2 : X -> F)
    (xs : list X) (sums : list F) (ij : nat * nat) :
  length sums = length xs ->
  ij ∈ select_bonds (g1 <$> xs) (g2 <$> xs) sums <->
  exists k x s, xs !! k = Some x /\ sums !! k = Some s /\
                g1 x = ij /\ fle (g2 x) s = true.
Proof.
  revert sums. induction xs as [|x xs IH]; intros sums Hlen.
  - simpl. split; [by intros ?%elem_of_nil | by intros (k & ? & ? & ? & _)].
  - destruct sums as [|s sums]; [done |]. injection Hlen as Hlen.
    rewrite !fmap_cons. cbn [select_bonds].
    destruct (fle (g2 x) s) eqn:Hle.
    + rewrite elem_of_cons, (IH sums Hlen). split.
      * intros [-> | (k & x' & s' & ? & ? & ? & ?)].
        -- by exists 0, x, s.
        -- by exists (S k), x', s'.
      * intros ([|k] & x' & s' & Hx & Hs & Hg & Hf); simpl in *.
        -- left. congruence.
        -- right. by exists k, x', s'.
    + rewrite (IH sums Hlen). split.
      * intros (k & x' & s' & ? & ? & ? & ?). by exists (S k), x', s'.
      * intros ([|k] & x' & s' & Hx & Hs & Hg & Hf); simpl in *.
        -- congruence.
        -- by exists k, x', s'.
Qed.

(** What [get_bond_indices] computes before it calls [make_fragments]. *)
Lemma select_bonds_spec (geom : Geometry F) (factor : F)
    (cs : list (vec3 F)) (sums : list F) (i j : nat) :
  for_each (cov_rad_sum CR geom factor) (combinations2 (seq 0 (length cs))) = Ok sums ->
  (i, j) ∈ select_bonds (combinations2 (seq 0 (length cs))) (pdist cs) sums <->
  i < j /\ exists ci cj s, cs !! i = Some ci /\ cs !! j = Some cj /\
           cov_rad_sum CR geom factor (i, j) = Ok s /\
           fle (vnorm (vsub ci cj)) s = true.
Proof.
  intros Hsums. apply for_each_Ok in Hsums.
  set (xs := combinations2 (zip (seq 0 (length cs)) cs)).
  assert (Hidx : combinations2 (seq 0 (length cs)) = prod_map fst fst <$> xs).
  { unfold xs. rewrite <- combinations2_fmap, fst_zip; [done |].
    by rewrite length_seq. }
  assert (Hcdm : pdist cs =
            (fun x : (nat * vec3 F) * (nat * vec3 F) =>
               vnorm (vsub x.1.2 x.2.2)) <$> xs).
  { unfold pdist, xs. rewrite <- (snd_zip (seq 0 (length cs)) cs) at 1
      by (by rewrite length_seq).
    rewrite combinations2_fmap, <- list_fmap_compose. done. }
  assert (Hx : forall x, x ∈ xs <->
            x.1.1 < x.2.1 /\ cs !! x.1.1 = Some x.1.2 /\ cs !! x.2.1 = Some x.2.2).
  { intros [[p cp] [q cq]]. unfold xs. rewrite elem_of_combinations2. simpl.
    split.
    - intros (a & b & Hab & Ha & Hb).
      apply lookup_zip_with_Some in Ha as (? & ? & [= <- <-] & Ha & ?).
      apply lookup_zip_with_Some in Hb as (? & ? & [= <- <-] & Hb & ?).
      apply lookup_seq in Ha as [-> _]. apply lookup_seq in Hb as [-> _]. done.
    - intros (Hpq & Hp & Hq). exists p, q. split; [done |].
      split; apply lookup_zip_with_Some; eexists _, _; (split; [done |]);
        (split; [| done]); apply lookup_seq; split; try done;
        by eapply lookup_lt_Some. }
  pose proof (Forall2_length _ _ _ Hsums) as Hlen.
  rewrite Hidx in Hsums, Hlen |- *. rewrite Hcdm. rewrite length_fmap in Hlen.
  rewrite elem_of_select_bonds by done. split.
  - intros (k & x & s & Hk & Hs & Hg & Hf).
    assert (x ∈ xs) as Hin by (by eapply list_elem_of_lookup_2).
    apply Hx in Hin as (Hlt & Hci & Hcj).
    destruct x as [[p cp] [q cq]]. simpl in *. injection Hg as -> ->.
    split; [done |]. exists cp, cq, s. repeat split; try done.
    eapply Forall2_lookup_lr in Hsums; [exact Hsums | | exact Hs].
    rewrite list_lookup_fmap, Hk. done.
  - intros (Hlt & ci & cj & s & Hci & Hcj & Hcov & Hf).
    assert (((i, ci), (j, cj)) ∈ xs) as Hin by (by apply Hx).
    apply list_elem_of_lookup in Hin as [k Hk].
    exists k, ((i, ci), (j, cj)).
    destruct (Forall2_lookup_l _ _ _ k (i, j) Hsums) as (s' & Hs' & Hcov').
    { rewrite list_lookup_fmap, Hk. done. }
    exists s'. repeat split; try done. simpl. congruence.
Qed.

Lemma get_bond_indices_Ok (geom : Geometry F) (factor : F) (bonds : list (nat * nat)) :
  get_bond_indices CR geom factor = Ok bonds <->
  exists cs sums,
    reshape3 (coords geom) = Ok cs /\
    for_each (cov_rad_sum CR geom factor) (combinations2 (seq 0 (length cs))) = Ok sums /\
    bonds = select_bonds (combinations2 (seq 0 (length cs))) (pdist cs) sums /\
    bonds <> [].
Proof.
  unfold get_bond_indices. rewrite bind_Ok. split.
  - intros (cs & Hcs & Hr). apply bind_Ok in Hr as (sums & Hsums & Hr).
    apply bind_Ok in Hr as (frs & Hfr & [= <-]).
    exists cs, sums. repeat split; try done.
    intros Hnil. rewrite Hnil in Hfr. done.
  - intros (cs & sums & Hcs & Hsums & -> & Hne). exists cs. split; [done |].
    apply bind_Ok. exists sums. split; [done |].
    destruct (select_bonds _ _ sums) as [|b bs] eqn:Hsel; [done |]. done.
Qed.

Lemma cov_rad_sum_Ok (geom : Geometry F) (factor : F) (i j : nat) (s : F) :
  cov_rad_sum CR geom factor (i, j) = Ok s <->
  exists ai aj ri rj,
    atoms geom !! i = Some ai /\ atoms geom !! j = Some aj /\
    CR !! lower ai = Some ri /\ CR !! lower aj = Some rj /\
    s = fmul factor (fadd ri rj).
Proof.
  unfold cov_rad_sum, CR_lookup. simpl. split.
  - intros Hs.
    apply bind_Ok in Hs as (a1 & (ai & Hi%getitem_Ok & ->)%fmap_Ok & Hs).
    apply bind_Ok in Hs as (a2 & (aj & Hj%getitem_Ok & ->)%fmap_Ok & Hs).
    apply bind_Ok in Hs as (ri & Hri & Hs).
    apply bind_Ok in Hs as (rj & Hrj & [= <-]).
    exists ai, aj, ri, rj.
    destruct (CR !! lower ai) eqn:?; [| done].
    destruct (CR !! lower aj) eqn:?; [| done].
    repeat split; congruence.
  - intros (ai & aj & ri & rj & Hi & Hj & Hri & Hrj & ->).
    apply getitem_Ok in Hi, Hj. rewrite Hi, Hj. simpl. by rewrite Hri, Hrj.
Qed.

Lemma get_bond_indices_pairs (geom : Geometry F) (factor : F)
    (bonds : list (nat * nat)) :
  get_bond_indices CR geom factor = Ok bonds ->
  exists cs, reshape3 (coords geom) = Ok cs /\
    (forall i j, (i, j) ∈ bonds <->
       i < j /\ exists ci cj ai aj ri rj,
         cs !! i = Some ci /\ cs !! j = Some cj /\
         atoms geom !! i = Some ai /\ atoms geom !! j = Some aj /\
         CR !! lower ai = Some ri /\ CR !! lower aj = Some rj /\
         fle (vnorm (vsub ci cj)) (fmul factor (fadd ri rj)) = true) /\
    (forall ij, ij ∈ bonds -> ij.1 < ij.2).
Proof.
  intros (cs & sums & Hcs & Hsums & -> & _)%get_bond_indices_Ok.
  exists cs. split; [done |].
  assert (Hchar : forall i j,
    (i, j) ∈ select_bonds (combinations2 (seq 0 (length cs))) (pdist cs) sums <->
       i < j /\ exists ci cj ai aj ri rj,
         cs !! i = Some ci /\ cs !! j = Some cj /\
         atoms geom !! i = Some ai /\ atoms geom !! j = Some aj /\
         CR !! lower ai = Some ri /\ CR !! lower aj = Some rj /\
         fle (vnorm (vsub ci cj)) (fmul factor (fadd ri rj)) = true).
  { intros i j. rewrite (select_bonds_spec geom factor cs sums i j Hsums).
    split.
    - intros (Hlt & ci & cj & s & Hci & Hcj & Hs & Hle). split; [done |].
      apply cov_rad_sum_Ok in Hs as (ai & aj & ri & rj & ? & ? & ? & ? & ->).
      by exists ci, cj, ai, aj, ri, rj.
    - intros (Hlt & ci & cj & ai & aj & ri & rj & ? & ? & ? & ? & ? & ? & Hle).
      split; [done |]. exists ci, cj, (fmul factor (fadd ri rj)).
      repeat split; try done.
      apply cov_rad_sum_Ok. by exists ai, aj, ri, rj. }
  split; [exact Hchar |].
  intros [i j] Hij. by apply Hchar in Hij as [Hlt _].
Qed.

End DetectionFacts.

(** ** Unordered pairs *)

Lemma combinations2_NoDup {A} (l : list A) : NoDup l -> NoDup (combinations2 l).
Proof.
  induction 1 as [|x l Hx Hl IH]; cbn [combinations2]; [constructor |].
  apply NoDup_app. split; [| split; [| done]].
  - apply NoDup_fmap_2; [| done]. by intros ?? [=].
  - intros [a b] (y & [= -> ->] & Hy)%list_elem_of_fmap
           (p & q & _ & Hp & _)%elem_of_combinations2.
    apply Hx. by eapply list_elem_of_lookup_2.
Qed.

Lemma combinations2_distinct {A} (l : list A) (a b : A) :
  NoDup l -> (a, b) ∈ combinations2 l -> a <> b /\ (b, a) ∉ combinations2 l.
Proof.
  intros Hl (p & q & Hpq & Hp & Hq)%elem_of_combinations2. split.
  - intros ->. pose proof (NoDup_lookup _ _ _ _ Hl Hp Hq). lia.
  - intros (p' & q' & Hpq' & Hp' & Hq')%elem_of_combinations2.
    pose proof (NoDup_lookup _ _ _ _ Hl Hp Hq').
    pose proof (NoDup_lookup _ _ _ _ Hl Hq Hp'). lia.
Qed.

Lemma combinations2_complete {A} (l : list A) (a b : A) :
  a ∈ l -> b ∈ l -> a <> b ->
  (a, b) ∈ combinations2 l \/ (b, a) ∈ combinations2 l.
Proof.
  intros [p Hp]%list_elem_of_lookup [q Hq]%list_elem_of_lookup Hab.
  destruct (Nat.lt_trichotomy p q) as [Hlt | [-> | Hgt]].
  - left. apply elem_of_combinations2. by exists p, q.
  - congruence.
  - right. apply elem_of_combinations2. by exists q, p.
Qed.

Lemma combinations2_elem_of {A} (l : list A) (a b : A) :
  (a, b) ∈ combinations2 l -> a ∈ l /\ b ∈ l.
Proof.
  intros (p & q & _ & Hp & Hq)%elem_of_combinations2.
  split; by eapply list_elem_of_lookup_2.
Qed.

(** ** Bond detection over the real numbers *)

Lemma vnorm_vsub_euclid (a b : vec3 R) : vnorm (vsub a b) = euclid a b.
Proof. by destruct a as [[a1 a2] a3], b as [[b1 b2] b3]. Qed.


Lemma h2_bonds : get_bond_indices CR_example h2 (13 / 10)%R = Ok [(0, 1)].
Proof.
  apply get_bond_indices_Ok.
  exists [(0, 0, 0); (1, 0, 0)]%R, [(13 / 10 * (1 / 2 + 1 / 2))%R].
  split; [reflexivity |]. split; [reflexivity |]. split; [| done].
  unfold pdist. cbn -[Rle_decision Rplus Rmult Rminus Rdiv sqrt bool_decide].
  rewrite bool_decide_true; [reflexivity |].
  replace ((0 - 1) * (0 - 1) + (0 - 0) * (0 - 0) + (0 - 0) * (0 - 0))%R with (1 * 1)%R by lra.
  rewrite sqrt_square; lra.
Qed.




(** ** Fragments *)

Lemma pair_set_nonempty (bi : nat * nat) : pair_set bi ∩ pair_set bi ≠ ∅.
Proof. unfold pair_set. set_solver. Qed.

Lemma frag_loop_fuel (fuel fuel' idx : nat) (bi : nat * nat) (frs : list (gset nat)) :
  (length frs - idx) + count_disjoint bi (drop idx frs) <= fuel ->
  fuel <= fuel' ->
  frag_loop fuel' idx bi frs = frag_loop fuel idx bi frs.
Proof.
  revert fuel' idx frs. induction fuel as [|fuel IH]; intros fuel' idx frs Hm Hle.
  - assert (frs !! idx = None) as Hnone by (apply lookup_ge_None; lia).
    destruct fuel'; simpl; by rewrite ?Hnone.
  - destruct fuel' as [|fuel']; [lia |]. simpl.
    destruct (frs !! idx) as [fr|] eqn:Hfr; [| done].
    pose proof (lookup_lt_Some _ _ _ Hfr) as Hlt.
    rewrite (drop_S _ _ _ Hfr) in Hm. unfold count_disjoint in Hm.
    rewrite filter_cons in Hm.
    destruct (decide (pair_set bi ∩ fr ≠ ∅)) as [Hi|Hi].
    + apply IH; [| lia]. rewrite length_insert, drop_insert_lt by lia.
      unfold count_disjoint. destruct (decide (pair_set bi ∩ fr = ∅)); simpl in Hm; lia.
    + apply IH; [| lia]. rewrite length_app, drop_app_le by lia. simpl.
      unfold count_disjoint. rewrite filter_app, length_app.
      rewrite filter_cons, decide_False by apply pair_set_nonempty.
      rewrite filter_nil. simpl.
      destruct (decide (pair_set bi ∩ fr = ∅)) as [|Hn]; [simpl in Hm; lia |].
      destruct Hi. done.
Qed.

(** The fuel that [make_fragments] passes is enough: more fuel gives the
    same list. *)
Lemma frag_loop_fuel_enough (fuel' : nat) (bi : nat * nat) (frs : list (gset nat)) :
  2 * length frs <= fuel' ->
  frag_loop fuel' 0 bi frs = frag_loop (2 * length frs) 0 bi frs.
Proof.
  intros Hle. apply frag_loop_fuel; [| done].
  unfold count_disjoint. rewrite drop_0.
  pose proof (length_filter (fun f => pair_set bi ∩ f = ∅) frs). lia.
Qed.

(** Fragments only grow, and stay at their position. *)
Lemma frag_loop_mono (fuel idx : nat) (bi : nat * nat) (frs : list (gset nat))
    (a : nat) (fa : gset nat) :
  frs !! a = Some fa ->
  exists fa', frag_loop fuel idx bi frs !! a = Some fa' /\ fa ⊆ fa'.
Proof.
  revert idx frs fa. induction fuel as [|fuel IH]; intros idx frs fa Ha; simpl.
  - by exists fa.
  - destruct (frs !! idx) as [fr|] eqn:Hfr; [| by exists fa].
    destruct (decide (pair_set bi ∩ fr ≠ ∅)).
    + destruct (decide (a = idx)) as [->|Hne].
      * destruct (IH (S idx) (<[idx:=fr ∪ pair_set bi]> frs) (fr ∪ pair_set bi))
          as (fa' & Hfa' & Hsub).
        { apply list_lookup_insert_eq. by eapply lookup_lt_Some. }
        exists fa'. split; [done |]. set_solver.
      * apply IH. by rewrite list_lookup_insert_ne.
    + apply IH. by apply lookup_app_l_Some.
Qed.

Lemma frag_loop_covers (fuel : nat) (bi : nat * nat) (frs : list (gset nat)) :
  frs <> [] -> 0 < fuel ->
  exists f, f ∈ frag_loop fuel 0 bi frs /\ pair_set bi ⊆ f.
Proof.
  intros Hne Hfuel. destruct fuel as [|fuel]; [lia |].
  destruct frs as [|fr frs]; [done |]. simpl.
  destruct (decide (pair_set bi ∩ fr ≠ ∅)).
  - destruct (frag_loop_mono fuel 1 bi (fr ∪ pair_set bi :: frs) 0 (fr ∪ pair_set bi))
      as (f & Hf & Hsub); [done |].
    exists f. split; [by eapply list_elem_of_lookup_2 |].
    etransitivity; [apply union_subseteq_r | exact Hsub].
  - destruct (frag_loop_mono fuel 1 bi (fr :: frs ++ [pair_set bi])
                (S (length frs)) (pair_set bi)) as (f & Hf & Hsub).
    { simpl. rewrite lookup_app_r by lia. by rewrite Nat.sub_diag. }
    exists f. split; [by eapply list_elem_of_lookup_2 | done].
Qed.

Lemma frag_loop_length (fuel idx : nat) (bi : nat * nat) (frs : list (gset nat)) :
  length frs <= length (frag_loop fuel idx bi frs).
Proof.
  revert idx frs. induction fuel as [|fuel IH]; intros idx frs; simpl; [lia |].
  destruct (frs !! idx) as [fr|]; [| lia].
  destruct (decide (pair_set bi ∩ fr ≠ ∅)).
  - etransitivity; [| apply IH]. by rewrite length_insert.
  - etransitivity; [| apply IH]. rewrite length_app. lia.
Qed.

(** The part of the fragment invariant that the code does establish: the two
    atoms of every bond lie in one fragment. *)
Lemma make_fragments_covers (bonds : list (nat * nat)) (frs : list (gset nat)) :
  make_fragments bonds = Ok frs ->
  forall i j, (i, j) ∈ bonds -> exists f, f ∈ frs /\ i ∈ f /\ j ∈ f.
Proof.
  destruct bonds as [|b0 rest]; [done |]. simpl. intros [= <-].
  assert (Hgen : forall (rest : list (nat * nat)) (frs0 : list (gset nat)) (bi : nat * nat),
    frs0 <> [] ->
    (bi ∈ rest \/ exists f, f ∈ frs0 /\ pair_set bi ⊆ f) ->
    let out := foldl (fun fragments bi =>
                        frag_loop (2 * length fragments) 0 bi fragments) frs0 rest in
    out <> [] /\ exists f, f ∈ out /\ pair_set bi ⊆ f).
  { clear. intros rest. induction rest as [|b rest IH]; intros frs0 bi Hne Hbi; cbn [foldl].
    - split; [done |]. destruct Hbi as [?%elem_of_nil | ?]; done.
    - apply IH.
      + pose proof (frag_loop_length (2 * length frs0) 0 b frs0) as Hl.
        destruct frs0; [done |]. intros Heq. rewrite Heq in Hl. simpl in Hl. lia.
      + destruct Hbi as [[-> | Hin]%elem_of_cons | (f & Hf & Hsub)].
        * right. apply frag_loop_covers; [done |]. destruct frs0; [done | simpl; lia].
        * by left.
        * right. apply list_elem_of_lookup in Hf as [a Ha].
          destruct (frag_loop_mono (2 * length frs0) 0 b frs0 a f Ha) as (f' & Hf' & Hs).
          exists f'. split; [by eapply list_elem_of_lookup_2 | by etransitivity]. }
  intros i j Hij.
  destruct (Hgen rest [pair_set b0] (i, j)) as (_ & f & Hf & Hsub); [done | |].
  - apply elem_of_cons in Hij as [<- | Hij]; [right | by left].
    exists (pair_set (i, j)). split; [apply list_elem_of_here | done].
  - exists f. split; [done |]. unfold pair_set in Hsub. simpl in Hsub.
    split; apply Hsub, elem_of_union; [left | right]; by apply elem_of_singleton.
Qed.

(** Fragments hold atoms of bonds only. *)
Lemma frag_loop_atoms (P : nat -> Prop) (fuel idx : nat) (bi : nat * nat)
    (frs : list (gset nat)) :
  atoms_sat P (pair_set bi) -> Forall (atoms_sat P) frs ->
  Forall (atoms_sat P) (frag_loop fuel idx bi frs).
Proof.
  intros Hbi. revert idx frs. induction fuel as [|fuel IH]; intros idx frs Hfrs; [done |].
  simpl. destruct (frs !! idx) as [fr|] eqn:Hfr; [| done].
  destruct (decide _); apply IH.
  - apply Forall_insert; [done |]. intros x [Hx | Hx]%elem_of_union; [| by apply Hbi].
    eapply (Forall_lookup_1 _ _ _ _ Hfrs Hfr), Hx.
  - apply Forall_app. split; [done |]. by apply Forall_singleton.
Qed.

Lemma make_fragments_atoms (P : nat -> Prop) (bonds : list (nat * nat))
    (frs : list (gset nat)) :
  make_fragments bonds = Ok frs ->
  (forall b, b ∈ bonds -> P b.1 /\ P b.2) ->
  forall f, f ∈ frs -> atoms_sat P f.
Proof.
  assert (forall b : nat * nat, P b.1 /\ P b.2 -> atoms_sat P (pair_set b)) as Hpair.
  { intros b [? ?] x. unfold pair_set.
    by intros [->%elem_of_singleton | ->%elem_of_singleton]%elem_of_union. }
  destruct bonds as [|b0 rest]; [done |]. simpl. intros [= <-] Hb.
  apply Forall_forall.
  assert (Forall (atoms_sat P) [pair_set b0]) as Hinit.
  { apply Forall_singleton, Hpair, Hb, list_elem_of_here. }
  assert (forall b, b ∈ rest -> P b.1 /\ P b.2) as Hrest.
  { intros b Hin. by apply Hb, list_elem_of_further. }
  clear Hb. revert Hinit Hrest. generalize [pair_set b0].
  induction rest as [|b rest IH]; intros frs0 Hfrs0 Hrest; [done |].
  cbn [foldl]. apply IH.
  - apply frag_loop_atoms; [| done]. apply Hpair, Hrest, list_elem_of_here.
  - intros b' Hin. by apply Hrest, list_elem_of_further.
Qed.

Lemma make_fragments_total (bonds : list (nat * nat)) :
  bonds <> [] -> exists frs, make_fragments bonds = Ok frs.
Proof. destruct bonds; [done |]. intros _. by eexists. Qed.

(** C3, as amended.  For a bond list that is not empty the fragment
    analyzer returns a list of fragments; every fragment is a set of atoms
    that occur in the bonds, and for every bond of the input its two atoms
    lie in one and the same fragment. *)
Theorem make_fragments_bond_in_fragment (bonds : list (nat * nat)) :
  bonds <> [] ->
  exists frs, make_fragments bonds = Ok frs /\
    (forall f x, f ∈ frs -> x ∈ f -> exists b, b ∈ bonds /\ (x = b.1 \/ x = b.2)) /\
    (forall i j, (i, j) ∈ bonds -> exists f, f ∈ frs /\ i ∈ f /\ j ∈ f).
Proof.
  intros Hne. destruct (make_fragments_total bonds Hne) as [frs Hfrs].
  exists frs. split; [done |]. split; [| by apply make_fragments_covers].
  intros f x Hf Hx.
  refine (make_fragments_atoms
            (fun x => exists b, b ∈ bonds /\ (x = b.1 \/ x = b.2))
            bonds frs Hfrs _ f Hf x Hx).
  intros b Hb. split; exists b; auto.
Qed.

Lemma make_fragments_bond_in_fragment_witness :
  exists frs, make_fragments [(0, 2); (1, 3); (2, 3)] = Ok frs /\
    (forall f x, f ∈ frs -> x ∈ f ->
       exists b, b ∈ [(0, 2); (1, 3); (2, 3)] /\ (x = b.1 \/ x = b.2)) /\
    (forall i j, (i, j) ∈ [(0, 2); (1, 3); (2, 3)] ->
                 exists f, f ∈ frs /\ i ∈ f /\ j ∈ f).
Proof. apply (make_fragments_bond_in_fragment [(0, 2); (1, 3); (2, 3)]). discriminate. Defined.

(** C3, as stated, fails: for the bonds of a chain 0-2-3-1 the two
    fragments that [make_fragments] builds share the atoms 2 and 3. *)
Lemma make_fragments_overlap :
  make_fragments [(0, 2); (1, 3); (2, 3)] = Ok [ {[0; 2; 3]}; {[1; 2; 3]} ] /\
  ~ pairwise_disjoint [ {[0; 2; 3]}; {[1; 2; 3]} ].
Proof.
  split; [vm_compute; reflexivity |].
  intros Hd.
  assert (({[0; 2; 3]} : gset nat) ## {[1; 2; 3]}) as Hdisj
    by (by apply (Hd 0 1)).
  apply (Hdisj 2); rewrite !elem_of_union, !elem_of_singleton; auto.
Qed.

(** A bond that meets none of several fragments is appended once per
    fragment. *)
Example make_fragments_repeats :
  make_fragments [(0, 1); (2, 3); (4, 5)]
  = Ok [ {[0; 1]}; {[2; 3]}; {[4; 5]}; {[4; 5]} ].
Proof. vm_compute. reflexivity. Qed.

(** ** Angle indices *)

Lemma pair_set_size (b : nat * nat) : b.1 <> b.2 -> size (pair_set b) = 2.
Proof.
  intros Hb. unfold pair_set. rewrite size_union, !size_singleton; [done |].
  by apply disjoint_singleton_l, not_elem_of_singleton.
Qed.

Lemma elem_of_bond_sets_of (bonds : list (nat * nat)) (s : gset nat) :
  s ∈ bond_sets_of bonds <-> exists b, b ∈ bonds /\ s = pair_set b.
Proof.
  unfold bond_sets_of. rewrite elem_of_list_to_set, list_elem_of_fmap.
  split; intros (b & ? & ?); by exists b.
Qed.

Lemma elements_one (X : gset nat) : size X = 1 -> exists c, elements X = [c] /\ X = {[c]}.
Proof.
  unfold size, set_size. simpl. intros Hs.
  destruct (elements X) as [|c [|c' l]] eqn:He; try done.
  exists c. split; [done |]. apply set_eq. intros x.
  rewrite <- elem_of_elements, He, list_elem_of_singleton, elem_of_singleton. done.
Qed.

Lemma elements_two (X : gset nat) :
  size X = 2 -> exists a b, elements X = [a; b] /\ X = {[a; b]} /\ a <> b.
Proof.
  unfold size, set_size. simpl. intros Hs.
  pose proof (NoDup_elements X) as Hnd.
  destruct (elements X) as [|a [|b [|c l]]] eqn:He; try done.
  exists a, b. split; [done |]. split.
  - apply set_eq. intros x.
    rewrite <- elem_of_elements, He, elem_of_union, !elem_of_singleton.
    rewrite elem_of_cons, list_elem_of_singleton. done.
  - intros ->. apply NoDup_cons in Hnd as [Hnd _]. apply Hnd, list_elem_of_here.
Qed.

Lemma gset_inter_comm (s1 s2 : gset nat) : s1 ∩ s2 = s2 ∩ s1.
Proof. apply set_eq. intros x. rewrite !elem_of_intersection. tauto. Qed.

Lemma gset_union_comm (s1 s2 : gset nat) : s1 ∪ s2 = s2 ∪ s1.
Proof. apply set_eq. intros x. rewrite !elem_of_union. tauto. Qed.

Lemma sort_by_central_Ok (s1 s2 : gset nat) :
  size s1 = 2 -> size s2 = 2 -> size (s1 ∪ s2) = 3 ->
  exists t1 c t2, sort_by_central s1 s2 = Ok ((t1, c, t2), c) /\
                  angle_of (s1, s2) (t1, c, t2).
Proof.
  intros H1 H2 H3.
  assert (size (s1 ∩ s2) = 1) as Hc.
  { pose proof (size_union_alt s1 s2) as Hu.
    pose proof (size_difference_alt s2 s1) as Hd.
    rewrite (gset_inter_comm s2 s1) in Hd.
    pose proof (subseteq_size (s1 ∩ s2) s2 ltac:(apply intersection_subseteq_r)).
    lia. }
  assert (size ((s1 ∪ s2) ∖ (s1 ∩ s2)) = 2) as Ht.
  { rewrite size_difference; [lia |].
    etransitivity; [apply intersection_subseteq_l | apply union_subseteq_l]. }
  destruct (elements_one _ Hc) as (c & Hec & Hcs).
  destruct (elements_two _ Ht) as (t1 & t2 & Het & Hts & Hne).
  exists t1, c, t2. unfold sort_by_central.
  rewrite decide_True by done. rewrite Het, Hec. split; [done |].
  unfold angle_of. simpl. rewrite <- Hcs. done.
Qed.

Lemma bending_loop_spec (pairs : list (gset nat * gset nat))
    (acc : list (nat * nat * nat)) :
  (forall s1 s2, (s1, s2) ∈ pairs -> size s1 = 2 /\ size s2 = 2) ->
  exists triples,
    bending_loop pairs acc = Ok (acc ++ triples) /\
    Forall2 angle_of
      (filter (fun p : gset nat * gset nat => size (p.1 ∪ p.2) = 3) pairs) triples.
Proof.
  revert acc. induction pairs as [|[s1 s2] pairs IH]; intros acc Hsz.
  - exists []. simpl. rewrite app_nil_r. split; [done | constructor].
  - cbn [bending_loop]. rewrite filter_cons. simpl.
    assert (forall a b, (a, b) ∈ pairs -> size a = 2 /\ size b = 2) as Hsz'.
    { intros a b Hab. apply Hsz. by apply list_elem_of_further. }
    destruct (Hsz s1 s2 ltac:(apply list_elem_of_here)) as [H1 H2].
    destruct (decide (size (s1 ∪ s2) = 3)) as [H3|H3].
    + destruct (sort_by_central_Ok s1 s2 H1 H2 H3) as (t1 & c & t2 & Hs & Ha).
      rewrite Hs. simpl.
      destruct (IH (acc ++ [(t1, c, t2)]) Hsz') as (triples & Hl & Hf).
      exists ((t1, c, t2) :: triples). split.
      * by rewrite Hl, <- app_assoc.
      * by constructor.
    + by apply IH.
Qed.

Lemma get_bending_indices_pairs (bonds : list (nat * nat)) :
  (forall b, b ∈ bonds -> b.1 <> b.2) ->
  exists pairs triples,
    get_bending_indices bonds = Ok triples /\
    Forall2 angle_of pairs triples /\
    NoDup pairs /\
    (forall s1 s2, (s1, s2) ∈ pairs ->
       s1 ∈ bond_sets_of bonds /\ s2 ∈ bond_sets_of bonds /\ s1 <> s2 /\
       size (s1 ∪ s2) = 3) /\
    (forall s1 s2, s1 ∈ bond_sets_of bonds -> s2 ∈ bond_sets_of bonds ->
       s1 <> s2 -> size (s1 ∪ s2) = 3 ->
       ((s1, s2) ∈ pairs /\ (s2, s1) ∉ pairs) \/
       ((s2, s1) ∈ pairs /\ (s1, s2) ∉ pairs)).
Proof.
  intros Hb.
  set (all := combinations2 (elements (bond_sets_of bonds))).
  assert (NoDup (elements (bond_sets_of bonds))) as Hnd by apply NoDup_elements.
  assert (forall s, s ∈ elements (bond_sets_of bonds) -> size s = 2) as Hsz.
  { intros s (b & Hin & ->)%elem_of_elements%elem_of_bond_sets_of.
    by apply pair_set_size, Hb. }
  destruct (bending_loop_spec all []) as (triples & Hl & Hf).
  { intros s1 s2 [H1 H2]%combinations2_elem_of. split; by apply Hsz. }
  exists (filter (fun p : gset nat * gset nat => size (p.1 ∪ p.2) = 3) all), triples.
  split; [exact Hl |]. split; [exact Hf |]. split; [| split].
  - by apply NoDup_filter, combinations2_NoDup.
  - intros s1 s2 [H3 Hin]%list_elem_of_filter. simpl in H3.
    destruct (combinations2_elem_of _ _ _ Hin) as [H1 H2].
    destruct (combinations2_distinct _ _ _ Hnd Hin) as [Hne _].
    by rewrite !elem_of_elements in *.
  - intros s1 s2 H1 H2 Hne H3.
    assert (size (s2 ∪ s1) = 3) as H3' by (by rewrite (gset_union_comm s2 s1)).
    rewrite !list_elem_of_filter. simpl.
    destruct (combinations2_complete (elements (bond_sets_of bonds)) s1 s2)
      as [Hin | Hin]; [by apply elem_of_elements.. | done | |].
    + left. split; [done |]. intros [_ Hin'].
      by destruct (combinations2_distinct _ _ _ Hnd Hin) as [_ []].
    + right. split; [done |]. intros [_ Hin'].
      by destruct (combinations2_distinct _ _ _ Hnd Hin) as [_ []].
Qed.

(** C4.  For a bond list whose bonds join two distinct atoms,
    [get_bending_indices] returns a list of triples that corresponds, entry
    by entry, to a duplicate-free list [pairs] of pairs of atom sets of
    bonds of the list: [pairs] holds, for every two bonds of the list whose
    atom sets differ and have a union of exactly three atoms, the pair of the
    two atom sets in exactly one of its two orders, and nothing else; the
    triple of a pair has the atom shared by the two bonds in the middle and
    the two other atoms, which differ, outside. *)
Theorem get_bending_indices_spec (bonds : list (nat * nat)) :
  (forall b, b ∈ bonds -> b.1 <> b.2) ->
  exists pairs triples,
    get_bending_indices bonds = Ok triples /\
    Forall2 angle_of pairs triples /\
    NoDup pairs /\
    (forall s1 s2, (s1, s2) ∈ pairs ->
       (exists b1 b2, b1 ∈ bonds /\ b2 ∈ bonds /\
          s1 = {[b1.1; b1.2]} /\ s2 = {[b2.1; b2.2]}) /\
       s1 <> s2 /\ size (s1 ∪ s2) = 3) /\
    (forall b1 b2, b1 ∈ bonds -> b2 ∈ bonds ->
       ({[b1.1; b1.2]} : gset nat) <> {[b2.1; b2.2]} ->
       size ({[b1.1; b1.2]} ∪ {[b2.1; b2.2]} : gset nat) = 3 ->
       ((({[b1.1; b1.2]}, {[b2.1; b2.2]}) : gset nat * gset nat) ∈ pairs /\
        (({[b2.1; b2.2]}, {[b1.1; b1.2]}) : gset nat * gset nat) ∉ pairs) \/
       ((({[b2.1; b2.2]}, {[b1.1; b1.2]}) : gset nat * gset nat) ∈ pairs /\
        (({[b1.1; b1.2]}, {[b2.1; b2.2]}) : gset nat * gset nat) ∉ pairs)).
Proof.
  intros Hb.
  destruct (get_bending_indices_pairs bonds Hb)
    as (pairs & triples & Hok & Hf & Hnd & Hin & Hex).
  exists pairs, triples. split; [done |]. split; [done |]. split; [done |]. split.
  - intros s1 s2 Hp. destruct (Hin s1 s2 Hp) as (H1 & H2 & Hne & Hsz).
    apply elem_of_bond_sets_of in H1 as (b1 & Hb1 & ->).
    apply elem_of_bond_sets_of in H2 as (b2 & Hb2 & ->).
    split; [| done]. by exists b1, b2.
  - intros b1 b2 Hb1 Hb2 Hne Hsz.
    apply (Hex (pair_set b1) (pair_set b2));
      [apply elem_of_bond_sets_of; by exists b1
      |apply elem_of_bond_sets_of; by exists b2 | done | done].
Qed.

(** The bonds 0-1 and 0-2: one angle, with atom 0 in the middle. *)
Lemma get_bending_indices_spec_witness :
  exists triples,
    get_bending_indices [(0, 1); (0, 2)] = Ok triples /\
    exists t, t ∈ triples /\ (t = (1, 0, 2) \/ t = (2, 0, 1)).
Proof.
  destruct (get_bending_indices_spec [(0, 1); (0, 2)])
    as (pairs & triples & Hok & Hf & _ & _ & Hex).
  { intros b Hb. apply elem_of_cons in Hb as [-> | Hb]; [simpl; lia |].
    apply elem_of_cons in Hb as [-> | Hb]; [simpl; lia |].
    by apply elem_of_nil in Hb. }
  exists triples. split; [exact Hok |].
  assert (exists p, p ∈ pairs /\
            (p = ({[0; 1]}, {[0; 2]}) \/ p = ({[0; 2]}, {[0; 1]})))
    as (p & [k Hk]%list_elem_of_lookup & Hp).
  { destruct (Hex (0, 1) (0, 2)) as [[Hin _] | [Hin _]].
    - apply list_elem_of_here.
    - apply list_elem_of_further, list_elem_of_here.
    - simpl. intros Heq.
      assert (1 ∈ ({[0; 2]} : gset nat)) as H1
        by (rewrite <- Heq, elem_of_union, !elem_of_singleton; tauto).
      rewrite elem_of_union, !elem_of_singleton in H1. lia.
    - by vm_compute.
    - eexists. split; [exact Hin |]. by left.
    - eexists. split; [exact Hin |]. by right. }
  destruct (Forall2_lookup_l _ _ _ _ _ Hf Hk) as ([[a c] b] & Ht & Ha).
  exists (a, c, b). split; [by eapply list_elem_of_lookup_2 |].
  assert (({[0; 1]} ∩ {[0; 2]} : gset nat) = {[c]} /\
          (({[0; 1]} ∪ {[0; 2]}) ∖ {[c]} : gset nat) = {[a; b]} /\ a <> b)
    as (Hi & Hu & Hab).
  { destruct Hp as [-> | ->]; destruct Ha as (Hi & Hu & ?); simpl in *.
    - done.
    - rewrite (gset_inter_comm {[0; 1]}), (gset_union_comm {[0; 1]}). done. }
  assert (c = 0) as ->.
  { assert (0 ∈ ({[0; 1]} ∩ {[0; 2]} : gset nat)) as Hc
      by (rewrite elem_of_intersection, !elem_of_union, !elem_of_singleton; tauto).
    rewrite Hi in Hc. by apply elem_of_singleton in Hc. }
  assert (forall x, x ∈ ({[a; b]} : gset nat) -> x = 1 \/ x = 2) as Hx.
  { intros x. rewrite <- Hu.
    rewrite elem_of_difference, !elem_of_union, !elem_of_singleton. lia. }
  destruct (Hx a) as [-> | ->], (Hx b) as [-> | ->];
    rewrite ?elem_of_union, ?elem_of_singleton; auto; try done.
Defined.

(** A bond row with twice the same atom is outside the data model: its set
    has one element, and the [assert] of [sort_by_central] can fail. *)
Example get_bending_indices_degenerate :
  get_bending_indices [(0, 0); (1, 2)] = Raise AssertionError.
Proof. vm_compute. reflexivity. Qed.

(** ** Dihedral indices *)

Lemma dihedral_candidate_total (bond : nat * nat) (bend : nat * nat * nat) :
  exists c, dihedral_candidate bond bend = Ok c.
Proof.
  destruct bend as [[bend0 central] bend2]. unfold dihedral_candidate.
  destruct (decide _) as [[Hsz Hc]|]; [| by eexists].
  assert (pair_set bond ∩ triple_set (bend0, central, bend2)
          = {[bend0; bend2]} ∩ pair_set bond) as Heq.
  { apply set_eq. intros x. unfold triple_set.
    rewrite !elem_of_intersection, !elem_of_union, !elem_of_singleton.
    split; [| tauto]. intros [Hx [[-> | ->] | ->]]; tauto. }
  rewrite Heq. destruct (elements_one _ Hsz) as (x & -> & Hx).
  assert (x ∈ pair_set bond) as Hin.
  { assert (x ∈ ({[bend0; bend2]} : gset nat) ∩ pair_set bond) as Hin'
      by (rewrite Hx; by apply elem_of_singleton).
    by apply elem_of_intersection in Hin' as [_ ?]. }
  unfold pair_set in Hin. apply elem_of_union in Hin.
  rewrite !elem_of_singleton in Hin. unfold pair_index.
  destruct (decide (bond.1 = x)); simpl.
  - destruct (decide (x = bend0)); by eexists.
  - destruct (decide (bond.2 = x)); simpl; [| destruct Hin; congruence].
    destruct (decide (x = bend0)); by eexists.
Qed.

Lemma dihedral_accept_inv (d : quad) (st : list quad * list (gset nat)) :
  dihedral_inv st -> dihedral_inv (dihedral_accept d st).
Proof.
  destruct st as [inds sets]. unfold dihedral_inv, dihedral_accept. simpl.
  intros [-> Hnd]. destruct (decide _) as [Hnew|]; [| done]. simpl. split.
  - by rewrite fmap_app.
  - apply NoDup_app. split; [done |]. split; [| apply NoDup_singleton].
    intros s Hs ->%list_elem_of_singleton. done.
Qed.

Lemma dihedral_accept_skip (d : quad) (inds : list quad) (sets : list (gset nat)) :
  quad_set d ∈ sets -> dihedral_accept d (inds, sets) = (inds, sets).
Proof. intros Hin. unfold dihedral_accept. by rewrite decide_False by tauto. Qed.

Lemma dihedral_loop_inv (pairs : list ((nat * nat) * (nat * nat * nat)))
    (st : list quad * list (gset nat)) :
  dihedral_inv st ->
  exists ds, dihedral_loop pairs st = Ok ds /\ NoDup (quad_set <$> ds).
Proof.
  revert st. induction pairs as [|[bond bend] pairs IH]; intros st Hinv.
  - exists st.1. split; [done |]. destruct Hinv as [<- Hnd]. done.
  - cbn [dihedral_loop].
    destruct (dihedral_candidate_total bond bend) as [[d|] ->]; simpl.
    + by apply IH, dihedral_accept_inv.
    + by apply IH.
Qed.

(** C5.  For every bond list and every angle list [get_dihedral_indices]
    returns a list of quadruples in which no two entries have the same set of
    four atoms; and a candidate whose atom set is already recorded leaves the
    lists of the loop unchanged. *)
Theorem get_dihedral_indices_unique_sets
    (bond_inds : list (nat * nat)) (bend_inds : list (nat * nat * nat)) :
  (exists ds, get_dihedral_indices bond_inds bend_inds = Ok ds /\
     NoDup (quad_set <$> ds) /\
     forall a b da db, ds !! a = Some da -> ds !! b = Some db -> a <> b ->
                       quad_set da <> quad_set db) /\
  (forall d inds sets, quad_set d ∈ sets ->
     dihedral_accept d (inds, sets) = (inds, sets)).
Proof.
  split; [| apply dihedral_accept_skip].
  destruct (dihedral_loop_inv (product bond_inds bend_inds) ([], []))
    as (ds & Hds & Hnd).
  { split; [done | constructor]. }
  exists ds. split; [exact Hds |]. split; [exact Hnd |].
  intros a b da db Ha Hb Hab Heq. apply Hab.
  eapply (NoDup_lookup _ a b (quad_set da) Hnd).
  - by rewrite list_lookup_fmap, Ha.
  - by rewrite list_lookup_fmap, Hb, Heq.
Qed.

Example get_dihedral_indices_chain :
  get_dihedral_indices [(0, 1); (1, 2); (2, 3)] [(2, 1, 0); (3, 2, 1)]
  = Ok [(3, 2, 1, 0)].
Proof. vm_compute. reflexivity. Qed.

(** ** Rows *)

Section RowFacts.
Context {F : Type} {SF : Scalar F}.

Lemma get_bond_B_Ok (geom : Geometry F) (n m : nat)
    (cs : list (vec3 F)) (cn cm : vec3 F) :
  reshape3 (coords geom) = Ok cs -> cs !! n = Some cn -> cs !! m = Some cm ->
  let bond_normed := vdivs (vsub cm cn) (vnorm (vsub cm cn)) in
  get_bond_B geom (n, m) =
    Ok (flatten (<[n := smulv (fneg f1) bond_normed]>
                   (<[m := smulv f1 bond_normed]> (zeros_like cs)))).
Proof.
  intros Hcs Hn%getitem_Ok Hm%getitem_Ok. unfold get_bond_B.
  rewrite Hcs. simpl. rewrite Hm. simpl. rewrite Hn. done.
Qed.

Lemma get_angle_B_Ok (geom : Geometry F) (m o n : nat)
    (cs : list (vec3 F)) (cm co cn : vec3 F) :
  reshape3 (coords geom) = Ok cs ->
  cs !! m = Some cm -> cs !! o = Some co -> cs !! n = Some cn ->
  let first_term := (angle_terms cm co cn).1 in
  let second_term := (angle_terms cm co cn).2 in
  get_angle_B geom (m, o, n) =
    Ok (flatten (<[n := second_term]>
                   (<[o := vsub (vneg first_term) second_term]>
                      (<[m := first_term]> (zeros_like cs))))).
Proof.
  intros Hcs Hm%getitem_Ok Ho%getitem_Ok Hn%getitem_Ok. unfold get_angle_B.
  rewrite Hcs. simpl. rewrite Hm. simpl. rewrite Ho. simpl. rewrite Hn. simpl.
  by destruct (angle_terms cm co cn).
Qed.

Lemma get_dihedral_B_Ok (geom : Geometry F) (m o p n : nat)
    (cs : list (vec3 F)) (cm co cp cn : vec3 F) :
  reshape3 (coords geom) = Ok cs ->
  cs !! m = Some cm -> cs !! o = Some co ->
  cs !! p = Some cp -> cs !! n = Some cn ->
  let t := dihedral_terms cm co cp cn in
  get_dihedral_B geom (m, o, p, n) =
    Ok (flatten (<[p := t.2]> (<[o := t.1.2]> (<[n := t.1.1.2]>
                   (<[m := t.1.1.1]> (zeros_like cs)))))).
Proof.
  intros Hcs Hm%getitem_Ok Ho%getitem_Ok Hp%getitem_Ok Hn%getitem_Ok.
  unfold get_dihedral_B.
  rewrite Hcs. simpl. rewrite Hm. simpl. rewrite Ho. simpl. rewrite Hn. simpl.
  rewrite Hp. simpl. by destruct (dihedral_terms cm co cp cn) as [[[? ?] ?] ?].
Qed.

(** Every row builder returns a row of [3N] entries when its indices are
    in range. *)
Lemma get_bond_B_total (geom : Geometry F) (cs : list (vec3 F)) (n m : nat) :
  reshape3 (coords geom) = Ok cs -> n < length cs -> m < length cs ->
  exists row, get_bond_B geom (n, m) = Ok row /\ length row = 3 * length cs.
Proof.
  intros Hcs [cn Hn]%lookup_lt_is_Some_2 [cm Hm]%lookup_lt_is_Some_2.
  eexists. split; [by eapply get_bond_B_Ok |].
  row_length.
Qed.

Lemma get_angle_B_total (geom : Geometry F) (cs : list (vec3 F)) (m o n : nat) :
  reshape3 (coords geom) = Ok cs ->
  m < length cs -> o < length cs -> n < length cs ->
  exists row, get_angle_B geom (m, o, n) = Ok row /\ length row = 3 * length cs.
Proof.
  intros Hcs [cm Hm]%lookup_lt_is_Some_2 [co Ho]%lookup_lt_is_Some_2
         [cn Hn]%lookup_lt_is_Some_2.
  eexists. split; [by eapply get_angle_B_Ok |].
  row_length.
Qed.

Lemma get_dihedral_B_total (geom : Geometry F) (cs : list (vec3 F)) (m o p n : nat) :
  reshape3 (coords geom) = Ok cs ->
  m < length cs -> o < length cs -> p < length cs -> n < length cs ->
  exists row, get_dihedral_B geom (m, o, p, n) = Ok row /\
              length row = 3 * length cs.
Proof.
  intros Hcs [cm Hm]%lookup_lt_is_Some_2 [co Ho]%lookup_lt_is_Some_2
         [cp Hp]%lookup_lt_is_Some_2 [cn Hn]%lookup_lt_is_Some_2.
  eexists. split; [by eapply get_dihedral_B_Ok |].
  row_length.
Qed.

Lemma dihedral_terms_noclamp_eq (cm co cp cn : vec3 F) :
  dihedral_terms_noclamp cm co cp cn = dihedral_terms cm co cp cn.
Proof. reflexivity. Qed.

End RowFacts.

(** C10.  The dihedral row does not depend on the dihedral angle: the
    builder without the computation of [cos_dihed], its clamping to
    [-1, 1] and the arccos returns the same result (the same row, or the
    same exception) for every geometry and every quadruple, whatever the
    scalar arithmetic is. *)
Theorem get_dihedral_B_noclamp_eq {F : Type} {SF : Scalar F}
    (geom : Geometry F) (dihedral_ind : quad) :
  get_dihedral_B_noclamp geom dihedral_ind = get_dihedral_B geom dihedral_ind.
Proof.
  unfold get_dihedral_B_noclamp, get_dihedral_B.
  destruct (reshape3 (coords geom)) as [cs|e]; [| done]. simpl.
  destruct dihedral_ind as [[[m o] p] n].
  destruct (getitem cs m) as [cm|]; [| done]. simpl.
  destruct (getitem cs o) as [co|]; [| done]. simpl.
  destruct (getitem cs n) as [cn|]; [| done]. simpl.
  destruct (getitem cs p) as [cp|]; [| done].
  change (dihedral_terms_noclamp cm co cp cn) with (dihedral_terms cm co cp cn).
  reflexivity.
Qed.

(** ** Real arithmetic *)

Local Open Scope R_scope.

Lemma sum_squares_zero (x y z : R) : x * x + y * y + z * z = 0 -> x = 0 /\ y = 0 /\ z = 0.
Proof.
  intros Hs. pose proof (Rle_0_sqr x) as Hx. pose proof (Rle_0_sqr y) as Hy.
  pose proof (Rle_0_sqr z) as Hz. unfold Rsqr in Hx, Hy, Hz.
  repeat split; apply Rsqr_0_uniq; unfold Rsqr; lra.
Qed.

Lemma vnorm_pos (a b : vec3 R) : a <> b -> 0 < vnorm (vsub a b).
Proof.
  destruct a as [[a1 a2] a3], b as [[b1 b2] b3]. intros Hne.
  unfold vnorm. simpl. apply sqrt_lt_R0.
  destruct (Rle_lt_dec ((a1 - b1) * (a1 - b1) + (a2 - b2) * (a2 - b2)
                        + (a3 - b3) * (a3 - b3)) 0) as [Hle|]; [| done].
  pose proof (Rle_0_sqr (a1 - b1)) as Hx. pose proof (Rle_0_sqr (a2 - b2)) as Hy.
  pose proof (Rle_0_sqr (a3 - b3)) as Hz. unfold Rsqr in Hx, Hy, Hz.
  destruct (sum_squares_zero (a1 - b1) (a2 - b2) (a3 - b3)) as (? & ? & ?); [lra |].
  destruct Hne. repeat f_equal; lra.
Qed.

Lemma vnorm_normed (a : vec3 R) : 0 < vnorm a -> vnorm (vdivs a (vnorm a)) = 1.
Proof.
  destruct a as [[x y] z]. unfold vnorm. simpl. intros Hpos.
  set (S := x * x + y * y + z * z) in *.
  assert (0 < S) as HS.
  { destruct (Rle_lt_dec S 0) as [Hle|]; [| done].
    rewrite (sqrt_neg_0 S Hle) in Hpos. lra. }
  assert (sqrt S * sqrt S = S) as Hsq by (apply sqrt_sqrt; lra).
  replace (x / sqrt S * (x / sqrt S) + y / sqrt S * (y / sqrt S)
           + z / sqrt S * (z / sqrt S)) with (S / (sqrt S * sqrt S)).
  - rewrite Hsq. replace (S / S) with 1; [apply sqrt_1 |]. field. lra.
  - set (s := sqrt S) in *. unfold S. field. lra.
Qed.

Lemma smulv_one (a : vec3 R) : smulv 1 a = a.
Proof. destruct a as [[x y] z]. simpl. repeat f_equal; lra. Qed.

Lemma smulv_minus_one (a : vec3 R) : smulv (- 1) a = vneg a.
Proof. destruct a as [[x y] z]. simpl. repeat f_equal; lra. Qed.

Lemma angle_blocks_sum (a b : vec3 R) :
  vadd (vadd a (vsub (vneg a) b)) b = vzero.
Proof.
  destruct a as [[a1 a2] a3], b as [[b1 b2] b3]. unfold vzero. simpl.
  repeat f_equal; lra.
Qed.

Lemma sum_of_blocks_3 (a b c : vec3 R) :
  sum_of_blocks [a; b; c] = vadd (vadd a b) c.
Proof.
  destruct a as [[a1 a2] a3], b as [[b1 b2] b3], c as [[c1 c2] c3].
  unfold sum_of_blocks. simpl. f_equal; [f_equal |]; lra.
Qed.

Lemma sum_of_blocks_4 (a b c d : vec3 R) :
  sum_of_blocks [a; b; c; d] = vadd (vadd (vadd a b) c) d.
Proof.
  destruct a as [[a1 a2] a3], b as [[b1 b2] b3], c as [[c1 c2] c3],
           d as [[d1 d2] d3].
  unfold sum_of_blocks. simpl. f_equal; [f_equal |]; lra.
Qed.

Lemma dihedral_blocks_sum (t1 t2 t3 : vec3 R) :
  vadd (vadd (vadd t1 (vadd (vneg t1) t3)) (vsub t2 t3)) (vneg t2) = vzero.
Proof.
  destruct t1 as [[a1 a2] a3], t2 as [[b1 b2] b3], t3 as [[c1 c2] c3].
  unfold vzero. simpl. repeat f_equal; lra.
Qed.

Local Close Scope R_scope.

Lemma unit_from_vdivs (a b : vec3 R) :
  vdivs (vsub b a) (vnorm (vsub b a)) = unit_from a b.
Proof. by destruct a as [[a1 a2] a3], b as [[b1 b2] b3]. Qed.

Lemma unit_from_opp (a b : vec3 R) :
  vneg (unit_from a b) =
  (let '(u1, u2, u3) := unit_from a b in (- u1, - u2, - u3)%R).
Proof. by destruct a as [[a1 a2] a3], b as [[b1 b2] b3]. Qed.

Lemma euclid_origin (u : vec3 R) : euclid u (0, 0, 0)%R = vnorm u.
Proof.
  destruct u as [[u1 u2] u3]. unfold euclid, vnorm. simpl. f_equal. ring.
Qed.

(** C6, as amended.  In exact real arithmetic: for a geometry in which the
    atoms [n] and [m] of a bond have distinct positions, [get_bond_B]
    returns a row of [3N] entries whose block at atom [m] is the unit vector
    [u] from [n] to [m] (the difference of the positions divided by their
    Euclidean distance; its Euclidean length is 1), whose block at atom [n]
    is [-u], and which is zero at every other atom.  [unit_from] and
    [euclid] are the statement's own definitions. *)
Theorem get_bond_B_unit_vectors (geom : Geometry R) (n m : nat)
    (cs : list (vec3 R)) (cn cm : vec3 R) :
  reshape3 (coords geom) = Ok cs ->
  cs !! n = Some cn -> cs !! m = Some cm -> cn <> cm ->
  exists row,
    get_bond_B geom (n, m) = Ok row /\
    length row = length (coords geom) /\
    length row = 3 * length cs /\
    block row m = Some (unit_from cn cm) /\
    block row n = Some (let '(u1, u2, u3) := unit_from cn cm in
                        (- u1, - u2, - u3)%R) /\
    euclid (unit_from cn cm) (0, 0, 0)%R = 1%R /\
    (forall a, a < length cs -> a <> m -> a <> n ->
               block row a = Some (0, 0, 0)%R) /\
    (forall k, k < length row -> k `div` 3 <> m -> k `div` 3 <> n ->
               row !! k = Some 0%R).
Proof.
  intros Hcs Hn Hm Hne.
  assert (n <> m) as Hnm by (intros ->; congruence).
  pose proof (lookup_lt_Some _ _ _ Hn) as Hnlt.
  pose proof (lookup_lt_Some _ _ _ Hm) as Hmlt.
  eexists. split; [by eapply get_bond_B_Ok |].
  change (@f1 R R_scalar) with 1%R. change (@fneg R R_scalar) with Ropp.
  rewrite smulv_one, smulv_minus_one, unit_from_vdivs.
  set (u := unit_from cn cm).
  assert (length (flatten (<[n:=vneg u]> (<[m:=u]> (zeros_like cs)))) = 3 * length cs)
    as Hlen by row_length.
  split; [by rewrite Hlen, (reshape3_length _ _ Hcs) |].
  split; [exact Hlen |].
  split; [| split; [| split; [| split]]].
  - rewrite block_flatten. lookup_written.
  - rewrite block_flatten. unfold u. rewrite <- unit_from_opp. lookup_written.
  - unfold u. rewrite euclid_origin, <- unit_from_vdivs.
    apply vnorm_normed, vnorm_pos. congruence.
  - intros a Ha Ham Han.
    rewrite block_flatten, !list_lookup_insert_ne by done.
    by apply (zeros_like_lookup (SF := R_scalar)).
  - intros k Hk Hkm Hkn. apply (lookup_flatten_zero (SF := R_scalar)).
    rewrite !list_lookup_insert_ne by done. apply zeros_like_lookup.
    rewrite Hlen in Hk. apply Nat.Div0.div_lt_upper_bound. lia.
Qed.

Lemma sqrt_1_0_0 : sqrt ((1 - 0) * (1 - 0) + (0 - 0) * (0 - 0) + (0 - 0) * (0 - 0)) = 1%R.
Proof.
  replace ((1 - 0) * (1 - 0) + (0 - 0) * (0 - 0) + (0 - 0) * (0 - 0))%R with 1%R by lra.
  apply sqrt_1.
Qed.

Lemma unit_from_345 : unit_from (0, 0, 0)%R (3, 4, 0)%R = (3 / 5, 4 / 5, 0)%R.
Proof.
  unfold unit_from, euclid.
  replace ((3 - 0) * (3 - 0) + (4 - 0) * (4 - 0) + (0 - 0) * (0 - 0))%R
    with (5 * 5)%R by lra.
  rewrite sqrt_square by lra. f_equal; [f_equal |]; lra.
Qed.

(** Two atoms at distance 5: the blocks are [(3/5, 4/5, 0)] and its
    negation. *)
Lemma get_bond_B_unit_vectors_witness :
  exists row,
    get_bond_B pair345 (0, 1) = Ok row /\
    length row = 6 /\
    block row 1 = Some (3 / 5, 4 / 5, 0)%R /\
    block row 0 = Some (- (3 / 5), - (4 / 5), - 0)%R /\
    euclid (3 / 5, 4 / 5, 0)%R (0, 0, 0)%R = 1%R.
Proof.
  destruct (get_bond_B_unit_vectors pair345 0 1 [(0, 0, 0); (3, 4, 0)]%R
              (0, 0, 0)%R (3, 4, 0)%R) as (row & Hrow & Hlen & _ & Hm & Hn & Hu & _);
    [reflexivity | reflexivity | reflexivity | intros [= ? ?]; lra |].
  rewrite unit_from_345 in Hm, Hn, Hu.
  exists row. split; [exact Hrow |]. split; [exact Hlen |].
  split; [exact Hm |]. split; [exact Hn | exact Hu].
Defined.

Lemma float_rows_of_bonds (acos_f sin_f cos_f : float -> float) :
  let x := 0x1.279a74590331dp-1%float in
  get_bond_B (SF := float_scalar acos_f sin_f cos_f) diag2_f (0, 1)
    = Ok [PrimFloat.opp x; PrimFloat.opp x; PrimFloat.opp x; x; x; x] /\
  get_bond_B (SF := float_scalar acos_f sin_f cos_f) far2_f (0, 1)
    = Ok [PrimFloat.opp 0; PrimFloat.opp 0; PrimFloat.opp 0; 0; 0; 0]%float.
Proof. split; vm_compute; reflexivity. Qed.

(** C6, as stated, fails in float64.  For two atoms at [(0, 0, 0)] and
    [(1, 1, 1)] the blocks are [(-x, -x, -x)] and [(x, x, x)] with
    [x = 0x1.279a74590331dp-1], the float64 nearest to [1 / sqrt 3]; the
    squared length [3 x^2] of such a block is not 1, since three times the
    square of an integer is no power of 2.  For two atoms [2^600] apart the
    squared distance overflows, the norm is infinite and the row is zero
    everywhere.  The results do not depend on arccos, sin and cos. *)
Lemma get_bond_B_float_not_unit :
  (exists x ux,
     (forall acos_f sin_f cos_f,
        get_bond_B (SF := float_scalar acos_f sin_f cos_f) diag2_f (0, 1)
        = Ok [PrimFloat.opp x; PrimFloat.opp x; PrimFloat.opp x; x; x; x]) /\
     float_units x = Some ux /\
     (ux * ux + ux * ux + ux * ux <> 2 ^ 1074 * 2 ^ 1074)%Z) /\
  (forall acos_f sin_f cos_f,
     get_bond_B (SF := float_scalar acos_f sin_f cos_f) far2_f (0, 1)
     = Ok [PrimFloat.opp 0; PrimFloat.opp 0; PrimFloat.opp 0; 0; 0; 0]%float).
Proof.
  split.
  - exists 0x1.279a74590331dp-1%float. eexists. split; [| split].
    + intros acos_f sin_f cos_f. apply (float_rows_of_bonds acos_f sin_f cos_f).
    + vm_compute. reflexivity.
    + vm_compute. discriminate.
  - intros acos_f sin_f cos_f. apply (float_rows_of_bonds acos_f sin_f cos_f).
Qed.

(** C2, as amended.  In exact real arithmetic: for an angle triple of
    distinct atoms whose legs have nonzero length and are not collinear, and
    whose vector [w_dash] is nonzero, the blocks of the row of [get_angle_B]
    at the two terminal atoms and at the central atom sum to the zero
    vector; for a dihedral quadruple of distinct atoms whose defining
    vectors have nonzero norms and whose angles [phi_u], [phi_v] have
    nonzero sines, the four blocks of the row of [get_dihedral_B] sum to the
    zero vector. *)
Theorem rows_blocks_sum_zero :
  (forall (geom : Geometry R) (m o n : nat) (cs : list (vec3 R)) (cm co cn : vec3 R),
     reshape3 (coords geom) = Ok cs ->
     cs !! m = Some cm -> cs !! o = Some co -> cs !! n = Some cn ->
     m <> o -> o <> n -> m <> n ->
     let u_dash := vsub cm co in
     let v_dash := vsub cn co in
     let u := vdivs u_dash (vnorm u_dash) in
     let v := vdivs v_dash (vnorm v_dash) in
     vnorm u_dash <> 0%R -> vnorm v_dash <> 0%R ->
     vnorm (vcross u v) <> 0%R ->
     vnorm (angle_w_dash u v) <> 0%R ->
     exists row bm bo bn,
       get_angle_B geom (m, o, n) = Ok row /\
       block row m = Some bm /\ block row o = Some bo /\ block row n = Some bn /\
       sum_of_blocks [bm; bo; bn] = (0, 0, 0)%R) /\
  (forall (geom : Geometry R) (m o p n : nat) (cs : list (vec3 R))
          (cm co cp cn : vec3 R),
     reshape3 (coords geom) = Ok cs ->
     cs !! m = Some cm -> cs !! o = Some co ->
     cs !! p = Some cp -> cs !! n = Some cn ->
     m <> o -> m <> p -> m <> n -> o <> p -> o <> n -> p <> n ->
     let u_dash := vsub cm co in
     let v_dash := vsub cn cp in
     let w_dash := vsub cp co in
     let u := vdivs u_dash (vnorm u_dash) in
     let v := vdivs v_dash (vnorm v_dash) in
     let w := vdivs w_dash (vnorm w_dash) in
     vnorm u_dash <> 0%R -> vnorm v_dash <> 0%R -> vnorm w_dash <> 0%R ->
     sin (acos (vdot u w)) <> 0%R -> sin (acos (vdot w v)) <> 0%R ->
     exists row bm bo bp bn,
       get_dihedral_B geom (m, o, p, n) = Ok row /\
       block row m = Some bm /\ block row o = Some bo /\
       block row p = Some bp /\ block row n = Some bn /\
       sum_of_blocks [bm; bo; bp; bn] = (0, 0, 0)%R).
Proof.
  split.
  - intros geom m o n cs cm co cn Hcs Hm Ho Hn Hmo Hon Hmn u_dash v_dash u v _ _ _ _.
    pose proof (lookup_lt_Some _ _ _ Hm). pose proof (lookup_lt_Some _ _ _ Ho).
    pose proof (lookup_lt_Some _ _ _ Hn).
    eexists _, _, _, _. split; [by eapply get_angle_B_Ok |].
    rewrite !block_flatten.
    split; [| split; [| split]].
    + lookup_written.
    + lookup_written.
    + lookup_written.
    + rewrite sum_of_blocks_3. apply angle_blocks_sum.
  - intros geom m o p n cs cm co cp cn Hcs Hm Ho Hp Hn Hmo Hmp Hmn Hop Hon Hpn
           u_dash v_dash w_dash u v w _ _ _ _ _.
    pose proof (lookup_lt_Some _ _ _ Hm). pose proof (lookup_lt_Some _ _ _ Ho).
    pose proof (lookup_lt_Some _ _ _ Hp). pose proof (lookup_lt_Some _ _ _ Hn).
    eexists _, _, _, _, _. split; [by eapply get_dihedral_B_Ok |].
    rewrite !block_flatten.
    split; [| split; [| split; [| split]]].
    + lookup_written.
    + lookup_written.
    + lookup_written.
    + lookup_written.
    + unfold dihedral_terms. cbv zeta. cbn [fst snd].
      rewrite sum_of_blocks_4. apply dihedral_blocks_sum.
Qed.

Lemma sqrt_0_1_0 : sqrt ((0 - 0) * (0 - 0) + (1 - 0) * (1 - 0) + (0 - 0) * (0 - 0)) = 1%R.
Proof.
  replace ((0 - 0) * (0 - 0) + (1 - 0) * (1 - 0) + (0 - 0) * (0 - 0))%R with 1%R by lra.
  apply sqrt_1.
Qed.

Lemma sqrt_0_0_1 : sqrt ((1 - 1) * (1 - 1) + (0 - 0) * (0 - 0) + (1 - 0) * (1 - 0)) = 1%R.
Proof.
  replace ((1 - 1) * (1 - 1) + (0 - 0) * (0 - 0) + (1 - 0) * (1 - 0))%R with 1%R by lra.
  apply sqrt_1.
Qed.

Lemma sin_acos_0 : sin (acos 0) <> 0%R.
Proof. rewrite acos_0, sin_PI2. lra. Qed.

Lemma not_parallel_orthogonal (u v : vec3 R) : vdot u v = 0%R -> are_parallel u v = false.
Proof.
  intros Huv. unfold are_parallel. rewrite Huv. simpl.
  apply bool_decide_eq_false. rewrite acos_0.
  pose proof PI2_1. rewrite Rabs_right; lra.
Qed.

Lemma rows_blocks_sum_zero_witness :
  (exists row bm bo bn,
     get_angle_B bent3 (1, 0, 2) = Ok row /\
     block row 1 = Some bm /\ block row 0 = Some bo /\ block row 2 = Some bn /\
     sum_of_blocks [bm; bo; bn] = (0, 0, 0)%R) /\
  (exists row bm bo bp bn,
     get_dihedral_B twisted4 (0, 1, 2, 3) = Ok row /\
     block row 0 = Some bm /\ block row 1 = Some bo /\
     block row 2 = Some bp /\ block row 3 = Some bn /\
     sum_of_blocks [bm; bo; bp; bn] = (0, 0, 0)%R).
Proof.
  split.
  - apply (proj1 rows_blocks_sum_zero bent3 1 0 2
             [(0, 0, 0); (1, 0, 0); (0, 1, 0)]%R (1, 0, 0)%R (0, 0, 0)%R (0, 1, 0)%R);
      try reflexivity; try lia.
    + apply Rgt_not_eq, Rlt_gt, vnorm_pos. intros [= ?]. lra.
    + apply Rgt_not_eq, Rlt_gt, vnorm_pos. intros [= ?]. lra.
    + unfold vnorm, vsub, vdot, vdivs, vcross. simpl.
      rewrite sqrt_1_0_0, sqrt_0_1_0.
      replace (_ + _ + _)%R with 1%R by lra. rewrite sqrt_1. lra.
    + unfold angle_w_dash. rewrite not_parallel_orthogonal.
      * unfold vnorm, vsub, vdot, vdivs, vcross. simpl.
        rewrite sqrt_1_0_0, sqrt_0_1_0.
        replace (_ + _ + _)%R with 1%R by lra. rewrite sqrt_1. lra.
      * unfold vnorm, vsub, vdot, vdivs. simpl. lra.
  - apply (proj2 rows_blocks_sum_zero twisted4 0 1 2 3
             [(0, 1, 0); (0, 0, 0); (1, 0, 0); (1, 0, 1)]%R
             (0, 1, 0)%R (0, 0, 0)%R (1, 0, 0)%R (1, 0, 1)%R);
      try reflexivity; try lia.
    + apply Rgt_not_eq, Rlt_gt, vnorm_pos. intros [= ?]. lra.
    + apply Rgt_not_eq, Rlt_gt, vnorm_pos. intros [= ?]. lra.
    + apply Rgt_not_eq, Rlt_gt, vnorm_pos. intros [= ?]. lra.
    + replace (vdot _ _) with 0%R; [apply sin_acos_0 |].
      unfold vnorm, vsub, vdot, vdivs. simpl. lra.
    + replace (vdot _ _) with 0%R; [apply sin_acos_0 |].
      unfold vnorm, vsub, vdot, vdivs. simpl. lra.
Defined.

(** The angle row of [skew3_f] in float64, when arccos puts the legs in the
    generic branch. *)
Lemma float_row_of_angle (acos_f sin_f cos_f : float -> float) :
  let a := 0x1.6a09e667f3bccp-1%float in
  let c := 0x1.fffffffffffffp-2%float in
  are_parallel (SF := float_scalar acos_f sin_f cos_f) (1, 0, 0)%float (a, a, 0)%float
    = false ->
  get_angle_B (SF := float_scalar acos_f sin_f cos_f) skew3_f (0, 1, 2)
    = Ok [0; -1; 0;  c; 0x1p-1; PrimFloat.opp 0;  PrimFloat.opp c; c; 0]%float.
Proof.
  intros a c Hpar.
  rewrite (get_angle_B_Ok (SF := float_scalar acos_f sin_f cos_f) skew3_f 0 1 2
             [(1, 0, 0); (0, 0, 0); (1, 1, 0)]%float
             (1, 0, 0)%float (0, 0, 0)%float (1, 1, 0)%float);
    try reflexivity.
  cbv zeta. unfold angle_terms. cbv zeta. cbn [fst snd].
  assert (vdivs (SF := float_scalar acos_f sin_f cos_f)
            (vsub (1, 0, 0)%float (0, 0, 0)%float)
            (vnorm (vsub (1, 0, 0)%float (0, 0, 0)%float)) = (1, 0, 0)%float) as ->
    by (vm_compute; reflexivity).
  assert (vdivs (SF := float_scalar acos_f sin_f cos_f)
            (vsub (1, 1, 0)%float (0, 0, 0)%float)
            (vnorm (vsub (1, 1, 0)%float (0, 0, 0)%float)) = (a, a, 0)%float) as ->
    by (vm_compute; reflexivity).
  unfold angle_w_dash. rewrite Hpar. vm_compute. reflexivity.
Qed.

(** C2, as stated, fails in float64.  Three atoms at [(1, 0, 0)],
    [(0, 0, 0)] and [(1, 1, 0)], with the angle of 45 degrees at the second:
    all norms are nonzero, and for every arccos that does not put the two
    legs within [1e-6] of the straight angle, the row is the one given.  Its
    blocks are [(0, -1, 0)], [(c, 1/2, -0)] and [(-c, c, 0)] with
    [c = 0x1.fffffffffffffp-2 = 1/2 - 2^-54]: the middle block holds the
    rounded value of [1 - c], and the second entries sum to [-2^-54], not
    to zero. *)
Lemma get_angle_B_float_blocks :
  exists (c : float) (um uo un : Z),
    (forall acos_f sin_f cos_f,
       are_parallel (SF := float_scalar acos_f sin_f cos_f)
         (1, 0, 0)%float (0x1.6a09e667f3bccp-1, 0x1.6a09e667f3bccp-1, 0)%float
         = false ->
       get_angle_B (SF := float_scalar acos_f sin_f cos_f) skew3_f (0, 1, 2)
       = Ok [0; -1; 0;  c; 0x1p-1; PrimFloat.opp 0;  PrimFloat.opp c; c; 0]%float) /\
    float_units (-1) = Some um /\ float_units 0x1p-1 = Some uo /\
    float_units c = Some un /\
    (um + uo + un = - 2 ^ (1074 - 54))%Z /\ (um + uo + un <> 0)%Z.
Proof.
  exists 0x1.fffffffffffffp-2%float. eexists _, _, _.
  split; [| split; [| split; [| split; [| split]]]].
  - intros acos_f sin_f cos_f. apply (float_row_of_angle acos_f sin_f cos_f).
  - vm_compute. reflexivity.
  - vm_compute. reflexivity.
  - vm_compute. reflexivity.
  - vm_compute. reflexivity.
  - vm_compute. discriminate.
Qed.

(** ** The pipeline *)

Lemma dihedral_candidate_sub (bond : nat * nat) (bend : nat * nat * nat) (d : quad) :
  dihedral_candidate bond bend = Ok (Some d) ->
  quad_set d ⊆ pair_set bond ∪ triple_set bend.
Proof.
  destruct bend as [[bend0 central] bend2], bond as [b1 b2].
  unfold dihedral_candidate, pair_index, pair_set, triple_set, quad_set. simpl.
  destruct (decide _); [| done].
  destruct (elements _) as [|x [|]]; try done.
  destruct (decide (b1 = x)); simpl.
  - destruct (decide (x = bend0)); intros [= <-]; set_solver.
  - destruct (decide (b2 = x)); simpl; [| done].
    destruct (decide (x = bend0)); intros [= <-]; set_solver.
Qed.

Lemma dihedral_loop_Forall (P : quad -> Prop)
    (pairs : list ((nat * nat) * (nat * nat * nat)))
    (st : list quad * list (gset nat)) (ds : list quad) :
  (forall bond bend d, (bond, bend) ∈ pairs ->
     dihedral_candidate bond bend = Ok (Some d) -> P d) ->
  Forall P st.1 -> dihedral_loop pairs st = Ok ds -> Forall P ds.
Proof.
  revert st. induction pairs as [|[bond bend] pairs IH]; intros st Hc Hst.
  - simpl. by intros [= <-].
  - cbn [dihedral_loop]. intros (c & Hcand & Hloop)%bind_Ok.
    assert (forall bond bend d, (bond, bend) ∈ pairs ->
              dihedral_candidate bond bend = Ok (Some d) -> P d) as Hc'.
    { intros ??? Hin. apply Hc. by apply list_elem_of_further. }
    destruct c as [d|]; [| by eapply IH].
    eapply IH; [done | | done].
    destruct st as [inds sets]. unfold dihedral_accept.
    destruct (decide _); [| done]. simpl. apply Forall_app. split; [done |].
    apply Forall_singleton. eapply Hc; [apply list_elem_of_here | done].
Qed.

Section AssemblerFacts.
Context {F : Type} {SF : Scalar F}.

Lemma get_bond_indices_range (CR : gmap string F) (geom : Geometry F) (factor : F)
    (bonds : list (nat * nat)) :
  get_bond_indices CR geom factor = Ok bonds ->
  exists cs, reshape3 (coords geom) = Ok cs /\
    forall b, b ∈ bonds -> b.1 < b.2 /\ b.2 < length cs.
Proof.
  intros (cs & sums & Hcs & Hsums & -> & _)%get_bond_indices_Ok.
  exists cs. split; [done |]. intros [i j] Hin.
  apply (select_bonds_spec CR geom factor cs sums i j Hsums) in Hin
    as (Hlt & ci & cj & s & Hi & Hj & _).
  split; [done |]. by eapply lookup_lt_Some.
Qed.

Lemma get_bond_B_length (geom : Geometry F) (cs : list (vec3 F))
    (ind : nat * nat) (row : list F) :
  reshape3 (coords geom) = Ok cs -> get_bond_B geom ind = Ok row ->
  length row = 3 * length cs.
Proof.
  intros Hcs. destruct ind as [n m]. unfold get_bond_B. rewrite Hcs. simpl.
  intros (cm & Hm & (cn & Hn & [= <-])%bind_Ok)%bind_Ok.
  row_length.
Qed.

Lemma get_angle_B_length (geom : Geometry F) (cs : list (vec3 F))
    (ind : nat * nat * nat) (row : list F) :
  reshape3 (coords geom) = Ok cs -> get_angle_B geom ind = Ok row ->
  length row = 3 * length cs.
Proof.
  intros Hcs. destruct ind as [[m o] n]. unfold get_angle_B. rewrite Hcs. simpl.
  intros (cm & Hm & (co & Ho & (cn & Hn & Hrow)%bind_Ok)%bind_Ok)%bind_Ok.
  destruct (angle_terms cm co cn). injection Hrow as <-.
  row_length.
Qed.

Lemma get_dihedral_B_length (geom : Geometry F) (cs : list (vec3 F))
    (ind : quad) (row : list F) :
  reshape3 (coords geom) = Ok cs -> get_dihedral_B geom ind = Ok row ->
  length row = 3 * length cs.
Proof.
  intros Hcs. destruct ind as [[[m o] p] n]. unfold get_dihedral_B.
  rewrite Hcs. simpl.
  intros (cm & Hm & (co & Ho & (cn & Hn & (cp & Hp & Hrow)%bind_Ok)%bind_Ok)%bind_Ok)%bind_Ok.
  destruct (dihedral_terms cm co cp cn) as [[[? ?] ?] ?]. injection Hrow as <-.
  row_length.
Qed.

End AssemblerFacts.

Lemma bending_indices_atoms (P : nat -> Prop) (bonds : list (nat * nat)) :
  (forall b, b ∈ bonds -> b.1 <> b.2) ->
  (forall b, b ∈ bonds -> P b.1 /\ P b.2) ->
  exists bends, get_bending_indices bonds = Ok bends /\
    forall t, t ∈ bends -> atoms_sat P (triple_set t).
Proof.
  intros Hne Hb.
  destruct (get_bending_indices_pairs bonds Hne)
    as (pairs & triples & Hok & Hf & _ & Hin & _).
  exists triples. split; [done |]. intros t [k Hk]%list_elem_of_lookup.
  destruct (Forall2_lookup_r _ _ _ _ _ Hf Hk) as ([s1 s2] & Hp & Ha).
  apply list_elem_of_lookup_2, Hin in Hp as (H1 & H2 & _).
  apply elem_of_bond_sets_of in H1 as (b1 & Hb1 & ->).
  apply elem_of_bond_sets_of in H2 as (b2 & Hb2 & ->).
  destruct t as [[t1 c] t2]. unfold angle_of in Ha. simpl in Ha.
  destruct Ha as (Hc & Ht & _).
  assert (atoms_sat P (pair_set b1 ∪ pair_set b2)) as Hsat.
  { intros x [Hx | Hx]%elem_of_union; unfold pair_set in Hx;
      apply elem_of_union in Hx as [->%elem_of_singleton | ->%elem_of_singleton].
    - by apply Hb in Hb1 as [? ?].
    - by apply Hb in Hb1 as [? ?].
    - by apply Hb in Hb2 as [? ?].
    - by apply Hb in Hb2 as [? ?]. }
  intros x Hx. apply Hsat. unfold triple_set in Hx.
  apply elem_of_union in Hx as [[Hx | Hx]%elem_of_union | Hx].
  - assert (x ∈ (pair_set b1 ∪ pair_set b2) ∖ {[c]}) as Hx'
      by (rewrite Ht; by apply elem_of_union_l).
    by apply elem_of_difference in Hx' as [? _].
  - assert (x ∈ pair_set b1 ∩ pair_set b2) as Hx' by (by rewrite Hc).
    apply elem_of_intersection in Hx' as [? _]. by apply elem_of_union_l.
  - assert (x ∈ (pair_set b1 ∪ pair_set b2) ∖ {[c]}) as Hx'
      by (rewrite Ht; by apply elem_of_union_r).
    by apply elem_of_difference in Hx' as [? _].
Qed.

Lemma dihedral_indices_atoms (P : nat -> Prop) (bonds : list (nat * nat))
    (bends : list (nat * nat * nat)) :
  (forall b, b ∈ bonds -> P b.1 /\ P b.2) ->
  (forall t, t ∈ bends -> atoms_sat P (triple_set t)) ->
  exists ds, get_dihedral_indices bonds bends = Ok ds /\
    forall d, d ∈ ds -> atoms_sat P (quad_set d).
Proof.
  intros Hb Ht.
  destruct (dihedral_loop_inv (product bonds bends) ([], [])) as (ds & Hds & _);
    [split; [done | constructor] |].
  exists ds. split; [done |]. apply Forall_forall.
  eapply dihedral_loop_Forall; [| | exact Hds]; [| by constructor].
  intros bond bend d [Hbond Hbend]%elem_of_product Hsub%dihedral_candidate_sub x Hx.
  apply Hsub, elem_of_union in Hx as [Hx | Hx]; [| by eapply Ht].
  unfold pair_set in Hx. apply Hb in Hbond as [? ?].
  by apply elem_of_union in Hx as [->%elem_of_singleton | ->%elem_of_singleton].
Qed.

Section PipelineFacts.
Context {F : Type} {SF : Scalar F}.

(** What [get_B_mat] returns once bond detection has succeeded: the
    generators and all row builders succeed too. *)
Lemma get_B_mat_rows (CR : gmap string F) (geom : Geometry F)
    (bond_inds : list (nat * nat)) :
  get_bond_indices CR geom f_1_3 = Ok bond_inds ->
  exists cs bend_inds dihedral_inds bond_rows bend_rows dihed_rows,
    reshape3 (coords geom) = Ok cs /\
    get_bending_indices bond_inds = Ok bend_inds /\
    get_dihedral_indices bond_inds bend_inds = Ok dihedral_inds /\
    Forall2 (fun ind row => get_bond_B geom ind = Ok row) bond_inds bond_rows /\
    Forall2 (fun ind row => get_angle_B geom ind = Ok row) bend_inds bend_rows /\
    Forall2 (fun ind row => get_dihedral_B geom ind = Ok row)
            dihedral_inds dihed_rows /\
    get_B_mat CR geom = Ok (bond_rows ++ bend_rows ++ dihed_rows) /\
    length (bond_rows ++ bend_rows ++ dihed_rows)
      = length bond_inds + length bend_inds + length dihedral_inds /\
    Forall (fun row => length row = 3 * length cs)
           (bond_rows ++ bend_rows ++ dihed_rows).
Proof.
  intros Hbonds.
  destruct (get_bond_indices_range CR geom f_1_3 bond_inds Hbonds) as (cs & Hcs & Hb).
  destruct (bending_indices_atoms (fun x => x < length cs) bond_inds)
    as (bend_inds & Hbend & Ht).
  { intros b [? ?]%Hb. lia. }
  { intros b [? ?]%Hb. lia. }
  destruct (dihedral_indices_atoms (fun x => x < length cs) bond_inds bend_inds)
    as (dihedral_inds & Hdih & Hd); [| done |].
  { intros b [? ?]%Hb. lia. }
  destruct (for_each_total (get_bond_B geom) bond_inds) as [bond_rows Hbr].
  { apply Forall_forall. intros [n m] [? ?]%Hb. simpl in *.
    destruct (get_bond_B_total geom cs n m) as (row & ? & _); [done | lia | lia |].
    by exists row. }
  destruct (for_each_total (get_angle_B geom) bend_inds) as [bend_rows Har].
  { apply Forall_forall. intros [[m o] n] Hin%Ht.
    destruct (get_angle_B_total geom cs m o n) as (row & ? & _); [done | | | |];
      [apply Hin; unfold triple_set; set_solver.. |].
    by exists row. }
  destruct (for_each_total (get_dihedral_B geom) dihedral_inds) as [dihed_rows Hdr].
  { apply Forall_forall. intros [[[m o] p] n] Hin%Hd.
    destruct (get_dihedral_B_total geom cs m o p n) as (row & ? & _); [done | | | | |];
      [apply Hin; unfold quad_set; set_solver.. |].
    by exists row. }
  exists cs, bend_inds, dihedral_inds, bond_rows, bend_rows, dihed_rows.
  pose proof (proj1 (for_each_Ok _ _ _) Hbr) as Hbr2.
  pose proof (proj1 (for_each_Ok _ _ _) Har) as Har2.
  pose proof (proj1 (for_each_Ok _ _ _) Hdr) as Hdr2.
  repeat (split; [done |]). split; [| split].
  - unfold get_B_mat. rewrite Hbonds. simpl. rewrite Hbend. simpl.
    rewrite Hdih. simpl. rewrite Hbr. simpl. rewrite Har. simpl. by rewrite Hdr.
  - rewrite !length_app.
    pose proof (Forall2_length _ _ _ Hbr2). pose proof (Forall2_length _ _ _ Har2).
    pose proof (Forall2_length _ _ _ Hdr2). lia.
  - rewrite !Forall_app. repeat split; apply Forall_forall;
      intros row [i Hrow]%list_elem_of_lookup.
    + apply (Forall2_lookup_r _ _ _ _ _ Hbr2) in Hrow as (ind & _ & Hrow).
      by eapply get_bond_B_length.
    + apply (Forall2_lookup_r _ _ _ _ _ Har2) in Hrow as (ind & _ & Hrow).
      by eapply get_angle_B_length.
    + apply (Forall2_lookup_r _ _ _ _ _ Hdr2) in Hrow as (ind & _ & Hrow).
      by eapply get_dihedral_B_length.
Qed.

(** C9.  A matrix returned by [get_B_mat] is the rows of all bonds, then
    the rows of all angles, then the rows of all dihedrals, each group in
    the order in which its indices were generated; it has as many rows as
    there are bonds, angles and dihedrals together, and every row has [3N]
    entries, [N] being the number of atoms.  And a matrix is returned
    whenever bond detection succeeds. *)
Theorem get_B_mat_stack (CR : gmap string F) (geom : Geometry F) :
  (forall B, get_B_mat CR geom = Ok B ->
     exists cs bond_inds bend_inds dihedral_inds bond_rows bend_rows dihed_rows,
       reshape3 (coords geom) = Ok cs /\
       get_bond_indices CR geom f_1_3 = Ok bond_inds /\
       get_bending_indices bond_inds = Ok bend_inds /\
       get_dihedral_indices bond_inds bend_inds = Ok dihedral_inds /\
       Forall2 (fun ind row => get_bond_B geom ind = Ok row) bond_inds bond_rows /\
       Forall2 (fun ind row => get_angle_B geom ind = Ok row) bend_inds bend_rows /\
       Forall2 (fun ind row => get_dihedral_B geom ind = Ok row)
               dihedral_inds dihed_rows /\
       B = bond_rows ++ bend_rows ++ dihed_rows /\
       length B = length bond_inds + length bend_inds + length dihedral_inds /\
       Forall (fun row => length row = 3 * length cs) B) /\
  (forall bond_inds, get_bond_indices CR geom f_1_3 = Ok bond_inds ->
     exists B, get_B_mat CR geom = Ok B).
Proof.
  split.
  - intros B HB.
    destruct (get_bond_indices CR geom f_1_3) as [bond_inds|e] eqn:Hbonds;
      [| by unfold get_B_mat in HB; rewrite Hbonds in HB].
    destruct (get_B_mat_rows CR geom bond_inds Hbonds)
      as (cs & bend_inds & dihedral_inds & bond_rows & bend_rows & dihed_rows
          & Hcs & Hbend & Hdih & Hbr & Har & Hdr & Hmat & Hlen & Hrows).
    rewrite Hmat in HB. injection HB as <-.
    by exists cs, bond_inds, bend_inds, dihedral_inds, bond_rows, bend_rows, dihed_rows.
  - intros bond_inds Hbonds.
    destruct (get_B_mat_rows CR geom bond_inds Hbonds)
      as (cs & bend_inds & dihedral_inds & bond_rows & bend_rows & dihed_rows
          & _ & _ & _ & _ & _ & _ & Hmat & _).
    by eexists.
Qed.

(** C7, as amended.  In a geometry of at least two atoms, each with a
    symbol, if the lower-cased symbol of some atom has no entry in the
    radius table then bond detection raises [KeyError] and so does
    [get_B_mat]: no row is built. *)
Theorem unknown_element_aborts (CR : gmap string F) (geom : Geometry F)
    (factor : F) (cs : list (vec3 F)) (k : nat) (a : string) :
  reshape3 (coords geom) = Ok cs ->
  2 <= length cs -> length cs <= length (atoms geom) ->
  k < length cs -> atoms geom !! k = Some a -> CR !! lower a = None ->
  get_bond_indices CR geom factor = Raise KeyError /\
  get_B_mat CR geom = Raise KeyError.
Proof.
  intros Hcs HN Hat Hk Ha Hnone.
  assert (forall fac, for_each (cov_rad_sum CR geom fac)
            (combinations2 (seq 0 (length cs))) = Raise KeyError) as Hloop.
  { intros fac. apply for_each_Raise_all.
    - intros [i j] (p & q & Hpq & Hp & Hq)%elem_of_combinations2.
      apply lookup_seq in Hp as [-> ?]. apply lookup_seq in Hq as [-> ?].
      simpl in *. unfold cov_rad_sum, CR_lookup. simpl.
      destruct (getitem_lt (atoms geom) p) as (ai & -> & _); [lia |].
      destruct (getitem_lt (atoms geom) q) as (aj & -> & _); [lia |]. simpl.
      destruct (CR !! lower ai); simpl; [| by right].
      destruct (CR !! lower aj); simpl; [left; by eexists | by right].
    - assert (exists i j, i < j /\ j < length cs /\ (i = k \/ j = k))
        as (i & j & Hij & Hj & Hk').
      { destruct k as [|k']; [exists 0, 1 | exists 0, (S k')]; lia. }
      exists (i, j). split.
      + apply elem_of_combinations2. exists i, j. split; [done |].
        split; apply lookup_seq; simpl; lia.
      + unfold cov_rad_sum, CR_lookup. simpl.
        destruct (getitem_lt (atoms geom) i) as (ai & -> & Hai); [lia |].
        destruct (getitem_lt (atoms geom) j) as (aj & -> & Haj); [lia |]. simpl.
        destruct Hk' as [-> | ->].
        * replace ai with a by congruence. by rewrite Hnone.
        * replace aj with a by congruence. rewrite Hnone.
          by destruct (CR !! lower ai). }
  assert (forall fac, get_bond_indices CR geom fac = Raise KeyError) as Hget.
  { intros fac. unfold get_bond_indices. rewrite Hcs. simpl. by rewrite Hloop. }
  split; [apply Hget |]. unfold get_B_mat. by rewrite Hget.
Qed.

(** Without any bond, [make_fragments] pops from an empty list. *)
Lemma get_bond_indices_no_bond (CR : gmap string F) (geom : Geometry F)
    (factor : F) (cs : list (vec3 F)) (sums : list F) :
  reshape3 (coords geom) = Ok cs ->
  for_each (cov_rad_sum CR geom factor) (combinations2 (seq 0 (length cs))) = Ok sums ->
  select_bonds (combinations2 (seq 0 (length cs))) (pdist cs) sums = [] ->
  get_bond_indices CR geom factor = Raise IndexError.
Proof.
  intros Hcs Hsums Hsel. unfold get_bond_indices.
  rewrite Hcs. simpl. rewrite Hsums. simpl. by rewrite Hsel.
Qed.

End PipelineFacts.

Lemma get_B_mat_stack_witness :
  exists B, get_B_mat CR_example h2 = Ok B /\
            length B = 1 /\ Forall (fun row => length row = 6) B.
Proof.
  destruct (proj2 (get_B_mat_stack CR_example h2) [(0, 1)] h2_bonds) as [B HB].
  destruct (proj1 (get_B_mat_stack CR_example h2) B HB)
    as (cs & bond_inds & bend_inds & dihedral_inds & bond_rows & bend_rows
        & dihed_rows & Hcs & Hbonds & Hbend & Hdih & _ & _ & _ & _ & Hlen & Hrows).
  change (@f_1_3 R R_scalar) with (13 / 10)%R in Hbonds.
  rewrite h2_bonds in Hbonds. injection Hbonds as <-.
  injection Hcs as <-.
  assert (get_bending_indices [(0, 1)] = Ok []) as Hb0 by (vm_compute; reflexivity).
  rewrite Hb0 in Hbend. injection Hbend as <-.
  assert (get_dihedral_indices [(0, 1)] [] = Ok []) as Hd0 by reflexivity.
  rewrite Hd0 in Hdih. injection Hdih as <-.
  exists B. split; [exact HB |]. split; [exact Hlen | exact Hrows].
Defined.

Lemma unknown_element_aborts_witness :
  get_bond_indices CR_example pair_unknown (13 / 10)%R = Raise KeyError /\
  get_B_mat CR_example pair_unknown = Raise KeyError.
Proof.
  apply (unknown_element_aborts CR_example pair_unknown (13 / 10)%R
           [(0, 0, 0); (1, 0, 0)]%R 1 "Xx");
    [reflexivity | simpl; lia | simpl; lia | simpl; lia | reflexivity | reflexivity].
Defined.

(** C7, as stated, fails: a geometry of a single atom has no atom pair, so
    the radius of its unknown element is never looked up, and bond detection
    ends with the [IndexError] of [make_fragments] instead. *)
Lemma unknown_element_lone_atom :
  atoms lone_unknown !! 0 = Some "Xx" /\
  CR_example !! lower "Xx" = None /\
  get_bond_indices CR_example lone_unknown (13 / 10)%R = Raise IndexError /\
  get_bond_indices CR_example lone_unknown (13 / 10)%R <> Raise KeyError.
Proof.
  assert (get_bond_indices CR_example lone_unknown (13 / 10)%R = Raise IndexError) as Hr
    by reflexivity.
  repeat split; try reflexivity. by rewrite Hr.
Qed.

(** C8.  Two atoms that are farther apart than the bonding threshold: both
    are isolated, there is no bond, and [make_fragments] pops from an empty
    list; bond detection and the whole pipeline end with [IndexError]
    instead of returning empty coordinate sets. *)
Theorem isolated_atoms_abort :
  euclid (0, 0, 0)%R (3, 0, 0)%R = 3%R /\
  (13 / 10 * (1 / 2 + 1 / 2) < 3)%R /\
  get_bond_indices CR_example far_pair (13 / 10)%R = Raise IndexError /\
  get_B_mat CR_example far_pair = Raise IndexError.
Proof.
  assert (euclid (0, 0, 0)%R (3, 0, 0)%R = 3%R) as Hd.
  { unfold euclid.
    replace ((0 - 3) * (0 - 3) + (0 - 0) * (0 - 0) + (0 - 0) * (0 - 0))%R
      with (3 * 3)%R by lra.
    apply sqrt_square. lra. }
  assert (get_bond_indices CR_example far_pair (13 / 10)%R = Raise IndexError) as Hb.
  { apply (get_bond_indices_no_bond CR_example far_pair (13 / 10)%R
             [(0, 0, 0); (3, 0, 0)]%R [(13 / 10 * (1 / 2 + 1 / 2))%R]);
      [reflexivity | reflexivity |].
    unfold pdist. cbn [combinations2 fmap list_fmap app seq length select_bonds fst snd].
    rewrite vnorm_vsub_euclid, Hd.
    change (fle 3%R (13 / 10 * (1 / 2 + 1 / 2))%R)
      with (bool_decide (3 <= 13 / 10 * (1 / 2 + 1 / 2))%R).
    rewrite bool_decide_false; [done | lra]. }
  split; [exact Hd |]. split; [lra |]. split; [exact Hb |].
  unfold get_B_mat. change (@f_1_3 R R_scalar) with (13 / 10)%R. by rewrite Hb.
Qed.

(** When the pipeline does return, an atom that is in no bond is in no
    angle, no dihedral and no fragment. *)
Lemma unbonded_atom_excluded {F : Type} {SF : Scalar F} (CR : gmap string F)
    (geom : Geometry F) (factor : F) (bonds : list (nat * nat)) (a : nat) :
  get_bond_indices CR geom factor = Ok bonds ->
  (forall b, b ∈ bonds -> b.1 <> a /\ b.2 <> a) ->
  exists bends ds frs,
    get_bending_indices bonds = Ok bends /\
    get_dihedral_indices bonds bends = Ok ds /\
    make_fragments bonds = Ok frs /\
    (forall t, t ∈ bends -> a ∉ triple_set t) /\
    (forall d, d ∈ ds -> a ∉ quad_set d) /\
    (forall f, f ∈ frs -> a ∉ f).
Proof.
  intros Hbonds Ha.
  destruct (get_bond_indices_range CR geom factor bonds Hbonds) as (cs & _ & Hb).
  destruct (bending_indices_atoms (fun x => x <> a) bonds) as (bends & Hbend & Ht);
    [intros b [? ?]%Hb; lia | done |].
  destruct (dihedral_indices_atoms (fun x => x <> a) bonds bends Ha Ht)
    as (ds & Hds & Hd).
  apply get_bond_indices_Ok in Hbonds as (_ & _ & _ & _ & _ & Hne).
  destruct (make_fragments_total bonds Hne) as [frs Hfrs].
  exists bends, ds, frs. repeat (split; [done |]). split; [| split].
  - intros t Hin Hat. by apply (Ht t Hin a).
  - intros d Hin Had. by apply (Hd d Hin a).
  - intros f Hin Haf.
    by apply (make_fragments_atoms (fun x => x <> a) bonds frs Hfrs Ha f Hin a).
Qed.

(** The same for an isolated atom [a]: one whose distance to every other
    atom fails the test of bond detection. *)
Lemma isolated_atom_excluded {F : Type} {SF : Scalar F} (CR : gmap string F)
    (geom : Geometry F) (factor : F) (bonds : list (nat * nat))
    (cs : list (vec3 F)) (a : nat) :
  get_bond_indices CR geom factor = Ok bonds ->
  reshape3 (coords geom) = Ok cs ->
  (forall i j ci cj ai aj ri rj,
     i < j -> i = a \/ j = a ->
     cs !! i = Some ci -> cs !! j = Some cj ->
     atoms geom !! i = Some ai -> atoms geom !! j = Some aj ->
     CR !! lower ai = Some ri -> CR !! lower aj = Some rj ->
     fle (vnorm (vsub ci cj)) (fmul factor (fadd ri rj)) = false) ->
  (forall b, b ∈ bonds -> b.1 <> a /\ b.2 <> a) /\
  exists bends ds frs,
    get_bending_indices bonds = Ok bends /\
    get_dihedral_indices bonds bends = Ok ds /\
    make_fragments bonds = Ok frs /\
    (forall t, t ∈ bends -> a ∉ triple_set t) /\
    (forall d, d ∈ ds -> a ∉ quad_set d) /\
    (forall f, f ∈ frs -> a ∉ f).
Proof.
  intros Hbonds Hcs Hiso.
  assert (forall b, b ∈ bonds -> b.1 <> a /\ b.2 <> a) as Hno.
  { destruct (get_bond_indices_pairs CR geom factor bonds Hbonds)
      as (cs' & Hcs' & Hchar & _).
    assert (cs' = cs) as -> by congruence.
    intros [i j] (Hlt & ci & cj & ai & aj & ri & rj & ? & ? & ? & ? & ? & ? & Hle)%Hchar.
    simpl. destruct (decide (i = a)) as [Hi|Hi]; [| destruct (decide (j = a)) as [Hj|Hj]];
      [| | done].
    - rewrite (Hiso i j ci cj ai aj ri rj) in Hle; [done | done | by left | done..].
    - rewrite (Hiso i j ci cj ai aj ri rj) in Hle; [done | done | by right | done..]. }
  split; [exact Hno |]. by eapply unbonded_atom_excluded.
Qed.

(** * Further properties of the code *)

(** ** One pass of the fragment loop *)

Lemma pair_set_union_idemp (bi : nat * nat) : pair_set bi ∪ pair_set bi = pair_set bi.
Proof. apply set_eq. intros x. rewrite elem_of_union. tauto. Qed.

(** The copies of the bond set that the pass has appended are visited too,
    and left as they are. *)
Lemma frag_loop_appended (fuel : nat) (bi : nat * nat) (pre : list (gset nat)) (j : nat) :
  frag_loop fuel (length pre) bi (pre ++ replicate j (pair_set bi))
  = pre ++ replicate j (pair_set bi).
Proof.
  revert pre j. induction fuel as [|fuel IH]; intros pre j; [done |].
  cbn [frag_loop]. destruct j as [|j].
  - simpl. rewrite app_nil_r, lookup_ge_None_2 by lia. done.
  - rewrite lookup_app_r, Nat.sub_diag by lia. cbn [replicate lookup list_lookup].
    rewrite decide_True by apply pair_set_nonempty.
    rewrite pair_set_union_idemp.
    rewrite insert_app_r_alt, Nat.sub_diag by lia. cbn [insert list_insert].
    rewrite (cons_middle (pair_set bi) pre), app_assoc.
    replace (S (length pre)) with (length (pre ++ [pair_set bi]))
      by (rewrite length_app; simpl; lia).
    apply IH.
Qed.

Lemma replicate_snoc {A} (j : nat) (x : A) : replicate j x ++ [x] = replicate (S j) x.
Proof. induction j as [|j IH]; [done |]. simpl. by rewrite IH. Qed.

Lemma frag_loop_closed (fuel : nat) (bi : nat * nat)
    (pre post : list (gset nat)) (j : nat) :
  length post + count_disjoint bi post <= fuel ->
  frag_loop fuel (length pre) bi (pre ++ post ++ replicate j (pair_set bi))
  = pre ++ (merge_fragment bi <$> post)
        ++ replicate (j + count_disjoint bi post) (pair_set bi).
Proof.
  revert fuel pre j. induction post as [|f post IH]; intros fuel pre j Hfuel.
  - simpl. rewrite Nat.add_0_r. apply frag_loop_appended.
  - unfold count_disjoint in Hfuel. rewrite filter_cons in Hfuel.
    destruct fuel as [|fuel]; [simpl in Hfuel; lia |].
    cbn [frag_loop]. rewrite lookup_app_r, Nat.sub_diag by lia.
    cbn [app lookup list_lookup]. rewrite fmap_cons. unfold merge_fragment at 1.
    assert (forall l : list (gset nat), pre ++ f :: l = (pre ++ [f]) ++ l) as Hmid
      by (intros l; by rewrite <- app_assoc).
    destruct (decide (pair_set bi ∩ f ≠ ∅)) as [Hm|Hm].
    + rewrite decide_False in Hfuel by tauto.
      rewrite insert_app_r_alt, Nat.sub_diag by lia. cbn [insert list_insert].
      rewrite (cons_middle (f ∪ pair_set bi) pre), app_assoc.
      replace (S (length pre)) with (length (pre ++ [f ∪ pair_set bi]))
        by (rewrite length_app; simpl; lia).
      rewrite IH by (simpl in Hfuel; unfold count_disjoint; lia).
      rewrite <- app_assoc. simpl. unfold count_disjoint.
      rewrite filter_cons, decide_False by tauto. done.
    + assert (pair_set bi ∩ f = ∅) as He.
      { destruct (decide (pair_set bi ∩ f = ∅)); [done | by destruct Hm]. }
      rewrite decide_True in Hfuel by done.
      replace ((pre ++ f :: post ++ replicate j (pair_set bi)) ++ [pair_set bi])
        with ((pre ++ [f]) ++ post ++ replicate (S j) (pair_set bi)).
      2:{ rewrite <- replicate_snoc, <- !app_assoc. simpl.
          by rewrite <- !app_assoc. }
      replace (S (length pre)) with (length (pre ++ [f]))
        by (rewrite length_app; simpl; lia).
      rewrite IH by (simpl in Hfuel; unfold count_disjoint; lia).
      rewrite <- app_assoc. simpl. unfold count_disjoint.
      rewrite filter_cons, decide_True by done. simpl.
      rewrite Nat.add_succ_r. done.
Qed.

(** One bond in [make_fragments]: every fragment that the bond meets
    receives the two atoms of the bond, the other fragments stay as they
    are, and one copy of the bond's atom set is appended for every fragment
    that the bond does not meet. *)
Lemma frag_loop_pass (bi : nat * nat) (frs : list (gset nat)) :
  frag_loop (2 * length frs) 0 bi frs
  = (merge_fragment bi <$> frs)
      ++ replicate (count_disjoint bi frs) (pair_set bi).
Proof.
  pose proof (frag_loop_closed (2 * length frs) bi [] frs 0) as Hc.
  simpl in Hc. rewrite app_nil_r in Hc. apply Hc.
  unfold count_disjoint.
  pose proof (length_filter (fun f => pair_set bi ∩ f = ∅) frs). lia.
Qed.

(** X1.  [make_fragments] on a non-empty bond list returns, and its result is
    obtained from the atom set of the first bond by one pass per further
    bond: in a pass, every fragment that the bond meets receives the two
    atoms of the bond, the other fragments stay as they are, and one copy of
    the bond's atom set is appended for every fragment that the bond does
    not meet. *)
Theorem make_fragments_passes (b0 : nat * nat) (rest : list (nat * nat)) :
  make_fragments (b0 :: rest)
  = Ok (foldl (fun frs bi =>
                 (merge_fragment bi <$> frs)
                   ++ replicate (count_disjoint bi frs) (pair_set bi))
              [pair_set b0] rest).
Proof.
  cbn [make_fragments]. f_equal. generalize [pair_set b0].
  induction rest as [|bi rest IH]; intros frs; [done |].
  cbn [foldl]. by rewrite frag_loop_pass, IH.
Qed.

(** ** Exceptions and shapes *)

Section ErrorFacts.
Context {F : Type} {SF : Scalar F}.

Lemma reshape3_cases_le (n : nat) (l : list F) :
  length l <= n ->
  (exists cs, reshape3 l = Ok cs) \/ reshape3 l = Raise ValueError.
Proof.
  revert l. induction n as [|n IH]; intros l Hl.
  - destruct l; [left; by exists [] | simpl in Hl; lia].
  - destruct l as [|x [|y [|z l]]]; [left; by exists [] | by right | by right |].
    simpl in Hl. destruct (IH l ltac:(lia)) as [[cs Hcs] | Hr].
    + left. exists ((x, y, z) :: cs). simpl. by rewrite Hcs.
    + right. simpl. by rewrite Hr.
Qed.

Lemma reshape3_bad_length (l : list F) :
  length l `mod` 3 <> 0 -> reshape3 l = Raise ValueError.
Proof.
  intros Hmod. destruct (reshape3_cases_le (length l) l (le_n _)) as [[cs Hcs] | Hr];
    [| done].
  apply reshape3_length in Hcs. rewrite Hcs, Nat.mul_comm, Nat.Div0.mod_mul in Hmod. done.
Qed.

(** X2.  A coordinate array whose length is not a multiple of three makes
    bond detection, every row builder and the assembler raise
    [ValueError], whatever the other arguments are. *)
Theorem bad_coords_length_raises (CR : gmap string F) (geom : Geometry F)
    (factor : F) (bond_ind : nat * nat) (angle_ind : nat * nat * nat)
    (dihedral_ind : quad) :
  length (coords geom) `mod` 3 <> 0 ->
  get_bond_indices CR geom factor = Raise ValueError /\
  get_bond_B geom bond_ind = Raise ValueError /\
  get_angle_B geom angle_ind = Raise ValueError /\
  get_dihedral_B geom dihedral_ind = Raise ValueError /\
  get_B_mat CR geom = Raise ValueError.
Proof.
  intros Hr%reshape3_bad_length.
  assert (forall fac, get_bond_indices CR geom fac = Raise ValueError) as Hb
    by (intros fac; unfold get_bond_indices; by rewrite Hr).
  repeat split.
  - apply Hb.
  - unfold get_bond_B. by rewrite Hr.
  - unfold get_angle_B. by rewrite Hr.
  - unfold get_dihedral_B. by rewrite Hr.
  - unfold get_B_mat. by rewrite Hb.
Qed.

Lemma getitem_ge {A} (l : list A) (i : nat) :
  length l <= i -> getitem l i = Raise IndexError.
Proof. intros Hi. unfold getitem. by rewrite lookup_ge_None_2. Qed.

(** X3.  With a well-shaped coordinate array, a row builder raises
    [IndexError] exactly when one of the atom indices it is given is not
    below the number of atoms; otherwise it returns a row. *)
Theorem row_builders_index_error (geom : Geometry F) (cs : list (vec3 F)) :
  reshape3 (coords geom) = Ok cs ->
  (forall n m, get_bond_B geom (n, m) = Raise IndexError <->
               ~ (n < length cs /\ m < length cs)) /\
  (forall m o n, get_angle_B geom (m, o, n) = Raise IndexError <->
               ~ (m < length cs /\ o < length cs /\ n < length cs)) /\
  (forall m o p n, get_dihedral_B geom (m, o, p, n) = Raise IndexError <->
               ~ (m < length cs /\ o < length cs /\ p < length cs /\ n < length cs)).
Proof.
  intros Hcs. split; [| split].
  - intros n m. split.
    + intros Hr (Hn & Hm).
      destruct (get_bond_B_total geom cs n m Hcs Hn Hm) as (row & Hrow & _). congruence.
    + intros Hnot. unfold get_bond_B. rewrite Hcs. simpl.
      destruct (decide (m < length cs)) as [Hm|Hm];
        [| by rewrite (getitem_ge cs m) by lia].
      destruct (getitem_lt cs m Hm) as (cm & -> & _). simpl.
      rewrite (getitem_ge cs n) by lia. done.
  - intros m o n. split.
    + intros Hr (Hm & Ho & Hn).
      destruct (get_angle_B_total geom cs m o n Hcs Hm Ho Hn) as (row & Hrow & _).
      congruence.
    + intros Hnot. unfold get_angle_B. rewrite Hcs. simpl.
      destruct (decide (m < length cs)) as [Hm|Hm];
        [| by rewrite (getitem_ge cs m) by lia].
      destruct (getitem_lt cs m Hm) as (cm & -> & _). simpl.
      destruct (decide (o < length cs)) as [Ho|Ho];
        [| by rewrite (getitem_ge cs o) by lia].
      destruct (getitem_lt cs o Ho) as (co & -> & _). simpl.
      rewrite (getitem_ge cs n) by lia. done.
  - intros m o p n. split.
    + intros Hr (Hm & Ho & Hp & Hn).
      destruct (get_dihedral_B_total geom cs m o p n Hcs Hm Ho Hp Hn) as (row & Hrow & _).
      congruence.
    + intros Hnot. unfold get_dihedral_B. rewrite Hcs. simpl.
      destruct (decide (m < length cs)) as [Hm|Hm];
        [| by rewrite (getitem_ge cs m) by lia].
      destruct (getitem_lt cs m Hm) as (cm & -> & _). simpl.
      destruct (decide (o < length cs)) as [Ho|Ho];
        [| by rewrite (getitem_ge cs o) by lia].
      destruct (getitem_lt cs o Ho) as (co & -> & _). simpl.
      destruct (decide (n < length cs)) as [Hn|Hn];
        [| by rewrite (getitem_ge cs n) by lia].
      destruct (getitem_lt cs n Hn) as (cn & -> & _). simpl.
      rewrite (getitem_ge cs p) by lia. done.
Qed.

(** X4.  The rows of [get_angle_B] and [get_dihedral_B] have [3N] entries and
    are zero at every entry that belongs to none of the atoms of the
    coordinate. *)
Theorem angle_dihedral_rows_support (geom : Geometry F) (cs : list (vec3 F)) :
  reshape3 (coords geom) = Ok cs ->
  (forall m o n row, get_angle_B geom (m, o, n) = Ok row ->
     length row = length (coords geom) /\
     forall k, k < length row ->
       k `div` 3 <> m -> k `div` 3 <> o -> k `div` 3 <> n -> row !! k = Some f0) /\
  (forall m o p n row, get_dihedral_B geom (m, o, p, n) = Ok row ->
     length row = length (coords geom) /\
     forall k, k < length row ->
       k `div` 3 <> m -> k `div` 3 <> o -> k `div` 3 <> p -> k `div` 3 <> n ->
       row !! k = Some f0).
Proof.
  intros Hcs. pose proof (reshape3_length _ _ Hcs) as Hlen. split.
  - intros m o n row. unfold get_angle_B. rewrite Hcs. simpl.
    intros (cm & Hm & (co & Ho & (cn & Hn & Hrow)%bind_Ok)%bind_Ok)%bind_Ok.
    destruct (angle_terms cm co cn) as [t1 t2]. injection Hrow as <-.
    match goal with |- length ?r = _ /\ _ =>
      assert (length r = 3 * length cs) as Hl by row_length end.
    split; [by rewrite Hl, Hlen |]. intros k Hk Hkm Hko Hkn.
    rewrite Hl in Hk. apply lookup_flatten_zero.
    rewrite !list_lookup_insert_ne by done. apply zeros_like_lookup.
    apply Nat.Div0.div_lt_upper_bound. lia.
  - intros m o p n row. unfold get_dihedral_B. rewrite Hcs. simpl.
    intros (cm & Hm & (co & Ho & (cn & Hn & (cp & Hp & Hrow)%bind_Ok)%bind_Ok)%bind_Ok)%bind_Ok.
    destruct (dihedral_terms cm co cp cn) as [[[t1 t2] t3] t4]. injection Hrow as <-.
    match goal with |- length ?r = _ /\ _ =>
      assert (length r = 3 * length cs) as Hl by row_length end.
    split; [by rewrite Hl, Hlen |]. intros k Hk Hkm Hko Hkp Hkn.
    rewrite Hl in Hk. apply lookup_flatten_zero.
    rewrite !list_lookup_insert_ne by done. apply zeros_like_lookup.
    apply Nat.Div0.div_lt_upper_bound. lia.
Qed.

(** X5.  [get_B_mat] raises an exception exactly when bond detection (with
    the default factor) raises it: on the indices that bond detection and
    the generators produce, the generators and the row builders never
    fail. *)
Theorem get_B_mat_fails_with_detection (CR : gmap string F) (geom : Geometry F)
    (e : exn) :
  get_B_mat CR geom = Raise e <-> get_bond_indices CR geom f_1_3 = Raise e.
Proof.
  destruct (get_bond_indices CR geom f_1_3) as [bond_inds|e'] eqn:Hb.
  - destruct (get_B_mat_rows CR geom bond_inds Hb)
      as (cs & bend_inds & dihedral_inds & bond_rows & bend_rows & dihed_rows
          & _ & _ & _ & _ & _ & _ & Hmat & _).
    rewrite Hmat. split; discriminate.
  - unfold get_B_mat. rewrite Hb. simpl. split; intros [= ->]; done.
Qed.

(** X6.  In a geometry whose atoms all have a symbol with a radius, if no
    pair of atoms passes the distance test then bond detection raises
    [IndexError] (from [make_fragments], which pops the first bond), and so
    does [get_B_mat]. *)
Theorem no_bond_raises (CR : gmap string F) (geom : Geometry F) (factor : F)
    (cs : list (vec3 F)) :
  reshape3 (coords geom) = Ok cs ->
  length cs <= length (atoms geom) ->
  (forall k a, k < length cs -> atoms geom !! k = Some a ->
               is_Some (CR !! lower a)) ->
  (forall i j ci cj ai aj ri rj,
     i < j -> cs !! i = Some ci -> cs !! j = Some cj ->
     atoms geom !! i = Some ai -> atoms geom !! j = Some aj ->
     CR !! lower ai = Some ri -> CR !! lower aj = Some rj ->
     fle (vnorm (vsub ci cj)) (fmul factor (fadd ri rj)) = false) ->
  get_bond_indices CR geom factor = Raise IndexError.
Proof.
  intros Hcs Hat Hknown Hfar.
  destruct (for_each_total (cov_rad_sum CR geom factor)
              (combinations2 (seq 0 (length cs)))) as [sums Hsums].
  { apply Forall_forall. intros [i j] (p & q & Hpq & Hp & Hq)%elem_of_combinations2.
    apply lookup_seq in Hp as [-> ?]. apply lookup_seq in Hq as [-> ?]. simpl in *.
    destruct (lookup_lt_is_Some_2 (atoms geom) p ltac:(lia)) as [ai Hai].
    destruct (lookup_lt_is_Some_2 (atoms geom) q ltac:(lia)) as [aj Haj].
    destruct (Hknown p ai ltac:(lia) Hai) as [ri Hri].
    destruct (Hknown q aj ltac:(lia) Haj) as [rj Hrj].
    eexists. apply cov_rad_sum_Ok. by exists ai, aj, ri, rj. }
  apply (get_bond_indices_no_bond CR geom factor cs sums Hcs Hsums).
  destruct (select_bonds _ _ sums) as [|[i j] l] eqn:Hsel; [done |].
  assert ((i, j) ∈ select_bonds (combinations2 (seq 0 (length cs))) (pdist cs) sums)
    as Hin by (rewrite Hsel; apply list_elem_of_here).
  apply (select_bonds_spec CR geom factor cs sums i j Hsums) in Hin
    as (Hlt & ci & cj & s & Hci & Hcj & Hs & Hle).
  apply cov_rad_sum_Ok in Hs as (ai & aj & ri & rj & ? & ? & ? & ? & ->).
  rewrite (Hfar i j ci cj ai aj ri rj) in Hle; done.
Qed.

End ErrorFacts.

(** ** The order of the bond list *)

Lemma StronglySorted_sublist {A} (R : relation A) (l1 l2 : list A) :
  l1 `sublist_of` l2 -> StronglySorted R l2 -> StronglySorted R l1.
Proof.
  induction 1 as [|x l1 l2 Hs IH|x l1 l2 Hs IH]; intros Hl2.
  - constructor.
  - apply StronglySorted_inv in Hl2 as [Hl2 Hx]. constructor; [by apply IH |].
    apply Forall_forall. intros y Hy. rewrite Forall_forall in Hx.
    apply Hx. by eapply elem_of_sublist.
  - apply StronglySorted_inv in Hl2 as [Hl2 _]. by apply IH.
Qed.

Lemma combinations2_seq_sorted (s n : nat) :
  StronglySorted pair_lt (combinations2 (seq s n)).
Proof.
  revert s. induction n as [|n IH]; intros s; [constructor |].
  cbn [seq combinations2]. apply StronglySorted_app_2.
  - intros [a b] [c d] (y & [= -> ->] & Hy)%list_elem_of_fmap
           (p & q & Hpq & Hp & Hq)%elem_of_combinations2.
    apply lookup_seq in Hp as [-> ?]. left. simpl. lia.
  - apply (StronglySorted_fmap (pair s) lt); [intros x y Hxy; right; simpl; lia |].
    clear IH. generalize (S s). induction n as [|n IHn]; intros k; [constructor |].
    cbn [seq]. constructor; [apply IHn |].
    apply Forall_forall. intros x [i [-> ?]%lookup_seq]%list_elem_of_lookup. lia.
  - apply IH.
Qed.

Section BondOrder.
Context {F : Type} {SF : Scalar F}.

Lemma select_bonds_sublist (ai : list (nat * nat)) (cdm sums : list F) :
  select_bonds ai cdm sums `sublist_of` ai.
Proof.
  revert cdm sums. induction ai as [|ij ai IH]; intros cdm sums; [done |].
  destruct cdm as [|d cdm], sums as [|s sums]; simpl; try apply sublist_nil_l.
  destruct (fle d s); [by apply sublist_skip | by apply sublist_cons].
Qed.

(** X7.  The bond list returned by bond detection is in strictly increasing
    lexicographic order, so it has no duplicates, and all its indices are
    atom indices of the geometry. *)
Theorem bond_list_sorted (CR : gmap string F) (geom : Geometry F) (factor : F)
    (bonds : list (nat * nat)) :
  get_bond_indices CR geom factor = Ok bonds ->
  StronglySorted pair_lt bonds /\ NoDup bonds /\
  exists cs, reshape3 (coords geom) = Ok cs /\
    forall b, b ∈ bonds -> b.1 < b.2 /\ b.2 < length cs.
Proof.
  intros Hb. split; [| split; [| by eapply get_bond_indices_range]].
  - apply get_bond_indices_Ok in Hb as (cs & sums & _ & _ & -> & _).
    eapply StronglySorted_sublist; [apply select_bonds_sublist |].
    apply combinations2_seq_sorted.
  - apply get_bond_indices_Ok in Hb as (cs & sums & _ & _ & -> & _).
    eapply sublist_NoDup; [| apply select_bonds_sublist].
    apply combinations2_NoDup, NoDup_seq.
Qed.

End BondOrder.

(** ** The legs of an angle *)

Lemma pair_set_eq_inv (b : nat * nat) (x y : nat) :
  pair_set b = {[x; y]} -> x <> y -> b = (x, y) \/ b = (y, x).
Proof.
  destruct b as [p q]. unfold pair_set. simpl. intros Heq Hxy.
  assert (p ∈ ({[x; y]} : gset nat)) as Hp by (rewrite <- Heq; set_solver).
  assert (q ∈ ({[x; y]} : gset nat)) as Hq by (rewrite <- Heq; set_solver).
  assert (x ∈ ({[p; q]} : gset nat)) as Hx by (rewrite Heq; set_solver).
  assert (y ∈ ({[p; q]} : gset nat)) as Hy by (rewrite Heq; set_solver).
  rewrite elem_of_union, !elem_of_singleton in Hp, Hq, Hx, Hy.
  destruct Hp as [-> | ->], Hq as [-> | ->]; auto; destruct Hx, Hy; congruence.
Qed.

Lemma pair_other (p q c : nat) :
  p <> q -> c ∈ ({[p; q]} : gset nat) ->
  exists x, x <> c /\ ({[p; q]} : gset nat) = {[c; x]}.
Proof.
  intros Hpq [->%elem_of_singleton | ->%elem_of_singleton]%elem_of_union.
  - by exists q.
  - exists p. split; [done |]. apply set_eq. intros z. rewrite !elem_of_union. tauto.
Qed.

Lemma pair_gset_eq (a b x y : nat) :
  ({[a; b]} : gset nat) = {[x; y]} -> a <> b ->
  (a = x /\ b = y) \/ (a = y /\ b = x).
Proof.
  intros Heq Hab.
  assert (a ∈ ({[x; y]} : gset nat)) as Ha
    by (rewrite <- Heq; apply elem_of_union_l; by apply elem_of_singleton).
  assert (b ∈ ({[x; y]} : gset nat)) as Hb
    by (rewrite <- Heq; apply elem_of_union_r; by apply elem_of_singleton).
  rewrite elem_of_union, !elem_of_singleton in Ha, Hb.
  destruct Ha as [-> | ->], Hb as [-> | ->]; auto; congruence.
Qed.

Lemma gset_pair_swap (x y : nat) : ({[x; y]} : gset nat) = {[y; x]}.
Proof. apply set_eq. intros z. rewrite !elem_of_union. tauto. Qed.

Lemma angle_of_legs (b1 b2 : nat * nat) (t1 c t2 : nat) :
  b1.1 <> b1.2 -> b2.1 <> b2.2 ->
  angle_of (pair_set b1, pair_set b2) (t1, c, t2) ->
  t1 <> c /\ c <> t2 /\
  ((pair_set b1 = {[t1; c]} /\ pair_set b2 = {[c; t2]}) \/
   (pair_set b1 = {[c; t2]} /\ pair_set b2 = {[t1; c]})).
Proof.
  destruct b1 as [p q], b2 as [r s]. unfold angle_of, pair_set. simpl.
  intros Hpq Hrs (Hc & Ht & Hne).
  assert (c ∈ ({[p; q]} : gset nat) ∩ {[r; s]}) as [Hc1 Hc2]%elem_of_intersection
    by (rewrite Hc; by apply elem_of_singleton).
  destruct (pair_other p q c Hpq Hc1) as (x1 & Hx1 & E1).
  destruct (pair_other r s c Hrs Hc2) as (x2 & Hx2 & E2).
  rewrite E1, E2 in Hc, Ht |- *. clear E1 E2 Hc1 Hc2.
  assert (x1 <> x2) as Hx12.
  { intros <-. assert (x1 ∈ ({[c; x1]} : gset nat) ∩ {[c; x1]}) as Hin.
    { apply elem_of_intersection. split; apply elem_of_union_r; by apply elem_of_singleton. }
    rewrite Hc in Hin. by apply elem_of_singleton in Hin. }
  assert ((({[c; x1]} : gset nat) ∪ {[c; x2]}) ∖ {[c]} = {[x1; x2]}) as Hd.
  { apply set_eq. intros z.
    rewrite elem_of_difference, !elem_of_union, !elem_of_singleton.
    split; [tauto |]. intros [-> | ->]; split; auto. }
  rewrite Hd in Ht.
  destruct (pair_gset_eq x1 x2 t1 t2 Ht Hx12) as [[-> ->] | [-> ->]].
  - split; [done |]. split; [done |]. left. split; [apply gset_pair_swap | done].
  - split; [done |]. split; [done |]. right. split; [done | apply gset_pair_swap].
Qed.

(** ** The central atom *)

(** X8.  [sort_by_central] raises [AssertionError] when the two sets do not
    share exactly one element, and [ValueError] when they do but the rest of
    their union does not have exactly two elements; when it returns, the
    middle entry of the triple is the shared element, which is also the
    second component of the result, and the outer entries are the two other
    elements of the union, which differ. *)
Theorem sort_by_central_spec (s1 s2 : gset nat) :
  (size (s1 ∩ s2) <> 1 -> sort_by_central s1 s2 = Raise AssertionError) /\
  (size (s1 ∩ s2) = 1 -> size ((s1 ∪ s2) ∖ (s1 ∩ s2)) <> 2 ->
     sort_by_central s1 s2 = Raise ValueError) /\
  (forall t1 c t2 c', sort_by_central s1 s2 = Ok ((t1, c, t2), c') ->
     c' = c /\ s1 ∩ s2 = {[c]} /\
     (s1 ∪ s2) ∖ (s1 ∩ s2) = {[t1; t2]} /\ t1 <> t2).
Proof.
  unfold sort_by_central. split; [| split].
  - intros Hne. by rewrite decide_False.
  - intros H1 H2. rewrite decide_True by done.
    unfold size, set_size in H2. simpl in H2.
    destruct (elements ((s1 ∪ s2) ∖ (s1 ∩ s2))) as [|a [|b [|? ?]]]; done.
  - intros t1 c t2 c'. destruct (decide (size (s1 ∩ s2) = 1)) as [H1|]; [| done].
    destruct (elements ((s1 ∪ s2) ∖ (s1 ∩ s2))) as [|a [|b [|? ?]]] eqn:Het; try done.
    destruct (elements_one _ H1) as (c0 & Hec & Hcs). rewrite Hec.
    intros [= -> -> -> ->].
    assert (size ((s1 ∪ s2) ∖ (s1 ∩ s2)) = 2) as H2
      by (unfold size, set_size; simpl; by rewrite Het).
    destruct (elements_two _ H2) as (a' & b' & Het' & Hts & Hne).
    rewrite Het in Het'. injection Het' as <- <-. done.
Qed.

Lemma sort_by_central_spec_witness :
  sort_by_central {[0]} {[1; 2]} = Raise AssertionError /\
  sort_by_central {[0]} {[0]} = Raise ValueError.
Proof.
  split.
  - apply (proj1 (sort_by_central_spec {[0]} {[1; 2]})). vm_compute. lia.
  - apply (proj1 (proj2 (sort_by_central_spec {[0]} {[0]}))); vm_compute; lia.
Defined.

(** ** Angles *)

Lemma bends_of_pairs (bonds : list (nat * nat)) (pairs : list (gset nat * gset nat))
    (triples : list (nat * nat * nat)) (k : nat) (t1 c t2 : nat) :
  (forall b, b ∈ bonds -> b.1 <> b.2) ->
  Forall2 angle_of pairs triples ->
  (forall s1 s2, (s1, s2) ∈ pairs ->
     s1 ∈ bond_sets_of bonds /\ s2 ∈ bond_sets_of bonds /\ s1 <> s2 /\
     size (s1 ∪ s2) = 3) ->
  triples !! k = Some (t1, c, t2) ->
  exists s1 s2, pairs !! k = Some (s1, s2) /\
    t1 <> c /\ c <> t2 /\ t1 <> t2 /\
    s1 ∈ bond_sets_of bonds /\ s2 ∈ bond_sets_of bonds /\
    ((s1 = {[t1; c]} /\ s2 = {[c; t2]}) \/ (s1 = {[c; t2]} /\ s2 = {[t1; c]})).
Proof.
  intros Hb Hf Hin Hk.
  destruct (Forall2_lookup_r _ _ _ _ _ Hf Hk) as ([s1 s2] & Hp & Ha).
  exists s1, s2. split; [done |].
  destruct (Hin s1 s2 ltac:(by eapply list_elem_of_lookup_2)) as (H1 & H2 & _ & _).
  pose proof H1 as H1'. pose proof H2 as H2'.
  apply elem_of_bond_sets_of in H1' as (b1 & Hb1 & ->).
  apply elem_of_bond_sets_of in H2' as (b2 & Hb2 & ->).
  destruct (angle_of_legs b1 b2 t1 c t2 (Hb _ Hb1) (Hb _ Hb2) Ha) as (? & ? & Hlegs).
  assert (t1 <> t2) by (by destruct Ha as (_ & _ & ?)).
  done.
Qed.

Lemma bond_set_bonded (bonds : list (nat * nat)) (x y : nat) :
  x <> y -> {[x; y]} ∈ bond_sets_of bonds -> bonded bonds x y.
Proof.
  intros Hxy (b & Hb & Heq)%elem_of_bond_sets_of.
  symmetry in Heq. apply pair_set_eq_inv in Heq as [-> | ->]; [by left | by right | done].
Qed.

(** Every generated angle [(t1, c, t2)] has three different atoms, and
    both [t1]-[c] and [c]-[t2] are bonds of the input. *)
Lemma get_bending_indices_legs (bonds : list (nat * nat)) :
  (forall b, b ∈ bonds -> b.1 <> b.2) ->
  exists bends, get_bending_indices bonds = Ok bends /\
    forall t1 c t2, (t1, c, t2) ∈ bends ->
      bonded bonds t1 c /\ bonded bonds c t2 /\
      t1 <> c /\ c <> t2 /\ t1 <> t2.
Proof.
  intros Hb.
  destruct (get_bending_indices_pairs bonds Hb)
    as (pairs & triples & Hok & Hf & _ & Hin & _).
  exists triples. split; [done |]. intros t1 c t2 [k Hk]%list_elem_of_lookup.
  destruct (bends_of_pairs bonds pairs triples k t1 c t2 Hb Hf Hin Hk)
    as (s1 & s2 & _ & ? & ? & ? & H1 & H2 & [[-> ->] | [-> ->]]).
  - repeat split; try done; by apply bond_set_bonded.
  - repeat split; try done; by apply bond_set_bonded.
Qed.

(** X9.  No angle is generated twice, not even read from the other end. *)
Theorem angles_not_repeated (bonds : list (nat * nat)) :
  (forall b, b ∈ bonds -> b.1 <> b.2) ->
  exists bends, get_bending_indices bonds = Ok bends /\
    forall a b ta tb, a <> b -> bends !! a = Some ta -> bends !! b = Some tb ->
      ta <> tb /\ ta <> triple_rev tb.
Proof.
  intros Hb.
  destruct (get_bending_indices_pairs bonds Hb)
    as (pairs & triples & Hok & Hf & Hnd & Hin & Hex).
  exists triples. split; [done |].
  assert (forall a b t1 c t2 u1 u2, a <> b ->
            triples !! a = Some (t1, c, t2) -> triples !! b = Some (u1, c, u2) ->
            ({[t1; c]} : gset nat) = {[u1; c]} /\ ({[c; t2]} : gset nat) = {[c; u2]} \/
            ({[t1; c]} : gset nat) = {[c; u2]} /\ ({[c; t2]} : gset nat) = {[u1; c]} ->
            False) as Hkey.
  { intros a b t1 c t2 u1 u2 Hab Ha Hb' Hsame.
    destruct (bends_of_pairs bonds pairs triples a t1 c t2 Hb Hf Hin Ha)
      as (s1 & s2 & Hpa & _ & _ & _ & Hs1 & Hs2 & Hla).
    destruct (bends_of_pairs bonds pairs triples b u1 c u2 Hb Hf Hin Hb')
      as (r1 & r2 & Hpb & _ & _ & _ & _ & _ & Hlb).
    destruct (Hin s1 s2 ltac:(by eapply list_elem_of_lookup_2)) as (_ & _ & Hne & H3).
    assert ((r1, r2) = (s1, s2) \/ (r1, r2) = (s2, s1)) as [Heq | Heq].
    { destruct Hsame as [[E1 E2] | [E1 E2]], Hla as [[-> ->] | [-> ->]],
        Hlb as [[-> ->] | [-> ->]]; rewrite ?E1, ?E2; auto;
        rewrite <- ?E1, <- ?E2; auto. }
    - rewrite Heq in Hpb. apply Hab. by eapply NoDup_lookup.
    - rewrite Heq in Hpb.
      destruct (Hex s1 s2 Hs1 Hs2 Hne H3) as [[_ Hn] | [_ Hn]]; apply Hn;
        by eapply list_elem_of_lookup_2. }
  intros a b [[t1 c] t2] [[u1 c'] u2] Hab Ha Hb'. split.
  - intros [= <- <- <-]. apply (Hkey a b t1 c t2 t1 t2 Hab Ha Hb'). by left.
  - simpl. intros [= -> <- ->]. apply (Hkey a b u2 c u1 u1 u2 Hab Ha Hb'). right.
    split; apply gset_pair_swap.
Qed.

(** ** Dihedrals *)

Lemma dihedral_candidate_shape (bond : nat * nat) (bend0 central bend2 : nat) (d : quad) :
  bond.1 <> bond.2 ->
  dihedral_candidate bond (bend0, central, bend2) = Ok (Some d) ->
  exists terminal,
    terminal <> bend0 /\ terminal <> central /\ terminal <> bend2 /\
    ((d = (terminal, bend0, central, bend2) /\ pair_set bond = {[terminal; bend0]}) \/
     (d = (bend0, central, bend2, terminal) /\ pair_set bond = {[bend2; terminal]})).
Proof.
  destruct bond as [p q]. unfold dihedral_candidate, pair_index, pair_set, triple_set.
  simpl. intros Hpq.
  destruct (decide _) as [[Hsz Hc]|]; [| done].
  destruct (elements _) as [|x [|]] eqn:Hel; try done.
  assert (x ∈ ({[p; q]} : gset nat) ∩ {[bend0; central; bend2]}) as Hx
    by (apply elem_of_elements; rewrite Hel; apply list_elem_of_here).
  apply elem_of_intersection in Hx as [Hxb Hxt].
  destruct (size_1_elem_of _ Hsz) as [y Hy].
  assert (forall z, z ∈ ({[bend0; bend2]} : gset nat) -> z ∈ ({[p; q]} : gset nat) -> z = y)
    as Huniq.
  { intros z H1 H2. assert (z ∈ ({[bend0; bend2]} : gset nat) ∩ {[p; q]}) as Hz
      by (by apply elem_of_intersection).
    rewrite Hy in Hz. by apply elem_of_singleton in Hz. }
  assert (x <> central) as Hxc by (intros ->; done).
  assert (x ∈ ({[bend0; bend2]} : gset nat)) as Hxbes.
  { rewrite !elem_of_union, !elem_of_singleton in Hxt.
    rewrite elem_of_union, !elem_of_singleton. tauto. }
  pose proof (Huniq x Hxbes Hxb) as ->.
  assert (forall t, t ∈ ({[p; q]} : gset nat) -> t <> y ->
            t <> bend0 /\ t <> central /\ t <> bend2) as Hterm.
  { intros t Ht Hty. repeat split.
    - intros ->. apply Hty, Huniq; [| done]. apply elem_of_union_l. by apply elem_of_singleton.
    - intros ->. done.
    - intros ->. apply Hty, Huniq; [| done]. apply elem_of_union_r. by apply elem_of_singleton. }
  assert (p ∈ ({[p; q]} : gset nat)) as Hp by (apply elem_of_union_l; by apply elem_of_singleton).
  assert (q ∈ ({[p; q]} : gset nat)) as Hq by (apply elem_of_union_r; by apply elem_of_singleton).
  rewrite elem_of_union, !elem_of_singleton in Hxbes.
  destruct (decide (p = y)) as [->|Hpy]; simpl.
  - destruct (Hterm q Hq ltac:(congruence)) as (? & ? & ?).
    destruct (decide (y = bend0)) as [->|Hy0]; intros [= <-]; exists q; repeat split; try done.
    + left. split; [done |]. apply gset_pair_swap.
    + right. split; [done |]. destruct Hxbes as [? | ->]; done.
  - destruct (decide (q = y)) as [->|Hqy]; simpl.
    + destruct (Hterm p Hp Hpy) as (? & ? & ?).
      destruct (decide (y = bend0)) as [->|Hy0]; intros [= <-]; exists p; repeat split; try done.
      * by left.
      * right. split; [done |]. destruct Hxbes as [? | ->]; [done |]. apply gset_pair_swap.
    + rewrite elem_of_union, !elem_of_singleton in Hxb. destruct Hxb; congruence.
Qed.

(** With bonds that join two different atoms and angles of three
    different atoms, every generated dihedral [(m, o, p, n)] has four
    different atoms and extends an angle of the input by a bond at one end:
    either [(o, p, n)] is an input angle and [m]-[o] an input bond, or
    [(m, o, p)] is an input angle and [p]-[n] an input bond. *)
Lemma get_dihedral_indices_chains (bonds : list (nat * nat)) (bends : list (nat * nat * nat)) :
  (forall b, b ∈ bonds -> b.1 <> b.2) ->
  (forall t1 c t2, (t1, c, t2) ∈ bends -> t1 <> c /\ c <> t2 /\ t1 <> t2) ->
  exists ds, get_dihedral_indices bonds bends = Ok ds /\
    forall m o p n, (m, o, p, n) ∈ ds ->
      NoDup [m; o; p; n] /\
      (((o, p, n) ∈ bends /\ bonded bonds m o) \/
       ((m, o, p) ∈ bends /\ bonded bonds p n)).
Proof.
  intros Hb Ht.
  destruct (dihedral_loop_inv (product bonds bends) ([], [])) as (ds & Hds & _);
    [split; [done | constructor] |].
  exists ds. split; [done |].
  assert (Forall (fun d : quad =>
            let '(m, o, p, n) := d in
            NoDup [m; o; p; n] /\
            (((o, p, n) ∈ bends /\ bonded bonds m o) \/
             ((m, o, p) ∈ bends /\ bonded bonds p n))) ds) as Hall.
  { eapply dihedral_loop_Forall; [| | exact Hds]; [| by constructor].
    intros bond [[b0 c] b2] d [Hbond Hbend]%elem_of_product Hcand.
    destruct (dihedral_candidate_shape bond b0 c b2 d (Hb _ Hbond) Hcand)
      as (t & Ht0 & Htc & Ht2 & Hshape).
    destruct (Ht b0 c b2 Hbend) as (H0c & Hc2 & H02).
    destruct Hshape as [[-> Hset] | [-> Hset]].
    - split.
      + repeat constructor; rewrite ?elem_of_cons, ?elem_of_nil; naive_solver.
      + left. split; [done |].
        apply pair_set_eq_inv in Hset as [-> | ->]; [by left | by right | done].
    - split.
      + repeat constructor; rewrite ?elem_of_cons, ?elem_of_nil; naive_solver.
      + right. split; [done |].
        apply pair_set_eq_inv in Hset as [-> | ->]; [by left | by right | done]. }
  intros m o p n Hin. rewrite Forall_forall in Hall. exact (Hall _ Hin).
Qed.

(** ** Every chain is found *)

Lemma bonded_sym (bonds : list (nat * nat)) (i j : nat) :
  bonded bonds i j -> bonded bonds j i.
Proof. unfold bonded. tauto. Qed.

Lemma bonded_bond_set (bonds : list (nat * nat)) (x y : nat) :
  bonded bonds x y -> {[x; y]} ∈ bond_sets_of bonds.
Proof.
  intros [H | H]; apply elem_of_bond_sets_of; eexists; (split; [exact H |]).
  - done.
  - apply gset_pair_swap.
Qed.

Lemma size_two_legs (a b c : nat) :
  a <> b -> b <> c -> a <> c -> size ({[a; b]} ∪ {[b; c]} : gset nat) = 3.
Proof.
  intros Hab Hbc Hac.
  assert (({[a; b]} ∪ {[b; c]} : gset nat) = {[a]} ∪ ({[b]} ∪ {[c]})) as ->.
  { apply set_eq. intros x. rewrite !elem_of_union, !elem_of_singleton. tauto. }
  rewrite size_union, size_union, !size_singleton; [done | |].
  - by apply disjoint_singleton_l, not_elem_of_singleton.
  - apply disjoint_singleton_l. rewrite elem_of_union, !elem_of_singleton. tauto.
Qed.

Lemma angle_of_two_legs (t1 c t2 a c' b : nat) :
  t1 <> c -> c <> t2 -> t1 <> t2 ->
  angle_of ({[t1; c]}, {[c; t2]}) (a, c', b) \/
  angle_of ({[c; t2]}, {[t1; c]}) (a, c', b) ->
  (a, c', b) = (t1, c, t2) \/ (a, c', b) = (t2, c, t1).
Proof.
  intros H1 H2 H3 Ha.
  assert (({[t1; c]} ∩ {[c; t2]} : gset nat) = {[c']} /\
          (({[t1; c]} ∪ {[c; t2]}) ∖ {[c']} : gset nat) = {[a; b]} /\ a <> b)
    as (Hi & Hu & Hab).
  { destruct Ha as [(Hi & Hu & ?) | (Hi & Hu & ?)]; simpl in *.
    - done.
    - rewrite (gset_inter_comm {[t1; c]}), (gset_union_comm {[t1; c]}). done. }
  assert (c' = c) as ->.
  { assert (c ∈ ({[t1; c]} ∩ {[c; t2]} : gset nat)) as Hc.
    { rewrite elem_of_intersection, !elem_of_union, !elem_of_singleton. tauto. }
    rewrite Hi in Hc. by apply elem_of_singleton in Hc. }
  assert (({[t1; t2]} : gset nat) = {[a; b]}) as Heq.
  { rewrite <- Hu. apply set_eq. intros x.
    rewrite elem_of_difference, !elem_of_union, !elem_of_singleton.
    split; [intros [-> | ->]; split; auto |]. intros [[[-> | ->] | [-> | ->]] ?]; tauto. }
  apply pair_gset_eq in Heq as [[-> ->] | [-> ->]]; [by left | by right | done].
Qed.

(** Every pair of bonds that meet in one atom gives an angle. *)
Lemma get_bending_indices_found (bonds : list (nat * nat)) :
  (forall b, b ∈ bonds -> b.1 <> b.2) ->
  exists bends, get_bending_indices bonds = Ok bends /\
    forall t1 c t2, bonded bonds t1 c -> bonded bonds c t2 ->
      t1 <> c -> c <> t2 -> t1 <> t2 ->
      (t1, c, t2) ∈ bends \/ (t2, c, t1) ∈ bends.
Proof.
  intros Hb.
  destruct (get_bending_indices_pairs bonds Hb)
    as (pairs & triples & Hok & Hf & _ & _ & Hex).
  exists triples. split; [done |]. intros t1 c t2 Hb1 Hb2 H1 H2 H3.
  apply bonded_bond_set in Hb1, Hb2.
  assert (({[t1; c]} : gset nat) <> {[c; t2]}) as Hne.
  { intros Heq. apply pair_gset_eq in Heq as [[? ?] | [? ?]]; congruence. }
  assert (exists p, p ∈ pairs /\
            (p = ({[t1; c]}, {[c; t2]}) \/ p = ({[c; t2]}, {[t1; c]})))
    as (p & [k Hk]%list_elem_of_lookup & Hp).
  { destruct (Hex _ _ Hb1 Hb2 Hne (size_two_legs t1 c t2 H1 H2 H3))
      as [[Hin _] | [Hin _]]; eexists; (split; [exact Hin |]); auto. }
  destruct (Forall2_lookup_l _ _ _ _ _ Hf Hk) as ([[a c'] b] & Ht & Ha).
  apply list_elem_of_lookup_2 in Ht.
  destruct (angle_of_two_legs t1 c t2 a c' b H1 H2 H3) as [Heq | Heq].
  - destruct Hp as [-> | ->]; [by left | by right].
  - left. by rewrite <- Heq.
  - right. by rewrite <- Heq.
Qed.

Lemma elements_singleton_gset (x : nat) (X : gset nat) :
  X = {[x]} -> elements X = [x].
Proof. intros ->. apply elements_singleton. Qed.

(** A bond that prolongs an angle at one end passes the test of the loop. *)
Lemma dihedral_candidate_found (bond : nat * nat) (t1 c t2 x : nat) :
  t1 <> c -> c <> t2 -> t1 <> t2 -> x <> t1 -> x <> c -> x <> t2 ->
  (pair_set bond = {[x; t1]} ->
     dihedral_candidate bond (t1, c, t2) = Ok (Some (x, t1, c, t2))) /\
  (pair_set bond = {[t2; x]} ->
     dihedral_candidate bond (t1, c, t2) = Ok (Some (t1, c, t2, x))).
Proof.
  intros H1 H2 H3 Hx1 Hxc Hx2. split; intros Hset.
  - assert (({[t1; t2]} ∩ pair_set bond : gset nat) = {[t1]}) as Hi.
    { rewrite Hset. apply set_eq. intros y.
      rewrite elem_of_intersection, !elem_of_union, !elem_of_singleton.
      split; [| intros ->; tauto]. intros [[-> | ->] [? | ?]]; congruence. }
    assert (pair_set bond ∩ triple_set (t1, c, t2) = {[t1]}) as Hi'.
    { rewrite Hset. unfold triple_set. apply set_eq. intros y.
      rewrite elem_of_intersection, !elem_of_union, !elem_of_singleton.
      split; [| intros ->; tauto]. intros [[-> | ->] [[? | ?] | ?]]; congruence. }
    unfold dihedral_candidate.
    rewrite decide_True.
    2:{ rewrite Hi, size_singleton, Hset. split; [done |].
        rewrite elem_of_union, !elem_of_singleton. intros [? | ?]; congruence. }
    rewrite (elements_singleton_gset t1 _ Hi').
    apply pair_set_eq_inv in Hset as [-> | ->]; [| | done];
      unfold pair_index; simpl.
    + rewrite decide_False by done. rewrite decide_True by done. simpl.
      by rewrite decide_True by done.
    + rewrite decide_True by done. simpl. by rewrite decide_True by done.
  - assert (({[t1; t2]} ∩ pair_set bond : gset nat) = {[t2]}) as Hi.
    { rewrite Hset. apply set_eq. intros y.
      rewrite elem_of_intersection, !elem_of_union, !elem_of_singleton.
      split; [| intros ->; tauto]. intros [[-> | ->] [? | ?]]; congruence. }
    assert (pair_set bond ∩ triple_set (t1, c, t2) = {[t2]}) as Hi'.
    { rewrite Hset. unfold triple_set. apply set_eq. intros y.
      rewrite elem_of_intersection, !elem_of_union, !elem_of_singleton.
      split; [| intros ->; tauto]. intros [[-> | ->] [[? | ?] | ?]]; congruence. }
    unfold dihedral_candidate.
    rewrite decide_True.
    2:{ rewrite Hi, size_singleton, Hset. split; [done |].
        rewrite elem_of_union, !elem_of_singleton. intros [? | ?]; congruence. }
    rewrite (elements_singleton_gset t2 _ Hi').
    apply pair_set_eq_inv in Hset as [-> | ->]; [| | done];
      unfold pair_index; simpl.
    + rewrite decide_True by done. simpl. by rewrite decide_False by done.
    + rewrite decide_False by done. rewrite decide_True by done. simpl.
      by rewrite decide_False by done.
Qed.

Lemma dihedral_accept_keeps (d : quad) (st : list quad * list (gset nat)) :
  dihedral_inv st ->
  (forall d', d' ∈ st.1 -> d' ∈ (dihedral_accept d st).1) /\
  exists d', d' ∈ (dihedral_accept d st).1 /\ quad_set d' = quad_set d.
Proof.
  destruct st as [inds sets]. unfold dihedral_inv, dihedral_accept. simpl.
  intros [-> _]. destruct (decide _) as [Hnew | Hold]; simpl.
  - split.
    + intros d' Hd'. apply elem_of_app. by left.
    + exists d. split; [| done]. apply elem_of_app. right. apply list_elem_of_here.
  - split; [done |].
    apply dec_stable in Hold. apply list_elem_of_fmap in Hold as (d' & ? & ?).
    by exists d'.
Qed.

Lemma dihedral_loop_complete (pairs : list ((nat * nat) * (nat * nat * nat)))
    (st : list quad * list (gset nat)) (ds : list quad) :
  dihedral_inv st -> dihedral_loop pairs st = Ok ds ->
  (forall d, d ∈ st.1 -> d ∈ ds) /\
  (forall bond bend d, (bond, bend) ∈ pairs ->
     dihedral_candidate bond bend = Ok (Some d) ->
     exists d', d' ∈ ds /\ quad_set d' = quad_set d).
Proof.
  revert st. induction pairs as [|[bond bend] pairs IH]; intros st Hinv.
  - simpl. intros [= <-]. split; [done |]. intros ? ? ? []%elem_of_nil.
  - cbn [dihedral_loop]. intros (c & Hcand & Hloop)%bind_Ok.
    destruct c as [d0|].
    + destruct (IH _ (dihedral_accept_inv d0 st Hinv) Hloop) as [Hkeep Hfound].
      destruct (dihedral_accept_keeps d0 st Hinv) as [Hsub (d0' & Hd0' & Hset)].
      split; [by auto |].
      intros bond' bend' d [[= -> ->] | Hin]%elem_of_cons Hc.
      * rewrite Hcand in Hc. injection Hc as <-. exists d0'. split; [by auto | done].
      * by eapply Hfound.
    + destruct (IH _ Hinv Hloop) as [Hkeep Hfound]. split; [done |].
      intros bond' bend' d [[= -> ->] | Hin]%elem_of_cons Hc.
      * rewrite Hcand in Hc. done.
      * by eapply Hfound.
Qed.

Lemma elem_of_product_2 {A B} (l1 : list A) (l2 : list B) (a : A) (b : B) :
  a ∈ l1 -> b ∈ l2 -> (a, b) ∈ product l1 l2.
Proof.
  intros Ha Hb. unfold product. rewrite list_elem_of_In, in_flat_map.
  exists a. split; [by apply list_elem_of_In |].
  apply list_elem_of_In, list_elem_of_fmap. by exists b.
Qed.

Lemma get_dihedral_indices_found (bonds : list (nat * nat))
    (bends : list (nat * nat * nat)) :
  exists ds, get_dihedral_indices bonds bends = Ok ds /\
    forall t1 c t2 x, (t1, c, t2) ∈ bends ->
      NoDup [x; t1; c; t2] ->
      bonded bonds x t1 \/ bonded bonds t2 x ->
      exists d, d ∈ ds /\ quad_set d = {[x; t1; c; t2]}.
Proof.
  assert (dihedral_inv ([], [])) as Hinv by (split; [done | constructor]).
  destruct (dihedral_loop_inv (product bonds bends) ([], []) Hinv) as (ds & Hds & _).
  exists ds. split; [done |]. intros t1 c t2 x Hbend Hnd Hbond.
  destruct (dihedral_loop_complete _ _ _ Hinv Hds) as [_ Hfound].
  apply NoDup_cons in Hnd as [Hx Hnd]. apply NoDup_cons in Hnd as [H1 Hnd].
  apply NoDup_cons in Hnd as [H2 _].
  assert (x <> t1 /\ x <> c /\ x <> t2 /\ t1 <> c /\ t1 <> t2 /\ c <> t2)
    as (Hx1 & Hxc & Hx2 & H1c & H12 & Hc2) by set_solver.
  destruct Hbond as [[Hb | Hb] | [Hb | Hb]].
  - destruct (dihedral_candidate_found (x, t1) t1 c t2 x H1c Hc2 H12 Hx1 Hxc Hx2)
      as [Hc _].
    destruct (Hfound _ _ _ (elem_of_product_2 _ _ _ _ Hb Hbend) (Hc eq_refl))
      as (d & ? & Hq). by exists d.
  - destruct (dihedral_candidate_found (t1, x) t1 c t2 x H1c Hc2 H12 Hx1 Hxc Hx2)
      as [Hc _].
    destruct (Hfound _ _ _ (elem_of_product_2 _ _ _ _ Hb Hbend)
                (Hc (gset_pair_swap t1 x))) as (d & ? & Hq). by exists d.
  - destruct (dihedral_candidate_found (t2, x) t1 c t2 x H1c Hc2 H12 Hx1 Hxc Hx2)
      as [_ Hc].
    destruct (Hfound _ _ _ (elem_of_product_2 _ _ _ _ Hb Hbend) (Hc eq_refl))
      as (d & ? & Hq). exists d. split; [done |].
    rewrite Hq. unfold quad_set. apply set_eq. intros y.
    rewrite !elem_of_union, !elem_of_singleton. tauto.
  - destruct (dihedral_candidate_found (x, t2) t1 c t2 x H1c Hc2 H12 Hx1 Hxc Hx2)
      as [_ Hc].
    destruct (Hfound _ _ _ (elem_of_product_2 _ _ _ _ Hb Hbend)
                (Hc (gset_pair_swap x t2))) as (d & ? & Hq). exists d. split; [done |].
    rewrite Hq. unfold quad_set. apply set_eq. intros y.
    rewrite !elem_of_union, !elem_of_singleton. tauto.
Qed.

(** ** Angles and dihedrals as chains of bonds *)

Lemma NoDup_4 (a b c d : nat) :
  NoDup [a; b; c; d] <->
  a <> b /\ a <> c /\ a <> d /\ b <> c /\ b <> d /\ c <> d.
Proof.
  rewrite !NoDup_cons, !elem_of_cons, !elem_of_nil. split.
  - intros (? & ? & ? & _). repeat split; intros ->; tauto.
  - intros (? & ? & ? & ? & ? & ?). repeat split; try tauto; apply NoDup_nil_2.
Qed.

(** X10.  For bonds that join two different atoms, the generated angles are
    the pairs of bonds that meet in one atom: every angle [(t1, c, t2)] has
    three different atoms with [t1]-[c] and [c]-[t2] bonds of the input, and
    for every two such bonds the angle is generated, from one end or from
    the other. *)
Theorem angle_legs_bonded (bonds : list (nat * nat)) :
  (forall b, b ∈ bonds -> b.1 <> b.2) ->
  exists bends, get_bending_indices bonds = Ok bends /\
    (forall t1 c t2, (t1, c, t2) ∈ bends ->
       bonded bonds t1 c /\ bonded bonds c t2 /\
       t1 <> c /\ c <> t2 /\ t1 <> t2) /\
    (forall t1 c t2, bonded bonds t1 c -> bonded bonds c t2 ->
       t1 <> c -> c <> t2 -> t1 <> t2 ->
       (t1, c, t2) ∈ bends \/ (t2, c, t1) ∈ bends).
Proof.
  intros Hb.
  destruct (get_bending_indices_legs bonds Hb) as (bends & Hok & Hlegs).
  destruct (get_bending_indices_found bonds Hb) as (bends' & Hok' & Hfound).
  rewrite Hok in Hok'. injection Hok' as <-.
  by exists bends.
Qed.

Lemma angle_legs_bonded_witness :
  exists bends, get_bending_indices [(0, 1); (1, 2)] = Ok bends /\
    (forall t1 c t2, (t1, c, t2) ∈ bends ->
       bonded [(0, 1); (1, 2)] t1 c /\ bonded [(0, 1); (1, 2)] c t2 /\
       t1 <> c /\ c <> t2 /\ t1 <> t2) /\
    (forall t1 c t2, bonded [(0, 1); (1, 2)] t1 c -> bonded [(0, 1); (1, 2)] c t2 ->
       t1 <> c -> c <> t2 -> t1 <> t2 ->
       (t1, c, t2) ∈ bends \/ (t2, c, t1) ∈ bends).
Proof.
  apply (angle_legs_bonded [(0, 1); (1, 2)]).
  intros b Hb. apply elem_of_cons in Hb as [-> | Hb]; [simpl; lia |].
  apply elem_of_cons in Hb as [-> | Hb]; [simpl; lia |].
  by apply elem_of_nil in Hb.
Defined.

Lemma angles_not_repeated_witness :
  exists bends, get_bending_indices [(0, 1); (1, 2); (1, 3)] = Ok bends /\
    forall a b ta tb, a <> b -> bends !! a = Some ta -> bends !! b = Some tb ->
      ta <> tb /\ ta <> triple_rev tb.
Proof.
  apply (angles_not_repeated [(0, 1); (1, 2); (1, 3)]).
  intros b Hb. apply elem_of_cons in Hb as [-> | Hb]; [simpl; lia |].
  apply elem_of_cons in Hb as [-> | Hb]; [simpl; lia |].
  apply elem_of_cons in Hb as [-> | Hb]; [simpl; lia |].
  by apply elem_of_nil in Hb.
Defined.

(** X11.  With bonds that join two different atoms and angles of three
    different atoms, every generated dihedral [(m, o, p, n)] has four
    different atoms and extends an angle of the input by a bond at one end:
    either [(o, p, n)] is an input angle and [m]-[o] an input bond, or
    [(m, o, p)] is an input angle and [p]-[n] an input bond.  Conversely,
    for every input angle [(t1, c, t2)] and every input bond that joins
    [t1] or [t2] to a fourth atom [x], a dihedral with the atoms
    [x, t1, c, t2] is generated. *)
Theorem dihedral_chains (bonds : list (nat * nat)) (bends : list (nat * nat * nat)) :
  (forall b, b ∈ bonds -> b.1 <> b.2) ->
  (forall t1 c t2, (t1, c, t2) ∈ bends -> t1 <> c /\ c <> t2 /\ t1 <> t2) ->
  exists ds, get_dihedral_indices bonds bends = Ok ds /\
    (forall m o p n, (m, o, p, n) ∈ ds ->
       NoDup [m; o; p; n] /\
       (((o, p, n) ∈ bends /\ bonded bonds m o) \/
        ((m, o, p) ∈ bends /\ bonded bonds p n))) /\
    (forall t1 c t2 x, (t1, c, t2) ∈ bends ->
       NoDup [x; t1; c; t2] ->
       bonded bonds x t1 \/ bonded bonds t2 x ->
       exists d, d ∈ ds /\ quad_set d = {[x; t1; c; t2]}).
Proof.
  intros Hb Ht.
  destruct (get_dihedral_indices_chains bonds bends Hb Ht) as (ds & Hok & Hch).
  destruct (get_dihedral_indices_found bonds bends) as (ds' & Hok' & Hfound).
  rewrite Hok in Hok'. injection Hok' as <-.
  by exists ds.
Qed.

Lemma dihedral_chains_witness :
  exists ds, get_dihedral_indices [(0, 1); (1, 2); (2, 3)] [(0, 1, 2); (1, 2, 3)] = Ok ds /\
    (forall m o p n, (m, o, p, n) ∈ ds ->
       NoDup [m; o; p; n] /\
       (((o, p, n) ∈ [(0, 1, 2); (1, 2, 3)] /\ bonded [(0, 1); (1, 2); (2, 3)] m o) \/
        ((m, o, p) ∈ [(0, 1, 2); (1, 2, 3)] /\ bonded [(0, 1); (1, 2); (2, 3)] p n))) /\
    (forall t1 c t2 x, (t1, c, t2) ∈ [(0, 1, 2); (1, 2, 3)] ->
       NoDup [x; t1; c; t2] ->
       bonded [(0, 1); (1, 2); (2, 3)] x t1 \/ bonded [(0, 1); (1, 2); (2, 3)] t2 x ->
       exists d, d ∈ ds /\ quad_set d = {[x; t1; c; t2]}).
Proof.
  apply (dihedral_chains [(0, 1); (1, 2); (2, 3)] [(0, 1, 2); (1, 2, 3)]).
  - intros b Hb. apply elem_of_cons in Hb as [-> | Hb]; [simpl; lia |].
    apply elem_of_cons in Hb as [-> | Hb]; [simpl; lia |].
    apply elem_of_cons in Hb as [-> | Hb]; [simpl; lia |].
    by apply elem_of_nil in Hb.
  - intros t1 c t2 Hb. apply elem_of_cons in Hb as [[= -> -> ->] | Hb]; [lia |].
    apply elem_of_cons in Hb as [[= -> -> ->] | Hb]; [lia |].
    by apply elem_of_nil in Hb.
Defined.

(** X12.  The two generators in a row, as [get_B_mat] calls them: for bonds
    that join two different atoms, the dihedrals are the chains of three
    bonds over four different atoms.  Every generated [(m, o, p, n)] has
    four different atoms with [m]-[o], [o]-[p] and [p]-[n] bonds, and for
    every such chain a dihedral with its four atoms is generated. *)
Theorem dihedrals_are_bond_chains (bonds : list (nat * nat)) :
  (forall b, b ∈ bonds -> b.1 <> b.2) ->
  exists bends ds,
    get_bending_indices bonds = Ok bends /\
    get_dihedral_indices bonds bends = Ok ds /\
    (forall m o p n, (m, o, p, n) ∈ ds ->
       NoDup [m; o; p; n] /\
       bonded bonds m o /\ bonded bonds o p /\ bonded bonds p n) /\
    (forall m o p n, NoDup [m; o; p; n] ->
       bonded bonds m o -> bonded bonds o p -> bonded bonds p n ->
       exists d, d ∈ ds /\ quad_set d = {[m; o; p; n]}).
Proof.
  intros Hb.
  destruct (get_bending_indices_legs bonds Hb) as (bends & Hok & Hlegs).
  destruct (get_bending_indices_found bonds Hb) as (bends' & Hok' & Hfound).
  rewrite Hok in Hok'. injection Hok' as <-.
  assert (forall t1 c t2, (t1, c, t2) ∈ bends -> t1 <> c /\ c <> t2 /\ t1 <> t2) as Ht.
  { intros t1 c t2 Hin. destruct (Hlegs t1 c t2 Hin) as (_ & _ & ?). done. }
  destruct (get_dihedral_indices_chains bonds bends Hb Ht) as (ds & Hds & Hch).
  destruct (get_dihedral_indices_found bonds bends) as (ds' & Hds' & Hdfound).
  rewrite Hds in Hds'. injection Hds' as <-.
  exists bends, ds. split; [done |]. split; [done |]. split.
  - intros m o p n Hin. destruct (Hch m o p n Hin) as [Hnd [[Hbend Hbond] | [Hbend Hbond]]].
    + destruct (Hlegs _ _ _ Hbend) as (? & ? & _). done.
    + destruct (Hlegs _ _ _ Hbend) as (? & ? & _). done.
  - intros m o p n Hnd Hmo Hop Hpn.
    apply NoDup_4 in Hnd as (Hmo' & Hmp' & Hmn' & Hop' & Hon' & Hpn').
    destruct (Hfound m o p Hmo Hop Hmo' Hop' Hmp') as [Hbend | Hbend].
    + destruct (Hdfound m o p n Hbend) as (d & Hd & Hq).
      * apply NoDup_4. repeat split; congruence.
      * by right.
      * exists d. split; [done |]. rewrite Hq. apply set_eq. intros y.
        rewrite !elem_of_union, !elem_of_singleton. tauto.
    + destruct (Hdfound p o m n Hbend) as (d & Hd & Hq).
      * apply NoDup_4. repeat split; congruence.
      * left. by apply bonded_sym.
      * exists d. split; [done |]. rewrite Hq. apply set_eq. intros y.
        rewrite !elem_of_union, !elem_of_singleton. tauto.
Qed.

Lemma dihedrals_are_bond_chains_witness :
  exists bends ds,
    get_bending_indices [(0, 1); (1, 2); (2, 3)] = Ok bends /\
    get_dihedral_indices [(0, 1); (1, 2); (2, 3)] bends = Ok ds /\
    (forall m o p n, (m, o, p, n) ∈ ds ->
       NoDup [m; o; p; n] /\
       bonded [(0, 1); (1, 2); (2, 3)] m o /\ bonded [(0, 1); (1, 2); (2, 3)] o p /\
       bonded [(0, 1); (1, 2); (2, 3)] p n) /\
    (forall m o p n, NoDup [m; o; p; n] ->
       bonded [(0, 1); (1, 2); (2, 3)] m o -> bonded [(0, 1); (1, 2); (2, 3)] o p ->
       bonded [(0, 1); (1, 2); (2, 3)] p n ->
       exists d, d ∈ ds /\ quad_set d = {[m; o; p; n]}).
Proof.
  apply (dihedrals_are_bond_chains [(0, 1); (1, 2); (2, 3)]).
  intros b Hb. apply elem_of_cons in Hb as [-> | Hb]; [simpl; lia |].
  apply elem_of_cons in Hb as [-> | Hb]; [simpl; lia |].
  apply elem_of_cons in Hb as [-> | Hb]; [simpl; lia |].
  by apply elem_of_nil in Hb.
Defined.

(** ** Translations *)

Lemma vsub_shift (t a b : vec3 R) : vsub (vadd a t) (vadd b t) = vsub a b.
Proof.
  destruct t as [[t1 t2] t3], a as [[a1 a2] a3], b as [[b1 b2] b3]. simpl.
  f_equal; [f_equal |]; lra.
Qed.

Lemma reshape3_shift_le (n : nat) (t : vec3 R) (l : list R) :
  length l <= n ->
  reshape3 (shift_flat t l)
  = fmap (M := result) (fmap (M := list) (fun c : vec3 R => vadd c t)) (reshape3 l).
Proof.
  revert l. induction n as [|n IH]; intros l Hl.
  - destruct l; [done | simpl in Hl; lia].
  - destruct l as [|x [|y [|z l]]]; try done.
    simpl in Hl. destruct t as [[t1 t2] t3].
    cbn [shift_flat reshape3]. rewrite IH by lia.
    by destruct (reshape3 l).
Qed.

Lemma reshape3_shift (t : vec3 R) (l : list R) :
  reshape3 (shift_flat t l)
  = fmap (M := result) (fmap (M := list) (fun c : vec3 R => vadd c t)) (reshape3 l).
Proof. by apply (reshape3_shift_le (length l)). Qed.

Lemma pdist_shift (t : vec3 R) (cs : list (vec3 R)) :
  pdist ((fun c => vadd c t) <$> cs) = pdist cs.
Proof.
  unfold pdist. rewrite combinations2_fmap, <- list_fmap_compose.
  apply list_fmap_ext. intros _ [a b] _. simpl. by rewrite vsub_shift.
Qed.

Lemma getitem_fmap {A B} (f : A -> B) (l : list A) (i : nat) :
  getitem (f <$> l) i = f <$> getitem l i.
Proof. unfold getitem. rewrite list_lookup_fmap. by destruct (l !! i). Qed.

Lemma zeros_like_fmap (f : vec3 R -> vec3 R) (cs : list (vec3 R)) :
  zeros_like (f <$> cs) = zeros_like cs.
Proof. unfold zeros_like. by rewrite length_fmap. Qed.

Lemma for_each_ext {A B} (f g : A -> result B) (l : list A) :
  (forall x, f x = g x) -> for_each f l = for_each g l.
Proof. intros Hfg. induction l as [|x l IH]; [done |]. simpl. by rewrite Hfg, IH. Qed.

Lemma get_bond_indices_translate (CR : gmap string R) (t : vec3 R)
    (geom : Geometry R) (factor : R) :
  get_bond_indices CR (translate t geom) factor = get_bond_indices CR geom factor.
Proof.
  unfold get_bond_indices. cbn [coords translate]. rewrite reshape3_shift.
  destruct (reshape3 (coords geom)) as [cs|]; [| done]. simpl.
  by rewrite length_fmap, pdist_shift.
Qed.

Lemma get_bond_B_translate (t : vec3 R) (geom : Geometry R) (ind : nat * nat) :
  get_bond_B (translate t geom) ind = get_bond_B geom ind.
Proof.
  unfold get_bond_B. cbn [coords translate]. rewrite reshape3_shift.
  destruct (reshape3 (coords geom)) as [cs|]; [| done]. simpl.
  destruct ind as [n m]. rewrite !getitem_fmap.
  destruct (getitem cs m) as [cm|]; [| done]. simpl.
  destruct (getitem cs n) as [cn|]; [| done]. simpl.
  by rewrite vsub_shift, zeros_like_fmap.
Qed.

Lemma angle_terms_shift (t cm co cn : vec3 R) :
  angle_terms (vadd cm t) (vadd co t) (vadd cn t) = angle_terms cm co cn.
Proof. unfold angle_terms. by rewrite !vsub_shift. Qed.

Lemma dihedral_terms_shift (t cm co cp cn : vec3 R) :
  dihedral_terms (vadd cm t) (vadd co t) (vadd cp t) (vadd cn t)
  = dihedral_terms cm co cp cn.
Proof. unfold dihedral_terms. by rewrite !vsub_shift. Qed.

Lemma get_angle_B_translate (t : vec3 R) (geom : Geometry R) (ind : nat * nat * nat) :
  get_angle_B (translate t geom) ind = get_angle_B geom ind.
Proof.
  unfold get_angle_B. cbn [coords translate]. rewrite reshape3_shift.
  destruct (reshape3 (coords geom)) as [cs|]; [| done]. cbn [mbind result_bind fmap result_fmap].
  destruct ind as [[m o] n]. rewrite !getitem_fmap.
  destruct (getitem cs m) as [cm|]; [| done]. cbn [mbind result_bind fmap result_fmap].
  destruct (getitem cs o) as [co|]; [| done]. cbn [mbind result_bind fmap result_fmap].
  destruct (getitem cs n) as [cn|]; [| done]. cbn [mbind result_bind fmap result_fmap].
  by rewrite angle_terms_shift, zeros_like_fmap.
Qed.

Lemma get_dihedral_B_translate (t : vec3 R) (geom : Geometry R) (ind : quad) :
  get_dihedral_B (translate t geom) ind = get_dihedral_B geom ind.
Proof.
  unfold get_dihedral_B. cbn [coords translate]. rewrite reshape3_shift.
  destruct (reshape3 (coords geom)) as [cs|]; [| done]. cbn [mbind result_bind fmap result_fmap].
  destruct ind as [[[m o] p] n]. rewrite !getitem_fmap.
  destruct (getitem cs m) as [cm|]; [| done]. cbn [mbind result_bind fmap result_fmap].
  destruct (getitem cs o) as [co|]; [| done]. cbn [mbind result_bind fmap result_fmap].
  destruct (getitem cs n) as [cn|]; [| done]. cbn [mbind result_bind fmap result_fmap].
  destruct (getitem cs p) as [cp|]; [| done]. cbn [mbind result_bind fmap result_fmap].
  by rewrite dihedral_terms_shift, zeros_like_fmap.
Qed.

(** X13.  Over the real numbers, moving the whole geometry by a vector changes
    neither the detected bonds nor any row: [get_B_mat] returns the same
    result. *)
Theorem get_B_mat_translate (CR : gmap string R) (t : vec3 R) (geom : Geometry R) :
  get_bond_indices CR (translate t geom) f_1_3 = get_bond_indices CR geom f_1_3 /\
  get_B_mat CR (translate t geom) = get_B_mat CR geom.
Proof.
  split; [apply get_bond_indices_translate |].
  unfold get_B_mat. rewrite get_bond_indices_translate.
  destruct (get_bond_indices CR geom f_1_3) as [bond_inds|]; [| done]. simpl.
  destruct (get_bending_indices bond_inds) as [bend_inds|]; [| done]. simpl.
  destruct (get_dihedral_indices bond_inds bend_inds) as [dihedral_inds|]; [| done]. simpl.
  rewrite (for_each_ext _ _ bond_inds (get_bond_B_translate t geom)).
  rewrite (for_each_ext _ _ bend_inds (get_angle_B_translate t geom)).
  by rewrite (for_each_ext _ _ dihedral_inds (get_dihedral_B_translate t geom)).
Qed.

(** ** Orientation of a bond *)

Local Open Scope R_scope.

Lemma vnorm_vsub_sym (a b : vec3 R) : vnorm (vsub a b) = vnorm (vsub b a).
Proof.
  destruct a as [[a1 a2] a3], b as [[b1 b2] b3]. unfold vnorm. simpl.
  f_equal. ring.
Qed.

Lemma vdivs_vsub_sym (a b : vec3 R) (k : R) :
  vdivs (vsub a b) k = vneg (vdivs (vsub b a) k).
Proof.
  destruct a as [[a1 a2] a3], b as [[b1 b2] b3]. simpl. unfold Rdiv.
  f_equal; [f_equal |]; ring.
Qed.

Lemma vneg_smulv (k : R) (a : vec3 R) : smulv k (vneg a) = vneg (smulv k a).
Proof. destruct a as [[a1 a2] a3]. simpl. f_equal; [f_equal |]; ring. Qed.

Lemma vneg_vneg (a : vec3 R) : vneg (vneg a) = a.
Proof. destruct a as [[a1 a2] a3]. simpl. f_equal; [f_equal |]; ring. Qed.

Lemma vneg_vzero : vneg (vzero : vec3 R) = vzero.
Proof. unfold vzero. simpl. f_equal; [f_equal |]; ring. Qed.

Lemma flatten_vneg (l : list (vec3 R)) : flatten (vneg <$> l) = Ropp <$> flatten l.
Proof.
  induction l as [|[[x y] z] l IH]; [done |].
  rewrite fmap_cons.
  change (flatten (vneg (x, y, z) :: (vneg <$> l)))
    with (- x :: - y :: - z :: flatten (vneg <$> l)).
  change (flatten ((x, y, z) :: l)) with (x :: y :: z :: flatten l).
  rewrite !fmap_cons. by rewrite IH.
Qed.

Lemma zeros_like_vneg (cs : list (vec3 R)) : vneg <$> zeros_like cs = zeros_like cs.
Proof. unfold zeros_like. by rewrite fmap_replicate, vneg_vzero. Qed.

Local Close Scope R_scope.

(** X14.  Over the real numbers, [get_bond_B] does not depend on the order in
    which the two atoms of the bond are given: both orders give the same
    row, or the same exception. *)
Theorem get_bond_B_symmetric (geom : Geometry R) (n m : nat) :
  get_bond_B geom (m, n) = get_bond_B geom (n, m).
Proof.
  destruct (decide (n = m)) as [-> | Hnm]; [done |].
  unfold get_bond_B.
  destruct (reshape3 (coords geom)) as [cs|]; [| done].
  cbn [mbind result_bind].
  unfold getitem.
  destruct (cs !! n) as [cn|], (cs !! m) as [cm|]; cbn [mbind result_bind];
    try done.
  f_equal. f_equal.
  rewrite (vnorm_vsub_sym cn cm), (vdivs_vsub_sym cn cm).
  change (@f1 R R_scalar) with 1%R. change (@fneg R R_scalar) with Ropp.
  rewrite !smulv_one, !smulv_minus_one, !vneg_vneg.
  by rewrite list_insert_insert_ne.
Qed.

(** ** Blocks orthogonal to the legs *)

Lemma vcross_vdivs_orth_l (a w : vec3 R) (k l : R) :
  vdot (vdivs (vcross (vdivs a k) w) l) a = 0%R.
Proof.
  destruct a as [[a1 a2] a3], w as [[w1 w2] w3]. simpl. unfold Rdiv. ring.
Qed.

Lemma vcross_vdivs_orth_r (w b : vec3 R) (k l : R) :
  vdot (vdivs (vcross w (vdivs b k)) l) b = 0%R.
Proof.
  destruct b as [[b1 b2] b3], w as [[w1 w2] w3]. simpl. unfold Rdiv. ring.
Qed.

Lemma vdot_vneg_l (a b : vec3 R) : vdot (vneg a) b = (- vdot a b)%R.
Proof.
  destruct a as [[a1 a2] a3], b as [[b1 b2] b3]. simpl. ring.
Qed.

(** The terms written at the terminal atoms are orthogonal to the legs. *)
Lemma terminal_terms_orthogonal (cm co cp cn : vec3 R) :
  (vdot (angle_terms cm co cn).1 (vsub cm co) = 0%R /\
   vdot (angle_terms cm co cn).2 (vsub cn co) = 0%R) /\
  (vdot (dihedral_terms cm co cp cn).1.1.1 (vsub cm co) = 0%R /\
   vdot (dihedral_terms cm co cp cn).1.1.1 (vsub cp co) = 0%R /\
   vdot (dihedral_terms cm co cp cn).1.1.2 (vsub cn cp) = 0%R /\
   vdot (dihedral_terms cm co cp cn).1.1.2 (vsub cp co) = 0%R).
Proof.
  split.
  - unfold angle_terms. cbv zeta. cbn [fst snd]. split.
    + apply vcross_vdivs_orth_l.
    + apply vcross_vdivs_orth_r.
  - unfold dihedral_terms. cbv zeta. cbn [fst snd]. repeat split.
    + apply vcross_vdivs_orth_l.
    + apply vcross_vdivs_orth_r.
    + rewrite vdot_vneg_l, vcross_vdivs_orth_l. lra.
    + rewrite vdot_vneg_l, vcross_vdivs_orth_r. lra.
Qed.

(** ** The scale factor *)

(** X15.  Over the real numbers and with a table of non-negative radii, a
    larger scale factor keeps every bond: if bond detection returns a list
    for [factor], it returns a list for every [factor' >= factor], and that
    list contains the first one. *)
Theorem bond_detection_monotone (CR : gmap string R) (geom : Geometry R)
    (factor factor' : R) (bonds : list (nat * nat)) :
  (forall s r, CR !! s = Some r -> (0 <= r)%R) ->
  (factor <= factor')%R ->
  get_bond_indices CR geom factor = Ok bonds ->
  exists bonds', get_bond_indices CR geom factor' = Ok bonds' /\
                 forall b, b ∈ bonds -> b ∈ bonds'.
Proof.
  intros Hpos Hle Hb.
  pose proof Hb as (cs & sums & Hcs & Hsums & -> & Hne)%get_bond_indices_Ok.
  destruct (for_each_total (cov_rad_sum CR geom factor')
              (combinations2 (seq 0 (length cs)))) as [sums' Hsums'].
  { apply for_each_Ok in Hsums. apply Forall_forall.
    intros [i j] [k Hk]%list_elem_of_lookup.
    destruct (Forall2_lookup_l _ _ _ _ _ Hsums Hk) as (s & _ & Hs).
    apply cov_rad_sum_Ok in Hs as (ai & aj & ri & rj & ? & ? & ? & ? & _).
    eexists. apply cov_rad_sum_Ok. by exists ai, aj, ri, rj. }
  assert (forall b, b ∈ select_bonds (combinations2 (seq 0 (length cs))) (pdist cs) sums ->
            b ∈ select_bonds (combinations2 (seq 0 (length cs))) (pdist cs) sums')
    as Hsub.
  { intros [i j] Hin.
    apply (select_bonds_spec CR geom factor cs sums i j Hsums) in Hin
      as (Hlt & ci & cj & s & Hci & Hcj & Hs & Hfle).
    apply (select_bonds_spec CR geom factor' cs sums' i j Hsums').
    split; [done |].
    apply cov_rad_sum_Ok in Hs as (ai & aj & ri & rj & Hai & Haj & Hri & Hrj & ->).
    exists ci, cj, (fmul factor' (fadd ri rj)). repeat split; try done.
    - apply cov_rad_sum_Ok. by exists ai, aj, ri, rj.
    - apply bool_decide_eq_true in Hfle. apply bool_decide_eq_true.
      pose proof (Hpos _ _ Hri). pose proof (Hpos _ _ Hrj).
      simpl in *. etransitivity; [exact Hfle |].
      apply Rmult_le_compat_r; lra. }
  exists (select_bonds (combinations2 (seq 0 (length cs))) (pdist cs) sums').
  split; [| exact Hsub].
  apply get_bond_indices_Ok. exists cs, sums'. repeat split; try done.
  intros Hnil. destruct (select_bonds _ _ sums) as [|b l] eqn:Hsel; [done |].
  specialize (Hsub b ltac:(apply list_elem_of_here)). rewrite Hnil in Hsub.
  by apply elem_of_nil in Hsub.
Qed.

(** ** Reading a coordinate from the other end *)

Local Open Scope R_scope.

Lemma vsub_swap (a b : vec3 R) : vsub a b = vneg (vsub b a).
Proof.
  destruct a as [[a1 a2] a3], b as [[b1 b2] b3]. simpl.
  f_equal; [f_equal |]; ring.
Qed.

Lemma vnorm_vneg (a : vec3 R) : vnorm (vneg a) = vnorm a.
Proof. destruct a as [[a1 a2] a3]. unfold vnorm. simpl. f_equal. ring. Qed.

Lemma vdivs_vneg (a : vec3 R) (k : R) : vdivs (vneg a) k = vneg (vdivs a k).
Proof.
  destruct a as [[a1 a2] a3]. simpl. unfold Rdiv. f_equal; [f_equal |]; ring.
Qed.

Lemma vdot_comm (a b : vec3 R) : vdot a b = vdot b a.
Proof. destruct a as [[a1 a2] a3], b as [[b1 b2] b3]. simpl. ring. Qed.

Lemma vdot_vneg_r (a b : vec3 R) : vdot a (vneg b) = - vdot a b.
Proof. destruct a as [[a1 a2] a3], b as [[b1 b2] b3]. simpl. ring. Qed.

Lemma vcross_swap (a b : vec3 R) : vcross a b = vneg (vcross b a).
Proof.
  destruct a as [[a1 a2] a3], b as [[b1 b2] b3]. simpl.
  f_equal; [f_equal |]; ring.
Qed.

Lemma vcross_vneg_r (a b : vec3 R) : vcross a (vneg b) = vneg (vcross a b).
Proof.
  destruct a as [[a1 a2] a3], b as [[b1 b2] b3]. simpl.
  f_equal; [f_equal |]; ring.
Qed.

Lemma vcross_vneg_l (a b : vec3 R) : vcross (vneg a) b = vneg (vcross a b).
Proof.
  destruct a as [[a1 a2] a3], b as [[b1 b2] b3]. simpl.
  f_equal; [f_equal |]; ring.
Qed.

Lemma vmuls_vneg (a : vec3 R) (k : R) : vmuls (vneg a) k = vneg (vmuls a k).
Proof. destruct a as [[a1 a2] a3]. simpl. f_equal; [f_equal |]; ring. Qed.

Lemma vmuls_opp (a : vec3 R) (k : R) : vmuls a (- k) = vneg (vmuls a k).
Proof. destruct a as [[a1 a2] a3]. simpl. f_equal; [f_equal |]; ring. Qed.

Lemma vsub_vneg_swap (a b : vec3 R) : vsub (vneg a) b = vsub (vneg b) a.
Proof.
  destruct a as [[a1 a2] a3], b as [[b1 b2] b3]. simpl.
  f_equal; [f_equal |]; ring.
Qed.

Lemma vadd_vsub_swap (a b c : vec3 R) :
  vadd a (vsub b c) = vsub a (vsub c b).
Proof.
  destruct a as [[a1 a2] a3], b as [[b1 b2] b3], c as [[c1 c2] c3]. simpl.
  f_equal; [f_equal |]; ring.
Qed.

(** Swapping the terminal atoms of an angle swaps the two terms, as long as
    the generic branch of [angle_w_dash] is taken. *)
Lemma angle_terms_swap (cm co cn : vec3 R) :
  are_parallel (vdivs (vsub cm co) (vnorm (vsub cm co)))
               (vdivs (vsub cn co) (vnorm (vsub cn co))) = false ->
  angle_terms cn co cm = ((angle_terms cm co cn).2, (angle_terms cm co cn).1).
Proof.
  intros Hpar. unfold angle_terms. cbv zeta. cbn [fst snd].
  set (u := vdivs (vsub cm co) (vnorm (vsub cm co))) in *.
  set (v := vdivs (vsub cn co) (vnorm (vsub cn co))) in *.
  assert (are_parallel v u = false) as Hpar'.
  { unfold are_parallel in *. by rewrite (vdot_comm v u). }
  unfold angle_w_dash. rewrite Hpar, Hpar'.
  rewrite (vcross_swap v u), vnorm_vneg, vdivs_vneg.
  rewrite vcross_vneg_r, vcross_vneg_l.
  rewrite <- (vcross_swap _ v), <- (vcross_swap u _).
  reflexivity.
Qed.

(** Reading a dihedral from the other end swaps the terms of the terminal
    atoms and those of the central atoms. *)
Lemma dihedral_terms_reverse (cm co cp cn : vec3 R) :
  let t := dihedral_terms cm co cp cn in
  dihedral_terms cn cp co cm = (t.1.1.2, t.1.1.1, t.2, t.1.2).
Proof.
  unfold dihedral_terms. cbv zeta. cbn [fst snd].
  change (@fsin R R_scalar) with sin. change (@fcos R R_scalar) with cos.
  change (@farccos R R_scalar) with acos. change (@fmul R R_scalar) with Rmult.
  rewrite (vsub_swap co cp), vnorm_vneg, vdivs_vneg.
  set (u := vdivs (vsub cm co) (vnorm (vsub cm co))).
  set (v := vdivs (vsub cn cp) (vnorm (vsub cn cp))).
  set (w := vdivs (vsub cp co) (vnorm (vsub cp co))).
  rewrite (vdot_vneg_r v w), (vdot_comm (vneg w) u), (vdot_vneg_r u w).
  rewrite (vdot_comm v w).
  rewrite !acos_opp, !sin_PI_x, !Rtrigo_facts.cos_pi_minus.
  rewrite !vcross_vneg_r.
  set (su := sin (acos (vdot u w))). set (sv := sin (acos (vdot w v))).
  set (cu := cos (acos (vdot u w))). set (cv := cos (acos (vdot w v))).
  rewrite !vmuls_vneg, !vmuls_opp, !vneg_vneg, !vdivs_vneg, !vneg_vneg.
  f_equal; [f_equal |].
  - apply vadd_vsub_swap.
  - symmetry. apply vadd_vsub_swap.
Qed.

Local Close Scope R_scope.

(** X16.  Over the real numbers, the angle row does not depend on which
    terminal atom is named first, as long as the two legs are not found
    anti-parallel by [are_parallel]. *)
Theorem get_angle_B_symmetric (geom : Geometry R) (m o n : nat)
    (cs : list (vec3 R)) (cm co cn : vec3 R) :
  reshape3 (coords geom) = Ok cs ->
  cs !! m = Some cm -> cs !! o = Some co -> cs !! n = Some cn ->
  NoDup [m; o; n] ->
  are_parallel (vdivs (vsub cm co) (vnorm (vsub cm co)))
               (vdivs (vsub cn co) (vnorm (vsub cn co))) = false ->
  get_angle_B geom (n, o, m) = get_angle_B geom (m, o, n).
Proof.
  intros Hcs Hm Ho Hn Hnd Hpar.
  apply NoDup_cons in Hnd as [Hm' Hnd]. apply NoDup_cons in Hnd as [Ho' _].
  assert (m <> o /\ m <> n /\ o <> n) as (Hmo & Hmn & Hon) by set_solver.
  rewrite (get_angle_B_Ok geom n o m cs cn co cm Hcs Hn Ho Hm).
  rewrite (get_angle_B_Ok geom m o n cs cm co cn Hcs Hm Ho Hn).
  cbv zeta. rewrite (angle_terms_swap cm co cn Hpar). cbn [fst snd].
  f_equal. f_equal.
  rewrite (vsub_vneg_swap (angle_terms cm co cn).2).
  rewrite (list_insert_insert_ne _ o m) by done.
  rewrite (list_insert_insert_ne _ n m) by done.
  by rewrite (list_insert_insert_ne _ n o) by done.
Qed.

(** X17.  Over the real numbers, the dihedral row does not depend on the end
    from which the four distinct atoms are read: [(n, p, o, m)] gives the
    same row, or the same exception, as [(m, o, p, n)]. *)
Theorem get_dihedral_B_reversed (geom : Geometry R) (m o p n : nat) :
  NoDup [m; o; p; n] ->
  get_dihedral_B geom (n, p, o, m) = get_dihedral_B geom (m, o, p, n).
Proof.
  intros Hnd.
  apply NoDup_cons in Hnd as [Hm' Hnd]. apply NoDup_cons in Hnd as [Ho' Hnd].
  apply NoDup_cons in Hnd as [Hp' _].
  assert (m <> o /\ m <> p /\ m <> n /\ o <> p /\ o <> n /\ p <> n)
    as (Hmo & Hmp & Hmn & Hop & Hon & Hpn) by set_solver.
  destruct (reshape3 (coords geom)) as [cs|e] eqn:Hcs;
    [| unfold get_dihedral_B; by rewrite Hcs].
  destruct (cs !! m) as [cm|] eqn:Hm, (cs !! o) as [co|] eqn:Ho,
           (cs !! p) as [cp|] eqn:Hp, (cs !! n) as [cn|] eqn:Hn;
    try (unfold get_dihedral_B, getitem; rewrite Hcs; cbn [mbind result_bind];
         rewrite ?Hm, ?Ho, ?Hp, ?Hn; cbn [mbind result_bind];
         rewrite ?Hm, ?Ho, ?Hp, ?Hn; reflexivity).
  rewrite (get_dihedral_B_Ok geom n p o m cs cn cp co cm Hcs Hn Hp Ho Hm).
  rewrite (get_dihedral_B_Ok geom m o p n cs cm co cp cn Hcs Hm Ho Hp Hn).
  cbv zeta. rewrite (dihedral_terms_reverse cm co cp cn). cbn [fst snd].
  f_equal. f_equal.
  rewrite (list_insert_insert_ne _ n m) by done.
  rewrite (list_insert_insert_ne _ o p) by done.
  reflexivity.
Qed.

(** ** Blocks of the terminal atoms *)

(** X18.  Over the real numbers, away from the degenerate geometries, the
    blocks written at the terminal atoms are orthogonal to the legs.  For an
    angle of distinct atoms whose legs have nonzero length and are not
    collinear, and whose vector [w_dash] is nonzero; for a dihedral of
    distinct atoms whose defining vectors have nonzero norms and whose
    angles [phi_u], [phi_v] have nonzero sines (so that no quotient of the
    builders has a zero denominator).  In the row of [get_angle_B] the block of [m] is
    orthogonal to [coords[m] - coords[o]] and the block of [n] to
    [coords[n] - coords[o]]; in the row of [get_dihedral_B] the block of [m]
    is orthogonal to [coords[m] - coords[o]] and to the central bond
    [coords[p] - coords[o]], and the block of [n] to [coords[n] - coords[p]]
    and to the central bond. *)
Theorem terminal_blocks_orthogonal :
  (forall (geom : Geometry R) (m o n : nat) (cs : list (vec3 R)) (cm co cn : vec3 R),
     reshape3 (coords geom) = Ok cs ->
     cs !! m = Some cm -> cs !! o = Some co -> cs !! n = Some cn ->
     NoDup [m; o; n] ->
     let u := vdivs (vsub cm co) (vnorm (vsub cm co)) in
     let v := vdivs (vsub cn co) (vnorm (vsub cn co)) in
     vnorm (vsub cm co) <> 0%R -> vnorm (vsub cn co) <> 0%R ->
     vnorm (vcross u v) <> 0%R ->
     vnorm (angle_w_dash u v) <> 0%R ->
     exists row bm bn,
       get_angle_B geom (m, o, n) = Ok row /\
       block row m = Some bm /\ block row n = Some bn /\
       vdot bm (vsub cm co) = 0%R /\ vdot bn (vsub cn co) = 0%R) /\
  (forall (geom : Geometry R) (m o p n : nat) (cs : list (vec3 R))
          (cm co cp cn : vec3 R),
     reshape3 (coords geom) = Ok cs ->
     cs !! m = Some cm -> cs !! o = Some co ->
     cs !! p = Some cp -> cs !! n = Some cn ->
     NoDup [m; o; p; n] ->
     let u := vdivs (vsub cm co) (vnorm (vsub cm co)) in
     let v := vdivs (vsub cn cp) (vnorm (vsub cn cp)) in
     let w := vdivs (vsub cp co) (vnorm (vsub cp co)) in
     vnorm (vsub cm co) <> 0%R -> vnorm (vsub cn cp) <> 0%R ->
     vnorm (vsub cp co) <> 0%R ->
     sin (acos (vdot u w)) <> 0%R -> sin (acos (vdot w v)) <> 0%R ->
     exists row bm bn,
       get_dihedral_B geom (m, o, p, n) = Ok row /\
       block row m = Some bm /\ block row n = Some bn /\
       vdot bm (vsub cm co) = 0%R /\ vdot bm (vsub cp co) = 0%R /\
       vdot bn (vsub cn cp) = 0%R /\ vdot bn (vsub cp co) = 0%R).
Proof.
  split.
  - intros geom m o n cs cm co cn Hcs Hm Ho Hn Hnd u v _ _ _ _.
    apply NoDup_cons in Hnd as [Hm' Hnd]. apply NoDup_cons in Hnd as [Ho' _].
    assert (m <> o /\ m <> n /\ o <> n) as (Hmo & Hmn & Hon) by set_solver.
    pose proof (lookup_lt_Some _ _ _ Hm). pose proof (lookup_lt_Some _ _ _ Ho).
    pose proof (lookup_lt_Some _ _ _ Hn).
    eexists _, _, _. split; [by eapply get_angle_B_Ok |].
    rewrite !block_flatten.
    split; [| split; [| split]].
    + lookup_written.
    + lookup_written.
    + apply (terminal_terms_orthogonal cm co co cn).
    + apply (terminal_terms_orthogonal cm co co cn).
  - intros geom m o p n cs cm co cp cn Hcs Hm Ho Hp Hn Hnd u v w _ _ _ _ _.
    apply NoDup_4 in Hnd as (Hmo & Hmp & Hmn & Hop & Hon & Hpn).
    pose proof (lookup_lt_Some _ _ _ Hm). pose proof (lookup_lt_Some _ _ _ Ho).
    pose proof (lookup_lt_Some _ _ _ Hp). pose proof (lookup_lt_Some _ _ _ Hn).
    eexists _, _, _. split; [by eapply get_dihedral_B_Ok |].
    rewrite !block_flatten.
    split; [| split]; [lookup_written | lookup_written |].
    exact (proj2 (terminal_terms_orthogonal cm co cp cn)).
Qed.

Lemma NoDup_1_0_2 : NoDup [1; 0; 2].
Proof.
  apply NoDup_cons; split; [rewrite !elem_of_cons, elem_of_nil; lia |].
  apply NoDup_cons; split; [rewrite !elem_of_cons, elem_of_nil; lia |].
  apply NoDup_singleton.
Defined.

Lemma NoDup_0_1_2_3 : NoDup [0; 1; 2; 3].
Proof. apply NoDup_4. lia. Defined.

Lemma terminal_blocks_orthogonal_witness :
  (exists row bm bn,
     get_angle_B bent3 (1, 0, 2) = Ok row /\
     block row 1 = Some bm /\ block row 2 = Some bn /\
     vdot bm (vsub (1, 0, 0)%R (0, 0, 0)%R) = 0%R /\
     vdot bn (vsub (0, 1, 0)%R (0, 0, 0)%R) = 0%R) /\
  (exists row bm bn,
     get_dihedral_B twisted4 (0, 1, 2, 3) = Ok row /\
     block row 0 = Some bm /\ block row 3 = Some bn /\
     vdot bm (vsub (0, 1, 0)%R (0, 0, 0)%R) = 0%R /\
     vdot bm (vsub (1, 0, 0)%R (0, 0, 0)%R) = 0%R /\
     vdot bn (vsub (1, 0, 1)%R (1, 0, 0)%R) = 0%R /\
     vdot bn (vsub (1, 0, 0)%R (0, 0, 0)%R) = 0%R).
Proof.
  split.
  - apply (proj1 terminal_blocks_orthogonal bent3 1 0 2
             [(0, 0, 0); (1, 0, 0); (0, 1, 0)]%R (1, 0, 0)%R (0, 0, 0)%R (0, 1, 0)%R);
      try reflexivity.
    + exact NoDup_1_0_2.
    + apply Rgt_not_eq, Rlt_gt, vnorm_pos. intros [= ?]. lra.
    + apply Rgt_not_eq, Rlt_gt, vnorm_pos. intros [= ?]. lra.
    + unfold vnorm, vsub, vdot, vdivs, vcross. simpl.
      rewrite sqrt_1_0_0, sqrt_0_1_0.
      replace (_ + _ + _)%R with 1%R by lra. rewrite sqrt_1. lra.
    + unfold angle_w_dash. rewrite not_parallel_orthogonal.
      * unfold vnorm, vsub, vdot, vdivs, vcross. simpl.
        rewrite sqrt_1_0_0, sqrt_0_1_0.
        replace (_ + _ + _)%R with 1%R by lra. rewrite sqrt_1. lra.
      * unfold vnorm, vsub, vdot, vdivs. simpl. lra.
  - apply (proj2 terminal_blocks_orthogonal twisted4 0 1 2 3
             [(0, 1, 0); (0, 0, 0); (1, 0, 0); (1, 0, 1)]%R
             (0, 1, 0)%R (0, 0, 0)%R (1, 0, 0)%R (1, 0, 1)%R);
      try reflexivity.
    + exact NoDup_0_1_2_3.
    + apply Rgt_not_eq, Rlt_gt, vnorm_pos. intros [= ?]. lra.
    + apply Rgt_not_eq, Rlt_gt, vnorm_pos. intros [= ?]. lra.
    + apply Rgt_not_eq, Rlt_gt, vnorm_pos. intros [= ?]. lra.
    + replace (vdot _ _) with 0%R; [apply sin_acos_0 |].
      unfold vnorm, vsub, vdot, vdivs. simpl. lra.
    + replace (vdot _ _) with 0%R; [apply sin_acos_0 |].
      unfold vnorm, vsub, vdot, vdivs. simpl. lra.
Defined.

Lemma get_angle_B_symmetric_witness :
  get_angle_B bent3 (2, 0, 1) = get_angle_B bent3 (1, 0, 2).
Proof.
  apply (get_angle_B_symmetric bent3 1 0 2
           [(0, 0, 0); (1, 0, 0); (0, 1, 0)]%R (1, 0, 0)%R (0, 0, 0)%R (0, 1, 0)%R);
    try reflexivity.
  - exact NoDup_1_0_2.
  - apply not_parallel_orthogonal. unfold vnorm, vsub, vdot, vdivs. simpl. lra.
Defined.

Lemma get_dihedral_B_reversed_witness :
  get_dihedral_B twisted4 (3, 2, 1, 0) = get_dihedral_B twisted4 (0, 1, 2, 3).
Proof. exact (get_dihedral_B_reversed twisted4 0 1 2 3 NoDup_0_1_2_3). Defined.

(** ** The other witnesses *)

Lemma bad_coords_length_raises_witness :
  get_bond_indices CR_example short_coords (13 / 10)%R = Raise ValueError /\
  get_bond_B short_coords (0, 0) = Raise ValueError /\
  get_angle_B short_coords (0, 0, 0) = Raise ValueError /\
  get_dihedral_B short_coords (0, 0, 0, 0) = Raise ValueError /\
  get_B_mat CR_example short_coords = Raise ValueError.
Proof.
  apply (bad_coords_length_raises CR_example short_coords (13 / 10)%R
           (0, 0) (0, 0, 0) (0, 0, 0, 0)).
  simpl. lia.
Defined.

Lemma row_builders_index_error_witness :
  (forall n m, get_bond_B h2 (n, m) = Raise IndexError <-> ~ (n < 2 /\ m < 2)) /\
  (forall m o n, get_angle_B h2 (m, o, n) = Raise IndexError <->
               ~ (m < 2 /\ o < 2 /\ n < 2)) /\
  (forall m o p n, get_dihedral_B h2 (m, o, p, n) = Raise IndexError <->
               ~ (m < 2 /\ o < 2 /\ p < 2 /\ n < 2)).
Proof.
  exact (row_builders_index_error h2 [(0, 0, 0); (1, 0, 0)]%R eq_refl).
Defined.

Lemma angle_dihedral_rows_support_witness :
  (forall m o n row, get_angle_B bent3 (m, o, n) = Ok row ->
     length row = 9 /\
     forall k, k < length row ->
       k `div` 3 <> m -> k `div` 3 <> o -> k `div` 3 <> n -> row !! k = Some 0%R) /\
  (forall m o p n row, get_dihedral_B bent3 (m, o, p, n) = Ok row ->
     length row = 9 /\
     forall k, k < length row ->
       k `div` 3 <> m -> k `div` 3 <> o -> k `div` 3 <> p -> k `div` 3 <> n ->
       row !! k = Some 0%R).
Proof.
  exact (angle_dihedral_rows_support bent3
           [(0, 0, 0); (1, 0, 0); (0, 1, 0)]%R eq_refl).
Defined.

Lemma euclid_far : euclid (0, 0, 0)%R (3, 0, 0)%R = 3%R.
Proof.
  unfold euclid.
  replace ((0 - 3) * (0 - 3) + (0 - 0) * (0 - 0) + (0 - 0) * (0 - 0))%R
    with (3 * 3)%R by lra.
  apply sqrt_square. lra.
Qed.

Lemma CR_example_h : CR_example !! lower "H" = Some (1 / 2)%R.
Proof. reflexivity. Qed.

Lemma no_bond_raises_witness :
  get_bond_indices CR_example far_pair (13 / 10)%R = Raise IndexError.
Proof.
  apply (no_bond_raises CR_example far_pair (13 / 10)%R [(0, 0, 0); (3, 0, 0)]%R).
  - reflexivity.
  - simpl. lia.
  - intros [|[|k]] a Hk Ha; [| | simpl in Hk; lia];
      injection Ha as <-; exists (1 / 2)%R; exact CR_example_h.
  - intros [|[|i]] [|[|j]] ci cj ai aj ri rj Hij Hci Hcj Hai Haj Hri Hrj;
      try lia; try discriminate.
    injection Hci as <-. injection Hcj as <-.
    injection Hai as <-. injection Haj as <-.
    rewrite CR_example_h in Hri, Hrj. injection Hri as <-. injection Hrj as <-.
    rewrite vnorm_vsub_euclid.
    assert (euclid (0, 0, 0)%R (3, 0, 0)%R = 3%R) as -> by exact euclid_far.
    apply bool_decide_eq_false. simpl. lra.
Defined.

Lemma bond_list_sorted_witness :
  StronglySorted pair_lt [(0, 1)] /\ NoDup [(0, 1)] /\
  exists cs, reshape3 (coords h2) = Ok cs /\
    forall b, b ∈ [(0, 1)] -> b.1 < b.2 /\ b.2 < length cs.
Proof. exact (bond_list_sorted CR_example h2 (13 / 10)%R [(0, 1)] h2_bonds). Defined.

Lemma CR_example_nonneg (s : string) (r : R) :
  CR_example !! s = Some r -> (0 <= r)%R.
Proof.
  unfold CR_example.
  intros [[_ <-] | [_ [_ <-]%lookup_singleton_Some]]%lookup_insert_Some; lra.
Qed.

Lemma bond_detection_monotone_witness :
  exists bonds', get_bond_indices CR_example h2 2%R = Ok bonds' /\
                 forall b, b ∈ [(0, 1)] -> b ∈ bonds'.
Proof.
  apply (bond_detection_monotone CR_example h2 (13 / 10)%R 2%R [(0, 1)]).
  - exact CR_example_nonneg.
  - lra.
  - exact h2_bonds.
Defined.
